(** * Drone/sensor scheduling core: shallow embedding and verified properties

    The development embeds the two Python modules that carry the scheduling
    logic:

    - [code/simulation/task_scheduling.py], class [DroneTaskScheduler]
      (the agent registry and the online greedy scheduler), in module
      [TaskScheduling];
    - [simulation/YAFS_simulation.py], class [TaskScheduler] (the batch
      optimizer: nearest-centroid partition, genetic search and
      [generate_schedule]), in module [BatchOptimizer]; class
      [AgricultureTopology] in module [Topology]; class
      [SimulationLogger] and [run_simulation], up to the end of the
      simulation loop, in module [Simulation].  Writing the CSV files
      and printing the summary are outside the model.

    Conventions of the embedding.

    - Python [int] is [Z].  Python [float] is idealised as a real number
      ([R]): rounding, infinities and NaN are outside the model, so
      [math.sqrt]/[np.sqrt] is [sqrt] and [float('inf')] is a separate
      constructor.  Comparisons of reals go through [Rlt_dec].
    - A Python [dict] is an insertion-ordered association list with [Z]
      keys ([PyDict]); assigning to a key that is present keeps its place.
    - An exception is a value [Raise e]; a function that can raise returns
      a [result].
    - The module-global [random] generator is an explicit oracle that is
      threaded through the calls ([Random]). *)

From Stdlib Require Import Bool String List ZArith Reals Lra Lia Permutation FinFun Sorted.
From Stdlib Require Import DecimalString DecimalZ.
Import ListNotations.


(** ** Python runtime: exceptions and real comparisons *)

Inductive pyerror : Type :=
| KeyError
| ValueError
| IndexError.

Inductive result (A : Type) : Type :=
| Ok (a : A)
| Raise (e : pyerror).

Arguments Ok {A} a.
Arguments Raise {A} e.

(** [x < y] on floats, as a boolean. *)
Definition Rltb (x y : R) : bool := if Rlt_dec x y then true else false.

(** Python's builtin [min(a, b)]: the first argument unless the second is
    strictly smaller. *)
Definition py_min (a b : R) : R := if Rltb b a then b else a.

(** ** Insertion-ordered dictionaries *)

Module PyDict.

Definition dict (V : Type) : Type := list (Z * V).

Definition keys {V} (d : dict V) : list Z := map fst d.

(** [d[k]], [None] standing for KeyError / absence. *)
Fixpoint get {V} (d : dict V) (k : Z) : option V :=
  match d with
  | [] => None
  | (k', v) :: d' => if Z.eqb k' k then Some v else get d' k
  end.

(** [d[k] = v]: overwrite in place, or append a new entry. *)
Fixpoint set {V} (d : dict V) (k : Z) (v : V) : dict V :=
  match d with
  | [] => [(k, v)]
  | (k', v') :: d' =>
      if Z.eqb k' k then (k, v) :: d' else (k', v') :: set d' k v
  end.

End PyDict.

(** [range(n)] *)
Definition range (n : Z) : list Z := map Z.of_nat (seq 0 (Z.to_nat n)).

(** [len(l)] *)
Definition len {A} (l : list A) : Z := Z.of_nat (length l).

(** ** Sequencing of code that can raise *)

Definition result_bind {A B} (m : result A) (k : A -> result B) : result B :=
  match m with
  | Ok a => k a
  | Raise e => Raise e
  end.

Declare Scope result_scope.
Delimit Scope result_scope with res.
Notation "x <- m ;; k" := (result_bind m (fun x => k))
  (at level 61, m at next level, right associativity) : result_scope.
Notation "' pat <- m ;; k" :=
  (result_bind m (fun x => match x with pat => k end))
  (at level 61, pat pattern, m at next level, right associativity) : result_scope.

(** [for x in l: s = body(x, s)] *)
Fixpoint for_each {A S} (l : list A) (body : A -> S -> result S) (s : S)
  : result S :=
  match l with
  | [] => Ok s
  | x :: l' => (s' <- body x s ;; for_each l' body s')%res
  end.

(** [l[i]] on a list, negative indexes counting from the end. *)
Definition pyindex {A} (l : list A) (i : Z) : result A :=
  let j := (if i <? 0 then len l + i else i)%Z in
  if (j <? 0)%Z then Raise IndexError
  else match nth_error l (Z.to_nat j) with
       | Some x => Ok x
       | None => Raise IndexError
       end.

(** ** The [random] module

    The generator is an oracle of raw draws with a cursor; every run of the
    program corresponds to some oracle, so a statement for all oracles
    covers every outcome of the random calls. *)

Module Random.

Record rng : Type := { draws : nat -> N; cursor : nat }.

(** Code that uses [random] and can raise. *)
Definition M (A : Type) : Type := rng -> result (A * rng).

Definition ret {A} (a : A) : M A := fun g => Ok (a, g).

Definition bind {A B} (m : M A) (k : A -> M B) : M B :=
  fun g => match m g with
           | Ok (a, g') => k a g'
           | Raise e => Raise e
           end.

Definition lift {A} (r : result A) : M A :=
  fun g => match r with
           | Ok a => Ok (a, g)
           | Raise e => Raise e
           end.

Definition next_draw : M N :=
  fun g => Ok (draws g (cursor g),
               {| draws := draws g; cursor := S (cursor g) |}).

(** [random.randint(a, b)]: an integer of [a..b], ValueError when the
    range is empty. *)
Definition randint (a b : Z) : M Z :=
  if (b <? a)%Z then lift (Raise ValueError)
  else bind next_draw (fun n => ret (a + Z.of_N n mod (b - a + 1))%Z).

(** [random.choice(seq)]: IndexError on an empty sequence. *)
Definition choice {A} (seq : list A) : M A :=
  match seq with
  | [] => lift (Raise IndexError)
  | x :: _ =>
      bind next_draw (fun n => ret (nth (N.to_nat n mod length seq) seq x))
  end.

(** [random.random()]: a multiple of 2^-53 in [0, 1). *)
Definition random : M R :=
  bind next_draw
       (fun n => ret (IZR (Z.of_N n mod 2 ^ 53) / IZR (2 ^ 53))%R).

End Random.

(** The oracle whose every draw is 0. *)
Definition zero_draws : Random.rng :=
  {| Random.draws := fun _ => 0%N; Random.cursor := O |}.

Declare Scope rand_scope.
Delimit Scope rand_scope with rand.
Notation "x <- m ;; k" := (Random.bind m (fun x => k))
  (at level 61, m at next level, right associativity) : rand_scope.

(** [for x in l: s = body(x, s)], for a body that draws random numbers. *)
Fixpoint for_each_rand {A S} (l : list A) (body : A -> S -> Random.M S) (s : S)
  : Random.M S :=
  match l with
  | [] => Random.ret s
  | x :: l' => (s' <- body x s ;; for_each_rand l' body s')%rand
  end.

(** ** [task_scheduling.py]: class [DroneTaskScheduler] *)

Module TaskScheduling.
Import PyDict.

(** Positions of this class are pairs of Python ints: sensors sit on grid
    points, drones start at [randint] points and only ever move onto
    sensors. *)
Definition position : Type := (Z * Z)%type.

(** One entry of [assigned_tasks[drone_id]]. *)
Record Task : Type := {
  sensor : Z;
  time : R;
  distance : R
}.

Record DroneTaskScheduler : Type := {
  num_drones : Z;
  num_sensors : Z;
  drone_positions : dict position;
  sensor_positions : dict position;
  drone_battery : dict R;
  task_queue : list Z;
  assigned_tasks : dict (list Task)
}.

Definition with_sensor_positions (self : DroneTaskScheduler) sp :=
  {| num_drones := num_drones self; num_sensors := num_sensors self;
     drone_positions := drone_positions self; sensor_positions := sp;
     drone_battery := drone_battery self; task_queue := task_queue self;
     assigned_tasks := assigned_tasks self |}.

Definition with_drone_positions (self : DroneTaskScheduler) dp :=
  {| num_drones := num_drones self; num_sensors := num_sensors self;
     drone_positions := dp; sensor_positions := sensor_positions self;
     drone_battery := drone_battery self; task_queue := task_queue self;
     assigned_tasks := assigned_tasks self |}.

Definition with_drone_battery (self : DroneTaskScheduler) db :=
  {| num_drones := num_drones self; num_sensors := num_sensors self;
     drone_positions := drone_positions self;
     sensor_positions := sensor_positions self;
     drone_battery := db; task_queue := task_queue self;
     assigned_tasks := assigned_tasks self |}.

Definition with_assigned_tasks (self : DroneTaskScheduler) tasks :=
  {| num_drones := num_drones self; num_sensors := num_sensors self;
     drone_positions := drone_positions self;
     sensor_positions := sensor_positions self;
     drone_battery := drone_battery self; task_queue := task_queue self;
     assigned_tasks := tasks |}.

(** [int(math.sqrt(n))]: ValueError (math domain error) below zero,
    otherwise the floor of the square root (see [int_sqrt_floor] for the
    link with the real square root). *)
Definition int_sqrt (n : Z) : result Z :=
  if (n <? 0)%Z then Raise ValueError else Ok (Z.sqrt n).

(** The body of the sensor loops: one grid cell [(i, j)]. *)
Definition place_sensor (n_sensors i j : Z) (acc : dict position * Z)
  : dict position * Z :=
  let '(sp, sensor_idx) := acc in
  if (sensor_idx <? n_sensors)%Z
  then (set sp (100 + sensor_idx)%Z (i * 10, j * 10)%Z, (sensor_idx + 1)%Z)
  else acc.

(** [for i in range(grid_size): for j in range(grid_size): ...] *)
Definition place_sensors (grid_size n_sensors : Z) (sp : dict position)
  : dict position :=
  fst (fold_left
         (fun acc i =>
            fold_left (fun acc j => place_sensor n_sensors i j acc)
                      (range grid_size) acc)
         (range grid_size) (sp, 0%Z)).

(** The body of the drone loop. *)
Definition place_drone (grid_size i : Z) (self : DroneTaskScheduler)
  : Random.M DroneTaskScheduler :=
  let drone_id := (50 + i)%Z in
  (x <- Random.randint 0 (grid_size * 10) ;;
   y <- Random.randint 0 (grid_size * 10) ;;
   let self := with_drone_positions self
                 (set (drone_positions self) drone_id (x, y)) in
   Random.ret (with_drone_battery self
                 (set (drone_battery self) drone_id 100%R)))%rand.

Definition _initialize_positions (self : DroneTaskScheduler)
  : Random.M DroneTaskScheduler :=
  (root <- Random.lift (int_sqrt (num_sensors self)) ;;
   let grid_size := (root + 2)%Z in
   let self := with_sensor_positions self
                 (place_sensors grid_size (num_sensors self)
                                (sensor_positions self)) in
   for_each_rand (range (num_drones self)) (place_drone grid_size) self)%rand.

(** [DroneTaskScheduler(num_drones, num_sensors)] *)
Definition __init__ (n_drones n_sensors : Z) : Random.M DroneTaskScheduler :=
  _initialize_positions
    {| num_drones := n_drones; num_sensors := n_sensors;
       drone_positions := []; sensor_positions := [];
       drone_battery := []; task_queue := []; assigned_tasks := [] |}.

Definition calculate_distance (pos1 pos2 : position) : R :=
  sqrt (IZR ((fst pos1 - fst pos2) ^ 2 + (snd pos1 - snd pos2) ^ 2)).

(** The running minimum [min_cost], which starts at [float('inf')]. *)
Inductive bound : Type :=
| Inf
| Fin (c : R).

(** [cost < min_cost] *)
Definition below (cost : R) (min_cost : bound) : bool :=
  match min_cost with
  | Inf => true
  | Fin m => Rltb cost m
  end.

(** The loop of [schedule_task] over [self.drone_positions.items()],
    carrying [best_drone] and [min_cost]. *)
Fixpoint select_best (self : DroneTaskScheduler) (sensor_pos : position)
         (items : list (Z * position))
         (best_drone : option Z) (min_cost : bound)
  : result (option Z * bound) :=
  match items with
  | [] => Ok (best_drone, min_cost)
  | (drone_id, drone_pos) :: rest =>
      let distance := calculate_distance drone_pos sensor_pos in
      match get (drone_battery self) drone_id with
      | None => Raise KeyError
      | Some battery =>
          let battery_penalty := ((100 - battery) * 0.5)%R in
          let cost := (distance + battery_penalty)%R in
          if Rltb 20 battery && below cost min_cost
          then select_best self sensor_pos rest (Some drone_id) (Fin cost)
          else select_best self sensor_pos rest best_drone min_cost
      end
  end.

(** Truth value of [best_drone] in [if best_drone:]: [None] and the
    integer 0 are false. *)
Definition truthy (best_drone : option Z) : bool :=
  match best_drone with
  | None => false
  | Some d => negb (d =? 0)%Z
  end.

(** [self.assigned_tasks[k]] on the [defaultdict(list)]. *)
Definition tasks_of (tasks : dict (list Task)) (k : Z) : list Task :=
  match get tasks k with
  | Some l => l
  | None => []
  end.

(** The assignment block of [schedule_task], for the selected drone. *)
Definition assign (self : DroneTaskScheduler) (sensor_id : Z)
           (sensor_pos : position) (current_time : R) (best_drone : Z)
  : result DroneTaskScheduler :=
  match get (drone_positions self) best_drone,
        get (drone_battery self) best_drone with
  | Some drone_pos, Some battery =>
      let task := {| sensor := sensor_id; time := current_time;
                     distance := calculate_distance drone_pos sensor_pos |} in
      let self := with_assigned_tasks self
                    (set (assigned_tasks self) best_drone
                         (tasks_of (assigned_tasks self) best_drone ++ [task])) in
      let self := with_drone_positions self
                    (set (drone_positions self) best_drone sensor_pos) in
      Ok (with_drone_battery self
            (set (drone_battery self) best_drone
                 (battery - py_min 5 battery)%R))
  | _, _ => Raise KeyError
  end.

(** [schedule_task(sensor_id, current_time)]: the returned drone id (or
    [None]) together with the state after the call. *)
Definition schedule_task (self : DroneTaskScheduler) (sensor_id : Z)
           (current_time : R)
  : result (option Z * DroneTaskScheduler) :=
  match get (sensor_positions self) sensor_id with
  | None => Ok (None, self)
  | Some sensor_pos =>
      (' (best_drone, _) <-
         select_best self sensor_pos (drone_positions self) None Inf ;;
       if truthy best_drone
       then match best_drone with
            | Some d =>
                self' <- assign self sensor_id sensor_pos current_time d ;;
                Ok (Some d, self')
            | None => Ok (None, self)
            end
       else Ok (None, self))%res
  end.

Definition recharge_drone (self : DroneTaskScheduler) (drone_id : Z)
  : DroneTaskScheduler :=
  match get (drone_battery self) drone_id with
  | Some battery =>
      with_drone_battery self
        (set (drone_battery self) drone_id (py_min 100 (battery + 20))%R)
  | None => self
  end.

(** The operations a caller can apply to a scheduler after its
    construction.  A call that raises leaves the state as it was. *)
Inductive operation : Type :=
| Schedule (sensor_id : Z) (current_time : R)
| Recharge (drone_id : Z).

Definition apply (self : DroneTaskScheduler) (op : operation)
  : DroneTaskScheduler :=
  match op with
  | Schedule sensor_id current_time =>
      match schedule_task self sensor_id current_time with
      | Ok (_, self') => self'
      | Raise _ => self
      end
  | Recharge drone_id => recharge_drone self drone_id
  end.

Definition run (self : DroneTaskScheduler) (ops : list operation)
  : DroneTaskScheduler :=
  fold_left apply ops self.

End TaskScheduling.

(** ** [YAFS_simulation.py]: class [TaskScheduler] (the batch optimizer) *)

Module BatchOptimizer.
Import PyDict.

(** An element of [drone_positions] or [sensor_positions]: the tuple
    [(x, y, node_id)]. *)
Definition node : Type := (R * R * string)%type.

(** [(pos[0], pos[1])] *)
Definition xy (pos : node) : R * R := (fst (fst pos), snd (fst pos)).

(** [pos[2]] *)
Definition node_id (pos : node) : string := snd pos.

(** [==] on the tuples. *)
Definition node_eq_dec (a b : node) : {a = b} + {a <> b}.
Proof.
  decide equality; [apply string_dec | decide equality; apply Req_dec_T].
Defined.

(** [sensor in sensors] *)
Definition contains (sensors : list node) (sensor : node) : bool :=
  if in_dec node_eq_dec sensor sensors then true else false.

(** A candidate: [{drone_idx: [sensor, ...]}]. *)
Definition assignment : Type := dict (list node).

Definition calculate_distance (pos1 pos2 : R * R) : R :=
  sqrt ((fst pos1 - fst pos2) ^ 2 + (snd pos1 - snd pos2) ^ 2).

(** [{i: [] for i in range(n)}] *)
Definition empty_assignment (n : Z) : assignment :=
  map (fun i => (i, [])) (range n).

(** [assignment[k].append(sensor)] *)
Definition append_to (a : assignment) (k : Z) (sensor : node)
  : result assignment :=
  match get a k with
  | Some sensors => Ok (set a k (sensors ++ [sensor]))
  | None => Raise KeyError
  end.

(** The builtin [min] of a list: the first of the smallest elements,
    ValueError on an empty list. *)
Fixpoint min_from (m : R) (l : list R) : R :=
  match l with
  | [] => m
  | x :: l' => min_from (if Rltb x m then x else m) l'
  end.

Definition py_min_list (l : list R) : result R :=
  match l with
  | [] => Raise ValueError
  | x :: l' => Ok (min_from x l')
  end.

(** [l.index(v)], counted from [i]: ValueError when [v] is absent. *)
Fixpoint index_from (i : Z) (l : list R) (v : R) : result Z :=
  match l with
  | [] => Raise ValueError
  | x :: l' => if Req_dec_T x v then Ok i else index_from (i + 1) l' v
  end.

Definition index (l : list R) (v : R) : result Z := index_from 0 l v.

(** The body of the sensor loop of the nearest-centroid partition. *)
Definition assign_nearest (centroids : list (R * R)) (sensor : node)
           (assignments : assignment) : result assignment :=
  let distances :=
    map (fun centroid => calculate_distance centroid (xy sensor)) centroids in
  (m <- py_min_list distances ;;
   closest_drone <- index distances m ;;
   append_to assignments closest_drone sensor)%res.

Definition k_means_clustering_assignment
           (drone_positions sensor_positions : list node)
  : result assignment :=
  let centroids := map xy drone_positions in
  let assignments := empty_assignment (len centroids) in
  for_each sensor_positions (assign_nearest centroids) assignments.

(** *** Genetic search *)

Definition population_size : nat := 50.
Definition generations : nat := 100.
Definition mutation_rate : R := 0.1%R.

(** One random candidate of the initial population. *)
Definition random_assignment (drone_positions sensor_positions : list node)
  : Random.M assignment :=
  for_each_rand sensor_positions
    (fun sensor assignment =>
       (drone_idx <- Random.randint 0 (len drone_positions - 1) ;;
        Random.lift (append_to assignment drone_idx sensor))%rand)
    (empty_assignment (len drone_positions)).

(** [for _ in range(n): population.append(make())] *)
Fixpoint populate (n : nat) (make : Random.M assignment)
         (population : list assignment) : Random.M (list assignment) :=
  match n with
  | O => Random.ret population
  | S n' =>
      (a <- make ;; populate n' make (population ++ [a]))%rand
  end.

Definition sum (l : list R) : R := fold_left Rplus l 0%R.

(** [np.var]: the population variance. *)
Definition np_var (l : list R) : R :=
  let n := INR (length l) in
  let mean := (sum l / n)%R in
  (sum (map (fun x => (x - mean) ^ 2) l) / n)%R.

(** The inner loop of [fitness]. *)
Definition drone_distance_of (drone_positions : list node) (drone_idx : Z)
           (sensors : list node) : result R :=
  for_each sensors
    (fun sensor drone_distance =>
       (drone_pos <- pyindex drone_positions drone_idx ;;
        Ok (drone_distance
            + calculate_distance (xy drone_pos) (xy sensor))%R)%res)
    0%R.

Definition fitness (drone_positions : list node) (a : assignment)
  : result R :=
  (' (total_distance, distances) <-
     for_each a
       (fun '(drone_idx, sensors) '(total_distance, distances) =>
          (drone_distance <-
             drone_distance_of drone_positions drone_idx sensors ;;
           Ok ((total_distance + drone_distance)%R,
               distances ++ [drone_distance]))%res)
       (0%R, []) ;;
   let load_variance :=
     match distances with
     | [] => 0%R
     | _ => np_var distances
     end in
   Ok (1 / (total_distance + load_variance + 1))%R)%res.

(** [[(a, fitness(a)) for a in population]] *)
Fixpoint fitness_scores (drone_positions : list node)
         (population : list assignment) : result (list (assignment * R)) :=
  match population with
  | [] => Ok []
  | a :: rest =>
      (f <- fitness drone_positions a ;;
       scores <- fitness_scores drone_positions rest ;;
       Ok ((a, f) :: scores))%res
  end.

(** [l.sort(key=key, reverse=True)]: descending, elements of equal key
    in their original order. *)
Fixpoint insert_desc {A} (key : A -> R) (x : A) (l : list A) : list A :=
  match l with
  | [] => [x]
  | y :: l' =>
      if Rltb (key x) (key y) then y :: insert_desc key x l' else x :: l
  end.

Definition sort_desc {A} (key : A -> R) (l : list A) : list A :=
  fold_right (insert_desc key) [] l.

(** The drone whose list holds [sensor], scanning [parent.items()]. *)
Fixpoint find_owner (items : assignment) (sensor : node) : option Z :=
  match items with
  | [] => None
  | (drone_idx, sensors) :: rest =>
      if contains sensors sensor then Some drone_idx
      else find_owner rest sensor
  end.

(** The body of the crossover loop. *)
Definition inherit (parent1 parent2 : assignment) (sensor : node)
           (child : assignment) : Random.M assignment :=
  (r <- Random.random ;;
   let parent := if Rltb r 0.5 then parent1 else parent2 in
   match find_owner parent sensor with
   | Some drone_idx => Random.lift (append_to child drone_idx sensor)
   | None => Random.ret child
   end)%rand.

(** [sensors.remove(sensor)], guarded by [sensor in sensors]. *)
Fixpoint remove_first (sensor : node) (sensors : list node) : list node :=
  match sensors with
  | [] => []
  | s :: rest =>
      if node_eq_dec s sensor then rest else s :: remove_first sensor rest
  end.

(** The removal loop of the mutation, over [child.items()]. *)
Fixpoint remove_from_owner (items : assignment) (sensor : node) : assignment :=
  match items with
  | [] => []
  | (drone_idx, sensors) :: rest =>
      if contains sensors sensor
      then (drone_idx, remove_first sensor sensors) :: rest
      else (drone_idx, sensors) :: remove_from_owner rest sensor
  end.

Definition mutate (drone_positions sensor_positions : list node)
           (child : assignment) : Random.M assignment :=
  (r <- Random.random ;;
   if Rltb r mutation_rate
   then
     sensor_to_move <- Random.choice sensor_positions ;;
     let child := remove_from_owner child sensor_to_move in
     new_drone <- Random.randint 0 (len drone_positions - 1) ;;
     Random.lift (append_to child new_drone sensor_to_move)
   else Random.ret child)%rand.

(** One turn of the [while] loop: two parents, crossover, mutation. *)
Definition breed (drone_positions sensor_positions : list node)
           (survivors : list assignment) : Random.M assignment :=
  (parent1 <- Random.choice survivors ;;
   parent2 <- Random.choice survivors ;;
   child <- for_each_rand sensor_positions (inherit parent1 parent2)
              (empty_assignment (len drone_positions)) ;;
   mutate drone_positions sensor_positions child)%rand.

(** [while len(new_population) < population_size: ...]. Every turn appends
    one child, so [population_size] turns are enough; [fuel] bounds the
    turns and is never used up (see [wp_refill]). *)
Fixpoint refill (fuel : nat) (make : Random.M assignment)
         (new_population : list assignment) : Random.M (list assignment) :=
  if (length new_population <? population_size)%nat
  then match fuel with
       | O => Random.ret new_population
       | S fuel' =>
           (child <- make ;;
            refill fuel' make (new_population ++ [child]))%rand
       end
  else Random.ret new_population.

(** The body of the generation loop. *)
Definition next_generation (drone_positions sensor_positions : list node)
           (population : list assignment) : Random.M (list assignment) :=
  (scores <- Random.lift (fitness_scores drone_positions population) ;;
   let scores := sort_desc snd scores in
   let survivors := map fst (firstn (population_size / 2) scores) in
   let new_population := survivors in
   refill population_size
          (breed drone_positions sensor_positions survivors)
          new_population)%rand.

(** [for generation in range(n): population = ...] *)
Fixpoint evolve (n : nat) (drone_positions sensor_positions : list node)
         (population : list assignment) : Random.M (list assignment) :=
  match n with
  | O => Random.ret population
  | S n' =>
      (population' <-
         next_generation drone_positions sensor_positions population ;;
       evolve n' drone_positions sensor_positions population')%rand
  end.

Definition initial_population (drone_positions sensor_positions : list node)
  : Random.M (list assignment) :=
  populate population_size
           (random_assignment drone_positions sensor_positions) [].

(** [final_fitness.sort(...); return final_fitness[0][0]] *)
Definition best_of (drone_positions : list node)
           (population : list assignment) : result assignment :=
  (final_fitness <- fitness_scores drone_positions population ;;
   ' (a, _) <- pyindex (sort_desc snd final_fitness) 0 ;;
   Ok a)%res.

Definition genetic_algorithm_optimization
           (drone_positions sensor_positions : list node)
  : Random.M assignment :=
  (population <- initial_population drone_positions sensor_positions ;;
   population <-
     evolve generations drone_positions sensor_positions population ;;
   Random.lift (best_of drone_positions population))%rand.

(** One dictionary of [schedule]. *)
Record entry : Type := {
  drone_id : Z;
  sensor_id : string;
  distance : R;
  collection_time : R;
  energy_cost : R
}.

(** The inner loop of [generate_schedule]. *)
Definition schedule_sensor (drone_positions : list node) (drone_idx : Z)
           (sensor : node) (schedule : list entry) : result (list entry) :=
  (drone_pos <- pyindex drone_positions drone_idx ;;
   let distance := calculate_distance (xy drone_pos) (xy sensor) in
   Ok (schedule ++
       [{| drone_id := drone_idx;
           sensor_id := node_id sensor;
           distance := distance;
           collection_time := (distance / 10 + 2)%R;
           energy_cost := (distance * 0.1 + 5)%R |}]))%res.

Definition schedule_of (drone_positions : list node)
           (assignments : assignment) : result (list entry) :=
  for_each assignments
    (fun '(drone_idx, sensors) schedule =>
       for_each sensors (schedule_sensor drone_positions drone_idx) schedule)
    [].

Definition generate_schedule (drone_positions sensor_positions : list node)
           (algorithm : string) : Random.M (list entry * assignment) :=
  (assignments <-
     (if String.eqb algorithm "genetic"
      then genetic_algorithm_optimization drone_positions sensor_positions
      else Random.lift (k_means_clustering_assignment
                          drone_positions sensor_positions)) ;;
   schedule <- Random.lift (schedule_of drone_positions assignments) ;;
   Random.ret (schedule, assignments))%rand.

End BatchOptimizer.

(** ** The distance of the specification *)

(** The Euclidean distance between two points of the plane: the square
    root of the sum of the squares of the coordinate differences. It is
    written from these words and not from the code; the two
    [calculate_distance] of the code are compared with it. *)
Definition euclidean_distance (p q : R * R) : R :=
  sqrt (Rsqr (fst p - fst q) + Rsqr (snd p - snd q)).

(** ** Vocabulary of the statements about [DroneTaskScheduler] *)

Module TaskSchedulingSpec.
Import PyDict TaskScheduling.

(** A grid position as a point of the plane. *)
Definition point (p : position) : R * R := (IZR (fst p), IZR (snd p)).

(** The cost of the specification for a drone at [drone_pos] with charge
    [battery] and a sensor at [sensor_pos]:
    [euclidean_distance + (100 - battery) * 0.5]. *)
Definition euclidean_cost (sensor_pos drone_pos : position) (battery : R)
  : R :=
  (euclidean_distance (point drone_pos) (point sensor_pos)
   + (100 - battery) * 0.5)%R.

(** The cost [schedule_task] gives a drone at [drone_pos] with charge
    [battery] for a sensor at [sensor_pos]. *)
Definition cost (sensor_pos drone_pos : position) (battery : R) : R :=
  (calculate_distance drone_pos sensor_pos + (100 - battery) * 0.5)%R.

(** The entry [item] of [drone_positions] is above the operating
    threshold and has cost [c]. *)
Definition eligible (self : DroneTaskScheduler) (sensor_pos : position)
           (item : Z * position) (c : R) : Prop :=
  exists battery,
    get (drone_battery self) (fst item) = Some battery /\
    (20 < battery)%R /\
    c = cost sensor_pos (snd item) battery.

(** What every registry built by [__init__] and changed only through
    [schedule_task] and [recharge_drone] satisfies: drone ids are the
    keys of a dict, none of them is 0 (they start at 50), and every
    drone has a battery entry. *)
Record registry_ok (self : DroneTaskScheduler) : Prop := {
  ok_unique : NoDup (keys (drone_positions self));
  ok_nonzero : forall d, In d (keys (drone_positions self)) -> d <> 0%Z;
  ok_battery : forall d, In d (keys (drone_positions self)) ->
                         exists b, get (drone_battery self) d = Some b
}.

(** The registry after drone [d], which stood at [drone_pos] with charge
    [battery], has been assigned the sensor [sensor_id] at [sensor_pos]
    at time [t]: one more task for [d], [d] moved onto the sensor, its
    battery drained, everything else as before. *)
Definition after_assignment (self : DroneTaskScheduler) (sensor_id : Z)
           (sensor_pos : position) (t : R) (d : Z) (drone_pos : position)
           (battery : R) : DroneTaskScheduler :=
  {| num_drones := num_drones self;
     num_sensors := num_sensors self;
     drone_positions := set (drone_positions self) d sensor_pos;
     sensor_positions := sensor_positions self;
     drone_battery :=
       set (drone_battery self) d (battery - Rmin 5 battery)%R;
     task_queue := task_queue self;
     assigned_tasks :=
       set (assigned_tasks self) d
           (tasks_of (assigned_tasks self) d ++
            [{| sensor := sensor_id; time := t;
                distance := calculate_distance drone_pos sensor_pos |}]) |}.

(** Every battery level lies in [0, 100]. *)
Definition batteries_bounded (self : DroneTaskScheduler) : Prop :=
  forall d b, get (drone_battery self) d = Some b -> (0 <= b <= 100)%R.

(** The least integer whose square reaches [n]: the ceiling of the
    square root, as the specification words the grid size. *)
Definition ceil_sqrt (n : Z) : Z :=
  let r := Z.sqrt n in if (r * r =? n)%Z then r else (r + 1)%Z.

(** The grid cell of the [k]-th sensor on a grid of [grid_size] cells
    per axis, filled row by row. *)
Definition grid_position (grid_size k : Z) : position :=
  ((k / grid_size) * 10, (k mod grid_size) * 10)%Z.

(** The sensor table that fills the first [n] cells of that grid, with
    ids from 100. *)
Definition sensor_grid (grid_size n : Z) : dict position :=
  map (fun k => ((100 + k)%Z, grid_position grid_size k)) (range n).

(** The registry that [__init__] builds. *)
Record initialized (n_drones n_sensors grid_size : Z)
       (self : DroneTaskScheduler) : Prop := {
  init_num_drones : num_drones self = n_drones;
  init_num_sensors : num_sensors self = n_sensors;
  init_sensors : sensor_positions self = sensor_grid grid_size n_sensors;
  init_drone_ids :
    keys (drone_positions self) = map (fun i => (50 + i)%Z) (range n_drones);
  init_drone_box :
    forall d x y, get (drone_positions self) d = Some (x, y) ->
                  (0 <= x <= grid_size * 10)%Z /\
                  (0 <= y <= grid_size * 10)%Z;
  init_battery :
    drone_battery self = map (fun i => ((50 + i)%Z, 100%R)) (range n_drones);
  init_queue : task_queue self = [];
  init_tasks : assigned_tasks self = []
}.

(** The scenario of two drones at (0,0) and (100,0), both fully charged,
    and a sensor at (5,0). *)
Definition two_drones : DroneTaskScheduler :=
  {| num_drones := 2; num_sensors := 1;
     drone_positions := [(50, (0, 0)); (51, (100, 0))]%Z;
     sensor_positions := [(100, (5, 0))]%Z;
     drone_battery := [(50%Z, 100%R); (51%Z, 100%R)];
     task_queue := [];
     assigned_tasks := [] |}.

(** The scenario of two fully charged drones of which the second in
    iteration order, at (0,0), is closer to the sensor at (5,0) than the
    first, at (100,0). *)
Definition far_drone_first : DroneTaskScheduler :=
  {| num_drones := 2; num_sensors := 1;
     drone_positions := [(50, (100, 0)); (51, (0, 0))]%Z;
     sensor_positions := [(100, (5, 0))]%Z;
     drone_battery := [(50%Z, 100%R); (51%Z, 100%R)];
     task_queue := [];
     assigned_tasks := [] |}.

(** The scenario of a single drone whose battery is at 15. *)
Definition low_battery_drone : DroneTaskScheduler :=
  {| num_drones := 1; num_sensors := 1;
     drone_positions := [(50, (0, 0))]%Z;
     sensor_positions := [(100, (0, 0))]%Z;
     drone_battery := [(50%Z, 15%R)];
     task_queue := [];
     assigned_tasks := [] |}.

End TaskSchedulingSpec.

(** ** Vocabulary of the statements about the batch optimizer *)

(** The outcome of code that can raise: [Q] on a returned value, [E] on a
    raised exception. *)
Definition post {A} (r : result A) (Q : A -> Prop) (E : pyerror -> Prop)
  : Prop :=
  match r with
  | Ok a => Q a
  | Raise e => E e
  end.

(** The same for code that draws random numbers, on every oracle. *)
Definition wp {A} (m : Random.M A) (Q : A -> Prop) (E : pyerror -> Prop)
  : Prop :=
  forall g, post (m g) (fun ag => Q (fst ag)) E.

Module BatchOptimizerSpec.
Import PyDict BatchOptimizer.

(** All the sensors a candidate holds, drone by drone. *)
Definition all_sensors (a : assignment) : list node := concat (map snd a).

(** [a] has one list per drone index [0..n-1] and its lists hold the
    elements of [sensors], each as often as [sensors] does. *)
Definition partitions (n : Z) (sensors : list node) (a : assignment) : Prop :=
  keys a = range n /\ Permutation (all_sensors a) sensors.

(** Drone [k] holds [sensor] in [a]. *)
Definition holds (a : assignment) (k : Z) (sensor : node) : Prop :=
  exists sensors, get a k = Some sensors /\ In sensor sensors.

(** [sensor] is in the list of exactly one drone of [a], once. *)
Definition held_once (a : assignment) (sensor : node) : Prop :=
  count_occ node_eq_dec (all_sensors a) sensor = 1%nat /\
  exists k, holds a k sensor /\ forall k', holds a k' sensor -> k' = k.

(** Drone [k] is the nearest to [sensor]: no drone is closer, and every
    drone of a lower index is strictly farther. *)
Definition nearest (drone_positions : list node) (sensor : node) (k : Z)
  : Prop :=
  exists pos_k,
    (0 <= k)%Z /\ nth_error drone_positions (Z.to_nat k) = Some pos_k /\
    forall j pos_j,
      nth_error drone_positions j = Some pos_j ->
      (calculate_distance (xy pos_k) (xy sensor)
       <= calculate_distance (xy pos_j) (xy sensor))%R /\
      ((j < Z.to_nat k)%nat ->
       (calculate_distance (xy pos_k) (xy sensor)
        < calculate_distance (xy pos_j) (xy sensor))%R).

(** Drone [k] minimizes the Euclidean distance to [sensor]: no drone is
    closer, and every drone of a lower index is strictly farther. *)
Definition euclidean_nearest (drone_positions : list node) (sensor : node)
           (k : Z) : Prop :=
  exists pos_k,
    (0 <= k)%Z /\ nth_error drone_positions (Z.to_nat k) = Some pos_k /\
    forall j pos_j,
      nth_error drone_positions j = Some pos_j ->
      (euclidean_distance (xy pos_k) (xy sensor)
       <= euclidean_distance (xy pos_j) (xy sensor))%R /\
      ((j < Z.to_nat k)%nat ->
       (euclidean_distance (xy pos_k) (xy sensor)
        < euclidean_distance (xy pos_j) (xy sensor))%R).

(** [e] is the schedule entry of a sensor that [a] gives to drone
    [drone_id e], with the cost figures of [generate_schedule]. *)
Definition entry_of (drone_positions : list node) (a : assignment)
           (e : entry) : Prop :=
  exists sensors sensor drone_pos,
    In (drone_id e, sensors) a /\ In sensor sensors /\
    pyindex drone_positions (drone_id e) = Ok drone_pos /\
    sensor_id e = node_id sensor /\
    distance e = calculate_distance (xy drone_pos) (xy sensor) /\
    collection_time e = (distance e / 10 + 2)%R /\
    energy_cost e = (distance e * 0.1 + 5)%R.

(** The scenario of one drone at (0,0) and three sensors at (10,0),
    (0,10) and (10,10). *)
Definition one_drone : list node := [(0%R, 0%R, "drone_0"%string)].

Definition three_sensors : list node :=
  [(10%R, 0%R, "soil_sensor_0"%string);
   (0%R, 10%R, "soil_sensor_1"%string);
   (10%R, 10%R, "soil_sensor_2"%string)].

(** The scenario of two drones at (0,0) and (10,0) and two sensors, the
    first at (9,0) next to the second drone, the second at (1,0) next to
    the first drone. *)
Definition two_bases : list node :=
  [(0%R, 0%R, "drone_0"%string); (10%R, 0%R, "drone_1"%string)].

Definition sensor_east : node := (9%R, 0%R, "soil_sensor_0"%string).

Definition sensor_west : node := (1%R, 0%R, "soil_sensor_1"%string).

Definition two_sensors : list node := [sensor_east; sensor_west].

(** The schedule of the one-drone scenario. *)
Definition one_drone_entries : list entry :=
  map (fun sensor =>
         let d := calculate_distance (0%R, 0%R) (xy sensor) in
         {| drone_id := 0; sensor_id := node_id sensor; distance := d;
            collection_time := (d / 10 + 2)%R;
            energy_cost := (d * 0.1 + 5)%R |})
      three_sensors.

(** [b] does not come before [a] in descending order of [key]. *)
Definition desc {A} (key : A -> R) (a b : A) : Prop := (key b <= key a)%R.

(** [f] is the greatest fitness of a candidate of [population]. *)
Definition best_fitness (drone_positions : list node)
           (population : list assignment) (f : R) : Prop :=
  (exists a, In a population /\ fitness drone_positions a = Ok f) /\
  forall a f', In a population -> fitness drone_positions a = Ok f' ->
               (f' <= f)%R.

(** The population after [k] turns of the generation loop. *)
Definition population_after (k : nat) (drone_positions sensor_positions : list node)
  : Random.M (list assignment) :=
  (population <- initial_population drone_positions sensor_positions ;;
   evolve k drone_positions sensor_positions population)%rand.

(** The exceptions the genetic search can raise: ValueError from
    [randint(0, -1)] when there is a sensor but no drone, IndexError from
    [random.choice([])] when there is no sensor. *)
Definition genetic_error (drone_positions sensor_positions : list node)
           (e : pyerror) : Prop :=
  (e = ValueError /\ drone_positions = [] /\ sensor_positions <> []) \/
  (e = IndexError /\ sensor_positions = []).

End BatchOptimizerSpec.

(** ** Vocabulary of the statements about runs of the registry *)

Module RegistryRuns.
Import PyDict TaskScheduling.

(** [k] calls of [recharge_drone(drone_id)] in a row. *)
Definition recharges (k : nat) (self : DroneTaskScheduler) (drone_id : Z)
  : DroneTaskScheduler :=
  Nat.iter k (fun s => recharge_drone s drone_id) self.

(** A battery level that is a multiple of 5 between 20 and 100. *)
Definition level_of_five (b : R) : Prop :=
  exists k : Z, (4 <= k <= 20)%Z /\ b = IZR (5 * k).

(** The history [tasks] leads from [start] to [final]: every task names a
    known sensor, records the distance from where the drone stood to that
    sensor, and leaves the drone on it. *)
Fixpoint follows (sensors : dict position) (start : position)
         (tasks : list Task) (final : position) : Prop :=
  match tasks with
  | [] => final = start
  | t :: rest =>
      exists sensor_pos,
        get sensors (sensor t) = Some sensor_pos /\
        distance t = calculate_distance start sensor_pos /\
        follows sensors sensor_pos rest final
  end.

(** The number of task records of all drones. *)
Definition total_tasks (self : DroneTaskScheduler) : nat :=
  length (concat (map snd (assigned_tasks self))).

(** The number of [schedule_task] calls of [ops] that return a drone, when
    [ops] is applied to [self]. *)
Fixpoint served (self : DroneTaskScheduler) (ops : list operation) : nat :=
  match ops with
  | [] => O
  | op :: rest =>
      (match op with
       | Schedule sensor_id current_time =>
           match schedule_task self sensor_id current_time with
           | Ok (Some _, _) => 1
           | _ => 0
           end
       | Recharge _ => 0
       end + served (apply self op) rest)%nat
  end.

End RegistryRuns.

(** ** Vocabulary of the statements about whole schedules *)

Module BatchRuns.
Import PyDict BatchOptimizer BatchOptimizerSpec.

(** The (drone index, sensor) pairs of a candidate, in the order in which
    [generate_schedule] visits them. *)
Definition pairs (a : assignment) : list (Z * node) :=
  flat_map (fun '(drone_idx, sensors) => map (pair drone_idx) sensors) a.

(** [e] is the entry that [generate_schedule] appends for the pair [p]. *)
Definition entry_for (drone_positions : list node) (e : entry)
           (p : Z * node) : Prop :=
  exists drone_pos,
    pyindex drone_positions (fst p) = Ok drone_pos /\
    e = {| drone_id := fst p;
           sensor_id := node_id (snd p);
           distance := calculate_distance (xy drone_pos) (xy (snd p));
           collection_time :=
             (calculate_distance (xy drone_pos) (xy (snd p)) / 10 + 2)%R;
           energy_cost :=
             (calculate_distance (xy drone_pos) (xy (snd p)) * 0.1 + 5)%R |}.

(** The distance all drones of a schedule travel together. *)
Definition total_distance (schedule : list entry) : R :=
  sum (map distance schedule).

(** The distance from [sensor] to the drone closest to it. *)
Definition nearest_distance (drone_positions : list node) (sensor : node)
  : R :=
  match map (fun centroid => calculate_distance centroid (xy sensor))
            (map xy drone_positions) with
  | [] => 0%R
  | x :: l => min_from x l
  end.

(** The value of the [k]-th next call of [random.random()] when no other
    draw comes in between. *)
Definition nth_random (g : Random.rng) (k : nat) : R :=
  (IZR (Z.of_N (Random.draws g (k + Random.cursor g)) mod 2 ^ 53)
   / IZR (2 ^ 53))%R.

End BatchRuns.

(** ** [YAFS_simulation.py]: class [AgricultureTopology] *)

Module Topology.
Import BatchOptimizer.

(** [str(i)] of an int, as an f-string formats it. *)
Definition str (i : Z) : string := NilEmpty.string_of_int (Z.to_int i).

(** A dictionary with string keys, in insertion order. *)
Definition sdict (V : Type) : Type := list (string * V).

Definition skeys {V} (d : sdict V) : list string := map fst d.

(** [d[k] = v] *)
Fixpoint sset {V} (d : sdict V) (k : string) (v : V) : sdict V :=
  match d with
  | [] => [(k, v)]
  | (k', v') :: d' =>
      if String.eqb k' k then (k, v) :: d' else (k', v') :: sset d' k v
  end.

(** The attributes of a node; the coordinates are ints for the fixed
    nodes and the sensors and floats for the drones. *)
Record attributes : Type := {
  type : string;
  IPT : Z;
  RAM : Z;
  STORAGE : Z;
  coordinates : R * R
}.

(** The attributes of an edge. *)
Record link : Type := { BW : Z; PR : Z }.

Definition edge : Type := (string * string * link)%type.

Record AgricultureTopology : Type := {
  num_sensors : Z;
  num_drones : Z;
  nodes : sdict attributes;
  edges : list edge;
  sensor_positions : list node;
  drone_positions : list node
}.

Definition with_nodes (self : AgricultureTopology) nd :=
  {| num_sensors := num_sensors self; num_drones := num_drones self;
     nodes := nd; edges := edges self;
     sensor_positions := sensor_positions self;
     drone_positions := drone_positions self |}.

Definition with_edges (self : AgricultureTopology) ed :=
  {| num_sensors := num_sensors self; num_drones := num_drones self;
     nodes := nodes self; edges := ed;
     sensor_positions := sensor_positions self;
     drone_positions := drone_positions self |}.

Definition with_sensor_positions (self : AgricultureTopology) sp :=
  {| num_sensors := num_sensors self; num_drones := num_drones self;
     nodes := nodes self; edges := edges self;
     sensor_positions := sp;
     drone_positions := drone_positions self |}.

Definition with_drone_positions (self : AgricultureTopology) dp :=
  {| num_sensors := num_sensors self; num_drones := num_drones self;
     nodes := nodes self; edges := edges self;
     sensor_positions := sensor_positions self;
     drone_positions := dp |}.

(** [AgricultureTopology(num_sensors, num_drones)] *)
Definition __init__ (n_sensors n_drones : Z) : AgricultureTopology :=
  {| num_sensors := n_sensors; num_drones := n_drones;
     nodes := []; edges := []; sensor_positions := [];
     drone_positions := [] |}.

Definition cloud_id : string := "cloud_server".
Definition fog_id : string := "mec_server".
Definition gateway_id : string := "lorawan_gateway".

(** [self.nodes[k] = v] and [self.edges.append((u, v, att))] *)
Definition add_node (self : AgricultureTopology) (k : string)
           (v : attributes) : AgricultureTopology :=
  with_nodes self (sset (nodes self) k v).

Definition add_edge (self : AgricultureTopology) (u v : string)
           (att : link) : AgricultureTopology :=
  with_edges self (edges self ++ [(u, v, att)]).

(** [int(np.sqrt(n))]: [np.sqrt] of a negative number is nan, which [int]
    refuses with ValueError; otherwise the floor of the square root. *)
Definition int_sqrt (n : Z) : result Z :=
  if (n <? 0)%Z then Raise ValueError else Ok (Z.sqrt n).

(** [random.uniform(a, b)], which is [a + (b - a) * random()]. Over the
    reals the result is below [b]; the rounded product of a double can
    reach [b], so the statements about [uniform] that are meant of the
    floats use the closed range. *)
Definition uniform (a b : R) : Random.M R :=
  (r <- Random.random ;; Random.ret (a + (b - a) * r)%R)%rand.

(** The body of the sensor loop; [%] and [//] are only evaluated here,
    where [grid_size] is positive because a sensor exists. *)
Definition add_sensor (grid_size : Z) (st : AgricultureTopology * list string)
           (i : Z) : AgricultureTopology * list string :=
  let '(self, sensor_ids) := st in
  let x := ((i mod grid_size) * 20 - 40)%Z in
  let y := ((i / grid_size) * 20 - 40)%Z in
  let sensor_id := String.append "soil_sensor_" (str i) in
  let self := add_node self sensor_id
                {| type := "sensor"; IPT := 1; RAM := 64; STORAGE := 128;
                   coordinates := (IZR x, IZR y) |} in
  let sensor_ids := sensor_ids ++ [sensor_id] in
  let self := with_sensor_positions self
                (sensor_positions self ++ [(IZR x, IZR y, sensor_id)]) in
  let self := add_edge self sensor_id gateway_id {| BW := 1; PR := 100 |} in
  let self := add_edge self gateway_id sensor_id {| BW := 1; PR := 100 |} in
  (self, sensor_ids).

(** The body of the drone loop. *)
Definition add_drone (i : Z) (st : AgricultureTopology * list string)
  : Random.M (AgricultureTopology * list string) :=
  let '(self, drone_ids) := st in
  (x <- uniform (-60) 60 ;;
   y <- uniform (-60) 60 ;;
   let drone_id := String.append "drone_" (str i) in
   let self := add_node self drone_id
                 {| type := "drone"; IPT := 100; RAM := 4000;
                    STORAGE := 10000; coordinates := (x, y) |} in
   let drone_ids := drone_ids ++ [drone_id] in
   let self := with_drone_positions self
                 (drone_positions self ++ [(x, y, drone_id)]) in
   let self := add_edge self drone_id fog_id {| BW := 50; PR := 50 |} in
   let self := add_edge self fog_id drone_id {| BW := 50; PR := 50 |} in
   Random.ret (self, drone_ids))%rand.

(** [create_topology]: the updated object with [sensor_ids] and
    [drone_ids]; the other components of the returned tuple are
    [self.nodes], [self.edges] and the three fixed ids. *)
Definition create_topology (self : AgricultureTopology)
  : Random.M (AgricultureTopology * list string * list string) :=
  let self := add_node self cloud_id
                {| type := "cloud"; IPT := 1000; RAM := 32000;
                   STORAGE := 100000; coordinates := (0, 100)%R |} in
  let self := add_node self fog_id
                {| type := "fog"; IPT := 500; RAM := 16000;
                   STORAGE := 50000; coordinates := (0, 50)%R |} in
  let self := add_edge self cloud_id fog_id {| BW := 1000; PR := 10 |} in
  let self := add_edge self fog_id cloud_id {| BW := 1000; PR := 10 |} in
  let self := add_node self gateway_id
                {| type := "gateway"; IPT := 50; RAM := 1000;
                   STORAGE := 5000; coordinates := (0, 25)%R |} in
  let self := add_edge self gateway_id fog_id {| BW := 100; PR := 20 |} in
  let self := add_edge self fog_id gateway_id {| BW := 100; PR := 20 |} in
  (grid_size <- Random.lift (int_sqrt (num_sensors self)) ;;
   let '(self, sensor_ids) :=
     fold_left (add_sensor grid_size) (range (num_sensors self)) (self, []) in
   st <- for_each_rand (range (num_drones self)) add_drone (self, []) ;;
   let '(self, drone_ids) := st in
   Random.ret (self, sensor_ids, drone_ids))%rand.

End Topology.

(** ** Vocabulary of the statements about the topology *)

Module TopologySpec.
Import BatchOptimizer Topology.

Definition sensor_name (i : Z) : string := String.append "soil_sensor_" (str i).

Definition drone_name (i : Z) : string := String.append "drone_" (str i).

(** The tuple of [sensor_positions] for sensor [i] on a grid of width
    [grid_size]. *)
Definition sensor_at (grid_size i : Z) : node :=
  (IZR ((i mod grid_size) * 20 - 40), IZR ((i / grid_size) * 20 - 40),
   sensor_name i).

(** The two directions of a connection. *)
Definition both_ways (u v : string) (att : link) : list edge :=
  [(u, v, att); (v, u, att)].

Definition fixed_edges : list edge :=
  both_ways cloud_id fog_id {| BW := 1000; PR := 10 |}
  ++ both_ways gateway_id fog_id {| BW := 100; PR := 20 |}.

Definition sensor_edges (ids : list string) : list edge :=
  flat_map (fun id => both_ways id gateway_id {| BW := 1; PR := 100 |}) ids.

Definition drone_edges (ids : list string) : list edge :=
  flat_map (fun id => both_ways id fog_id {| BW := 50; PR := 50 |}) ids.

Definition fixed_nodes : sdict attributes :=
  [(cloud_id, {| type := "cloud"; IPT := 1000; RAM := 32000;
                 STORAGE := 100000; coordinates := (0, 100)%R |});
   (fog_id, {| type := "fog"; IPT := 500; RAM := 16000;
               STORAGE := 50000; coordinates := (0, 50)%R |});
   (gateway_id, {| type := "gateway"; IPT := 50; RAM := 1000;
                   STORAGE := 5000; coordinates := (0, 25)%R |})].

(** The entry of [nodes] for sensor [i], and for a drone tuple. *)
Definition sensor_node (grid_size i : Z) : string * attributes :=
  (sensor_name i,
   {| type := "sensor"; IPT := 1; RAM := 64; STORAGE := 128;
      coordinates := xy (sensor_at grid_size i) |}).

Definition drone_node (p : node) : string * attributes :=
  (node_id p,
   {| type := "drone"; IPT := 100; RAM := 4000; STORAGE := 10000;
      coordinates := xy p |}).

(** The object after the fixed part of [create_topology]. *)
Definition fixed_part (n_sensors n_drones : Z) : AgricultureTopology :=
  {| num_sensors := n_sensors; num_drones := n_drones;
     nodes := fixed_nodes; edges := fixed_edges;
     sensor_positions := []; drone_positions := [] |}.

(** A drone tuple lies in the square where [create_topology] drops the
    drones. *)
Definition in_field (p : node) : Prop :=
  (-60 <= fst (xy p) < 60)%R /\ (-60 <= snd (xy p) < 60)%R.

End TopologySpec.

(** ** [YAFS_simulation.py]: class [SimulationLogger] and [run_simulation] *)

Module Simulation.
Import PyDict BatchOptimizer Topology.

(** The values that the rows of the logs hold. *)
Inductive value : Type :=
| Int (z : Z)
| Float (x : R)
| Str (s : string).

(** One logged dictionary, with its keys in insertion order. *)
Definition row : Type := list (string * value).

Record SimulationLogger : Type := {
  messages : list row;
  node_metrics : list row;
  task_assignments : list row;
  energy_consumption : list row;
  network_performance : list row;
  latency_analysis : list row
}.

(** [SimulationLogger()] *)
Definition new_logger : SimulationLogger :=
  {| messages := []; node_metrics := []; task_assignments := [];
     energy_consumption := []; network_performance := [];
     latency_analysis := [] |}.

Definition log_message (self : SimulationLogger) (time : Z)
           (src dst : string) (message_size : Z) (latency : R)
           (message_type : string) : SimulationLogger :=
  {| messages :=
       messages self ++
       [[("timestamp", Int time); ("source", Str src);
         ("destination", Str dst); ("message_size", Int message_size);
         ("latency", Float latency); ("message_type", Str message_type)]
        %string];
     node_metrics := node_metrics self;
     task_assignments := task_assignments self;
     energy_consumption := energy_consumption self;
     network_performance := network_performance self;
     latency_analysis := latency_analysis self |}.

Definition log_node_metrics (self : SimulationLogger) (time : Z)
           (node_id : string) (cpu_usage ram_usage network_usage : R)
           (node_type : string) : SimulationLogger :=
  {| messages := messages self;
     node_metrics :=
       node_metrics self ++
       [[("timestamp", Int time); ("node_id", Str node_id);
         ("node_type", Str node_type); ("cpu_usage", Float cpu_usage);
         ("ram_usage", Float ram_usage);
         ("network_usage", Float network_usage)]%string];
     task_assignments := task_assignments self;
     energy_consumption := energy_consumption self;
     network_performance := network_performance self;
     latency_analysis := latency_analysis self |}.

Definition log_task_assignment (self : SimulationLogger) (drone_id : Z)
           (sensor_id : string) (distance collection_time energy_cost : R)
  : SimulationLogger :=
  {| messages := messages self;
     node_metrics := node_metrics self;
     task_assignments :=
       task_assignments self ++
       [[("drone_id", Int drone_id); ("sensor_id", Str sensor_id);
         ("distance", Float distance);
         ("collection_time", Float collection_time);
         ("energy_cost", Float energy_cost)]%string];
     energy_consumption := energy_consumption self;
     network_performance := network_performance self;
     latency_analysis := latency_analysis self |}.

Definition log_energy_consumption (self : SimulationLogger) (time : Z)
           (node_id : string) (energy_consumed total_energy battery_level : R)
  : SimulationLogger :=
  {| messages := messages self;
     node_metrics := node_metrics self;
     task_assignments := task_assignments self;
     energy_consumption :=
       energy_consumption self ++
       [[("timestamp", Int time); ("node_id", Str node_id);
         ("energy_consumed", Float energy_consumed);
         ("total_energy", Float total_energy);
         ("battery_level", Float battery_level)]%string];
     network_performance := network_performance self;
     latency_analysis := latency_analysis self |}.

Definition log_network_performance (self : SimulationLogger) (time : Z)
           (link : string) (throughput packet_loss jitter : R)
  : SimulationLogger :=
  {| messages := messages self;
     node_metrics := node_metrics self;
     task_assignments := task_assignments self;
     energy_consumption := energy_consumption self;
     network_performance :=
       network_performance self ++
       [[("timestamp", Int time); ("link", Str link);
         ("throughput", Float throughput);
         ("packet_loss", Float packet_loss); ("jitter", Float jitter)]
        %string];
     latency_analysis := latency_analysis self |}.

Definition log_latency_analysis (self : SimulationLogger) (time : Z)
           (operation : string)
           (end_to_end_latency processing_time transmission_time : R)
  : SimulationLogger :=
  {| messages := messages self;
     node_metrics := node_metrics self;
     task_assignments := task_assignments self;
     energy_consumption := energy_consumption self;
     network_performance := network_performance self;
     latency_analysis :=
       latency_analysis self ++
       [[("timestamp", Int time); ("operation", Str operation);
         ("end_to_end_latency", Float end_to_end_latency);
         ("processing_time", Float processing_time);
         ("transmission_time", Float transmission_time)]%string] |}.

(** *** [run_simulation] *)

Definition NUM_SENSORS : Z := 12.
Definition NUM_DRONES : Z := 3.
Definition SIMULATION_TIME : Z := 1000.
Definition TIME_STEP : Z := 10.

(** [enumerate(l)] *)
Definition enumerate {A} (l : list A) : list (Z * A) :=
  combine (range (len l)) l.

(** [d[k]] with its KeyError, and [d.get(k, default)]. *)
Definition getitem {V} (d : dict V) (k : Z) : result V :=
  match get d k with
  | Some v => Ok v
  | None => Raise KeyError
  end.

Definition get_default {V} (d : dict V) (k : Z) (default : V) : V :=
  match get d k with
  | Some v => v
  | None => default
  end.

(** What the simulation loop updates. *)
Record state : Type := {
  logger : SimulationLogger;
  drone_energy : dict R
}.

(** The body of the loop over the sensors of drone [i]. The sums of
    latencies are sums of reals here; the sums of doubles are rounded,
    and depend on the order of the additions. *)
Definition collect (simulation_time i : Z) (sensor : node) (st : state)
  : Random.M state :=
  (sensor_data_size <- Random.randint 50 200 ;;
   sensor_latency <- uniform 10 50 ;;
   let logger :=
     log_message (logger st) simulation_time (node_id sensor)
                 (String.append "drone_" (str i))
                 sensor_data_size sensor_latency "sensor_data" in
   image_size <- Random.randint 2000 8000 ;;
   capture_time <- uniform 1 3 ;;
   let aggregated_size := (sensor_data_size + image_size)%Z in
   processing_time <- uniform 2 8 ;;
   fog_latency <- uniform 20 80 ;;
   let logger :=
     log_message logger simulation_time (String.append "drone_" (str i))
                 "mec_server" aggregated_size fog_latency
                 "aggregated_data" in
   let end_to_end_latency :=
     (sensor_latency + processing_time + fog_latency)%R in
   let logger :=
     log_latency_analysis logger simulation_time
       (String.append "sensor_to_cloud_via_drone_" (str i))
       end_to_end_latency processing_time
       (sensor_latency + fog_latency)%R in
   energy_consumed <- uniform 5 15 ;;
   energy <- Random.lift (getitem (drone_energy st) i) ;;
   let drone_energy :=
     set (drone_energy st) i (energy - energy_consumed)%R in
   let battery_level := ((energy - energy_consumed) / 1000 * 100)%R in
   let logger :=
     log_energy_consumption logger simulation_time
       (String.append "drone_" (str i)) energy_consumed
       (energy - energy_consumed)%R battery_level in
   Random.ret {| logger := logger; drone_energy := drone_energy |})%rand.

(** The body of the first loop over [enumerate(drone_ids)]. *)
Definition collect_all (simulation_time : Z) (assignments : assignment)
           (drone : Z * string) (st : state) : Random.M state :=
  let assigned_sensors := get_default assignments (fst drone) [] in
  for_each_rand assigned_sensors (collect simulation_time (fst drone)) st.

Definition with_logger (st : state) (l : SimulationLogger) : state :=
  {| logger := l; drone_energy := drone_energy st |}.

(** Fog to cloud. *)
Definition report (simulation_time : Z) (st : state) : Random.M state :=
  (cloud_message_size <- Random.randint 1000 5000 ;;
   cloud_latency <- uniform 50 150 ;;
   Random.ret
     (with_logger st
        (log_message (logger st) simulation_time "mec_server"
                     "cloud_server" cloud_message_size cloud_latency
                     "analytics_data")))%rand.

Definition node_types : list (string * string) :=
  [("cloud_server", "cloud"); ("mec_server", "fog");
   ("lorawan_gateway", "gateway")]%string.

(** Three draws and one row of [node_metrics]. *)
Definition measure (simulation_time : Z) (node_id node_type : string)
           (cpu ram network : R * R) (st : state) : Random.M state :=
  (cpu_usage <- uniform (fst cpu) (snd cpu) ;;
   ram_usage <- uniform (fst ram) (snd ram) ;;
   network_usage <- uniform (fst network) (snd network) ;;
   Random.ret
     (with_logger st
        (log_node_metrics (logger st) simulation_time node_id cpu_usage
                          ram_usage network_usage node_type)))%rand.

Definition measure_fixed (simulation_time : Z) (entry : string * string)
           (st : state) : Random.M state :=
  let '(node_id, node_type) := entry in
  if String.eqb node_type "cloud"
  then measure simulation_time node_id node_type
               (10, 40)%R (5000, 15000)%R (30, 80)%R st
  else if String.eqb node_type "fog"
  then measure simulation_time node_id node_type
               (30, 70)%R (2000, 8000)%R (20, 60)%R st
  else measure simulation_time node_id node_type
               (15, 45)%R (200, 600)%R (10, 30)%R st.

Definition measure_drone (simulation_time : Z) (drone : Z * string)
           (st : state) : Random.M state :=
  measure simulation_time (String.append "drone_" (str (fst drone))) "drone"
          (20, 80)%R (1000, 3000)%R (10, 40)%R st.

Definition measure_sensor (simulation_time : Z) (sensor : Z * string)
           (st : state) : Random.M state :=
  measure simulation_time (snd sensor) "sensor"
          (5, 20)%R (20, 60)%R (1, 5)%R st.

Definition links : list (string * string) :=
  [("sensors", "gateway"); ("gateway", "fog"); ("drones", "fog");
   ("fog", "cloud")]%string.

(** Three draws and one row of [network_performance]. *)
Definition probe (simulation_time : Z) (link : string * string)
           (throughput packet_loss jitter : R * R) (st : state)
  : Random.M state :=
  (t <- uniform (fst throughput) (snd throughput) ;;
   p <- uniform (fst packet_loss) (snd packet_loss) ;;
   j <- uniform (fst jitter) (snd jitter) ;;
   Random.ret
     (with_logger st
        (log_network_performance
           (logger st) simulation_time
           (String.append (fst link) (String.append "_to_" (snd link)))
           t p j)))%rand.

Definition probe_link (simulation_time : Z) (link : string * string)
           (st : state) : Random.M state :=
  if String.eqb (fst link) "sensors"
  then probe simulation_time link (0.5, 2.0)%R (0, 5)%R (10, 50)%R st
  else if String.eqb (fst link) "drones"
  then probe simulation_time link (20, 50)%R (0, 2)%R (5, 20)%R st
  else probe simulation_time link (50, 200)%R (0, 1)%R (1, 10)%R st.

(** One turn of the [while] loop, up to the increment of the clock. *)
Definition step (assignments : assignment) (sensor_ids drone_ids : list string)
           (simulation_time : Z) (st : state) : Random.M state :=
  (st <- for_each_rand (enumerate drone_ids)
           (collect_all simulation_time assignments) st ;;
   st <- report simulation_time st ;;
   st <- for_each_rand node_types (measure_fixed simulation_time) st ;;
   st <- for_each_rand (enumerate drone_ids)
           (measure_drone simulation_time) st ;;
   st <- for_each_rand (enumerate sensor_ids)
           (measure_sensor simulation_time) st ;;
   for_each_rand links (probe_link simulation_time) st)%rand.

(** [while simulation_time < SIMULATION_TIME: ...;
    simulation_time += TIME_STEP]. The clock advances by [TIME_STEP] every
    turn, so [SIMULATION_TIME / TIME_STEP] turns are enough; [fuel]
    bounds the turns, and the clock is returned to show where the loop
    stopped. *)
Fixpoint simulate (fuel : nat) (assignments : assignment)
         (sensor_ids drone_ids : list string) (simulation_time : Z)
         (st : state) : Random.M (Z * state) :=
  if (simulation_time <? SIMULATION_TIME)%Z
  then match fuel with
       | O => Random.ret (simulation_time, st)
       | S fuel' =>
           (st <- step assignments sensor_ids drone_ids simulation_time st ;;
            simulate fuel' assignments sensor_ids drone_ids
                     (simulation_time + TIME_STEP)%Z st)%rand
       end
  else Random.ret (simulation_time, st).

(** What [run_simulation] holds when the loop is over and before it
    writes the files and prints the summary. *)
Record outcome : Type := {
  topo_builder : AgricultureTopology;
  schedule : list entry;
  assignments : assignment;
  final_logger : SimulationLogger;
  final_energy : dict R;
  final_time : Z
}.

(** The logging loop over the schedule. *)
Definition log_tasks (schedule : list entry) (logger : SimulationLogger)
  : SimulationLogger :=
  fold_left
    (fun logger task =>
       log_task_assignment logger (drone_id task) (sensor_id task)
                           (distance task) (collection_time task)
                           (energy_cost task))
    schedule logger.

(** The body of [run_simulation] with its two configuration constants as
    arguments. *)
Definition simulation (num_sensors num_drones : Z) : Random.M outcome :=
  (built <- create_topology (Topology.__init__ num_sensors num_drones) ;;
   let '(topo_builder, sensor_ids, drone_ids) := built in
   planned <- generate_schedule (Topology.drone_positions topo_builder)
                                (Topology.sensor_positions topo_builder)
                                "genetic" ;;
   let '(schedule, assignments) := planned in
   let simulation_time := 0%Z in
   final <- simulate (Z.to_nat (SIMULATION_TIME / TIME_STEP)) assignments
                     sensor_ids drone_ids simulation_time
                     {| logger := log_tasks schedule new_logger;
                        drone_energy :=
                          map (fun i => (i, 1000%R)) (range num_drones) |} ;;
   Random.ret {| topo_builder := topo_builder; schedule := schedule;
                 assignments := assignments;
                 final_logger := logger (snd final);
                 final_energy := drone_energy (snd final);
                 final_time := fst final |})%rand.

Definition run_simulation : Random.M outcome :=
  simulation NUM_SENSORS NUM_DRONES.

End Simulation.

(** ** Vocabulary of the statements about the simulation *)

Module SimulationSpec.
Import PyDict BatchOptimizer Topology Simulation.

(** The row that [log_task_assignment] writes for a task of the
    schedule. *)
Definition task_row (task : entry) : row :=
  [("drone_id", Int (drone_id task)); ("sensor_id", Str (sensor_id task));
   ("distance", Float (distance task));
   ("collection_time", Float (collection_time task));
   ("energy_cost", Float (energy_cost task))]%string.

(** The number of sensors that [assignments] gives to drone [i]. *)
Definition load (a : assignment) (i : Z) : nat :=
  length (get_default a i []).

(** [l'] is [l] with that many more rows in each log, the task log
    untouched. *)
Definition grown (m nm e np la : nat) (l l' : SimulationLogger) : Prop :=
  length (messages l') = (length (messages l) + m)%nat /\
  length (node_metrics l') = (length (node_metrics l) + nm)%nat /\
  task_assignments l' = task_assignments l /\
  length (energy_consumption l') = (length (energy_consumption l) + e)%nat /\
  length (network_performance l')
  = (length (network_performance l) + np)%nat /\
  length (latency_analysis l') = (length (latency_analysis l) + la)%nat.

(** [d'] is [d] after drone [j] has paid for [c j] collections, each
    between 5 and 15 units. *)
Definition drained (c : Z -> nat) (d d' : dict R) : Prop :=
  keys d' = keys d /\
  forall j e, get d j = Some e ->
              exists e', get d' j = Some e' /\
                         (e - 15 * INR (c j) <= e' <= e - 5 * INR (c j))%R.

Definition advanced (c : Z -> nat) (m nm e np la : nat) (st st' : state)
  : Prop :=
  grown m nm e np la (logger st) (logger st') /\
  drained c (drone_energy st) (drone_energy st').

(** The number of turns of the simulation loop. *)
Definition turns : nat := 100.

(** The collections of drone [j] in one turn, and of all drones, when the
    drones are numbered [0 .. n - 1]. *)
Definition step_drain (a : assignment) (n : Z) (j : Z) : nat :=
  list_sum (map (fun i => if (j =? i)%Z then load a i else O) (range n)).

Definition total_load (a : assignment) (n : Z) : nat :=
  list_sum (map (load a) (range n)).

(** The state in which the simulation loop starts. *)
Definition initial_state (schedule : list entry) (num_drones : Z) : state :=
  {| logger := log_tasks schedule new_logger;
     drone_energy := map (fun i => (i, 1000%R)) (range num_drones) |}.

(** A time at which the simulation loop runs a turn. *)
Definition turn_time (t : Z) : Prop :=
  (0 <= t < SIMULATION_TIME)%Z /\ (t mod TIME_STEP = 0)%Z.

(** The rows that the loop writes: their keys, the turn they belong to
    and the ranges of their figures. The ranges are closed: a figure
    drawn by [uniform(a, b)] lies between [a] and [b], both included,
    and a sum of such figures between the sums of the ends; nothing is
    said that depends on the sums of floats being exact. *)
Definition message_ok (r : row) : Prop :=
  exists t src dst size latency ty,
    r = [("timestamp", Int t); ("source", Str src);
         ("destination", Str dst); ("message_size", Int size);
         ("latency", Float latency); ("message_type", Str ty)]%string /\
    turn_time t /\ (50 <= size <= 8200)%Z /\ (10 <= latency <= 150)%R.

Definition metric_ok (r : row) : Prop :=
  exists t id ty cpu ram network,
    r = [("timestamp", Int t); ("node_id", Str id);
         ("node_type", Str ty); ("cpu_usage", Float cpu);
         ("ram_usage", Float ram); ("network_usage", Float network)]%string /\
    turn_time t /\
    (5 <= cpu <= 80)%R /\ (20 <= ram <= 15000)%R /\
    (1 <= network <= 80)%R.

Definition energy_ok (r : row) : Prop :=
  exists t id consumed total level,
    r = [("timestamp", Int t); ("node_id", Str id);
         ("energy_consumed", Float consumed);
         ("total_energy", Float total);
         ("battery_level", Float level)]%string /\
    turn_time t /\ (5 <= consumed <= 15)%R /\
    level = (total / 1000 * 100)%R.

Definition network_ok (r : row) : Prop :=
  exists t link throughput loss jitter,
    r = [("timestamp", Int t); ("link", Str link);
         ("throughput", Float throughput);
         ("packet_loss", Float loss); ("jitter", Float jitter)]%string /\
    turn_time t /\
    (0.5 <= throughput <= 200)%R /\ (0 <= loss <= 5)%R /\
    (1 <= jitter <= 50)%R.

Definition latency_ok (r : row) : Prop :=
  exists t op total processing transmission,
    r = [("timestamp", Int t); ("operation", Str op);
         ("end_to_end_latency", Float total);
         ("processing_time", Float processing);
         ("transmission_time", Float transmission)]%string /\
    turn_time t /\ (32 <= total <= 138)%R /\
    (2 <= processing <= 8)%R /\ (30 <= transmission <= 130)%R /\
    (processing <= total)%R /\ (transmission <= total)%R.

Definition sound (l : SimulationLogger) : Prop :=
  Forall message_ok (messages l) /\
  Forall metric_ok (node_metrics l) /\
  Forall energy_ok (energy_consumption l) /\
  Forall network_ok (network_performance l) /\
  Forall latency_ok (latency_analysis l).

End SimulationSpec.
Lemma Rltb_true (x y : R) : Rltb x y = true <-> (x < y)%R.
Proof. unfold Rltb. destruct (Rlt_dec x y); split; intros; try easy. Qed.

Lemma Rltb_false (x y : R) : Rltb x y = false <-> (y <= x)%R.
Proof.
  unfold Rltb. destruct (Rlt_dec x y); split; intros; try easy; lra.
Qed.

Lemma Rltb_true_intro (x y : R) : (x < y)%R -> Rltb x y = true.
Proof. apply Rltb_true. Qed.

Lemma Rltb_false_intro (x y : R) : (y <= x)%R -> Rltb x y = false.
Proof. apply Rltb_false. Qed.

(** Decide the comparisons of closed real expressions in the goal. *)
Ltac Rltb_eval :=
  repeat match goal with
         | |- context [Rltb ?a ?b] =>
             first [ rewrite (Rltb_true_intro a b) by lra
                   | rewrite (Rltb_false_intro a b) by lra ]
         end.

Lemma py_min_Rmin (a b : R) : py_min a b = Rmin a b.
Proof.
  unfold py_min, Rmin, Rltb.
  destruct (Rlt_dec b a), (Rle_dec a b); try lra; reflexivity.
Qed.

(** The distance of the specification is the non-negative number whose
    square is the sum of the squared coordinate differences. *)
Lemma euclidean_distance_square (p q : R * R) :
  (0 <= euclidean_distance p q)%R /\
  (euclidean_distance p q * euclidean_distance p q
   = (fst p - fst q) * (fst p - fst q) + (snd p - snd q) * (snd p - snd q))%R.
Proof.
  unfold euclidean_distance. split; [apply sqrt_pos|].
  rewrite sqrt_sqrt; [reflexivity|].
  apply Rplus_le_le_0_compat; apply Rle_0_sqr.
Qed.

(** Two points on a horizontal line. *)
Lemma euclidean_horizontal (x1 x2 y : R) :
  euclidean_distance (x1, y) (x2, y) = Rabs (x1 - x2).
Proof.
  unfold euclidean_distance. cbn [fst snd].
  replace (y - y)%R with 0%R by lra. rewrite Rsqr_0, Rplus_0_r.
  apply sqrt_Rsqr_abs.
Qed.


Module PyDictFacts.
Import PyDict.

Lemma get_set_same {V} (d : dict V) k v : get (set d k v) k = Some v.
Proof.
  induction d as [|[k' v'] d IH]; simpl.
  - now rewrite Z.eqb_refl.
  - destruct (Z.eqb k' k) eqn:E; simpl.
    + now rewrite Z.eqb_refl.
    + now rewrite E.
Qed.

Lemma get_set_other {V} (d : dict V) k k' v :
  k' <> k -> get (set d k v) k' = get d k'.
Proof.
  intros Hne. induction d as [|[k0 v0] d IH]; simpl.
  - destruct (Z.eqb k k') eqn:E; [apply Z.eqb_eq in E; congruence | reflexivity].
  - destruct (Z.eqb k0 k) eqn:E; simpl.
    + apply Z.eqb_eq in E; subst k0.
      destruct (Z.eqb k k') eqn:E'; [apply Z.eqb_eq in E'; congruence | reflexivity].
    + destruct (Z.eqb k0 k'); [reflexivity | exact IH].
Qed.

Lemma get_in_keys {V} (d : dict V) k :
  In k (keys d) <-> exists v, get d k = Some v.
Proof.
  induction d as [|[k' v'] d IH]; simpl.
  - split; [easy | intros [v H]; discriminate].
  - destruct (Z.eqb k' k) eqn:E.
    + apply Z.eqb_eq in E. split; [eauto | auto].
    + apply Z.eqb_neq in E. rewrite <- IH. tauto.
Qed.

Lemma get_In {V} (d : dict V) k v : get d k = Some v -> In (k, v) d.
Proof.
  induction d as [|[k' v'] d IH]; simpl; [discriminate|].
  destruct (Z.eqb k' k) eqn:E.
  - apply Z.eqb_eq in E. intros [= ->]. left. now subst.
  - auto.
Qed.

Lemma In_get {V} (d : dict V) k v :
  NoDup (keys d) -> In (k, v) d -> get d k = Some v.
Proof.
  induction d as [|[k' v'] d IH]; simpl; [easy|].
  intros Hnd [H | H].
  - inversion H; subst. now rewrite Z.eqb_refl.
  - inversion Hnd as [|? ? Hnotin Hnd']; subst.
    destruct (Z.eqb k' k) eqn:E.
    + apply Z.eqb_eq in E; subst k'. exfalso. apply Hnotin.
      change k with (fst (k, v)). now apply in_map.
    + now apply IH.
Qed.

(** Assigning to a key that is present keeps the iteration order. *)
Lemma keys_set_present {V} (d : dict V) k v :
  In k (keys d) -> keys (set d k v) = keys d.
Proof.
  induction d as [|[k' v'] d IH]; simpl; [easy|].
  intros H. destruct (Z.eqb k' k) eqn:E; simpl.
  - apply Z.eqb_eq in E. now subst.
  - apply Z.eqb_neq in E. f_equal. apply IH. tauto.
Qed.

Lemma keys_set_absent {V} (d : dict V) k v :
  ~ In k (keys d) -> set d k v = d ++ [(k, v)].
Proof.
  induction d as [|[k' v'] d IH]; simpl; [easy|].
  intros H. destruct (Z.eqb k' k) eqn:E.
  - apply Z.eqb_eq in E. tauto.
  - f_equal. apply IH. tauto.
Qed.

Lemma in_keys_set {V} (d : dict V) k v k' :
  In k' (keys (set d k v)) <-> k' = k \/ In k' (keys d).
Proof.
  rewrite !get_in_keys. destruct (Z.eq_dec k' k) as [->|Hne].
  - rewrite get_set_same. split; eauto.
  - rewrite get_set_other by assumption. split; [eauto | intros [?|?]; tauto].
Qed.

End PyDictFacts.

(** ** Ranges and loop invariants *)

Lemma range_length (n : Z) : length (range n) = Z.to_nat n.
Proof. unfold range. now rewrite length_map, length_seq. Qed.

Lemma range_nth (n : Z) (i : nat) (x : Z) :
  nth_error (range n) i = Some x -> x = Z.of_nat i /\ (Z.of_nat i < n)%Z.
Proof.
  unfold range. intros H.
  rewrite nth_error_map in H.
  destruct (nth_error (seq 0 (Z.to_nat n)) i) as [k|] eqn:E; [|discriminate].
  assert (Hlt : (i < Z.to_nat n)%nat).
  { rewrite <- (length_seq (Z.to_nat n) 0). apply nth_error_Some. congruence. }
  rewrite nth_error_nth' with (d := O) in E by (now rewrite length_seq).
  rewrite seq_nth in E by assumption. simpl in E, H.
  inversion E; subst k. inversion H. split; [reflexivity | lia].
Qed.

Lemma in_range (n x : Z) : In x (range n) <-> (0 <= x < n)%Z.
Proof.
  unfold range. rewrite in_map_iff. split.
  - intros (k & <- & Hk). apply in_seq in Hk. lia.
  - intros H. exists (Z.to_nat x). split; [lia | apply in_seq; lia].
Qed.

Lemma range_succ (n : Z) : (0 <= n)%Z -> range (n + 1) = range n ++ [n].
Proof.
  intros H. unfold range.
  replace (Z.to_nat (n + 1)) with (S (Z.to_nat n)) by lia.
  rewrite seq_S, map_app. simpl. now rewrite Z2Nat.id.
Qed.

Lemma NoDup_range (n : Z) : NoDup (range n).
Proof.
  unfold range. apply Injective_map_NoDup; [|apply seq_NoDup].
  intros a b. lia.
Qed.

(** A pure loop establishes [P (length l)] from [P 0] when every turn
    takes [P i] to [P (S i)]. *)
Lemma fold_left_inv {A S} (P : nat -> S -> Prop) (body : S -> A -> S) :
  forall (l : list A),
    (forall i x s, nth_error l i = Some x -> P i s -> P (Datatypes.S i) (body s x)) ->
    forall s, P O s -> P (length l) (fold_left body l s).
Proof.
  intros l. revert P.
  induction l as [|x l IH]; intros P Hstep s H0; simpl; [exact H0|].
  apply (IH (fun i => P (Datatypes.S i))).
  - intros i y s' Hy. apply (Hstep (Datatypes.S i)). exact Hy.
  - apply (Hstep O); [reflexivity | exact H0].
Qed.

(** The same for a loop whose body draws random numbers. *)
Lemma for_each_rand_inv {A S} (P : nat -> S -> Prop)
      (body : A -> S -> Random.M S) :
  forall (l : list A),
    (forall i x s g, nth_error l i = Some x -> P i s ->
                     exists s' g', body x s g = Ok (s', g') /\
                                   P (Datatypes.S i) s') ->
    forall s g, P O s ->
                exists s' g', for_each_rand l body s g = Ok (s', g') /\
                              P (length l) s'.
Proof.
  intros l. revert P.
  induction l as [|x l IH]; intros P Hstep s g H0; simpl.
  - exists s, g. split; [reflexivity | exact H0].
  - destruct (Hstep O x s g eq_refl H0) as (s1 & g1 & Hb & H1).
    unfold Random.bind. rewrite Hb.
    apply (IH (fun i => P (Datatypes.S i))); [|exact H1].
    intros i y s' g' Hy. apply (Hstep (Datatypes.S i)). exact Hy.
Qed.

(** Whatever the oracle, [randint(a, b)] with [a <= b] returns an integer
    of [a..b]. *)
Lemma randint_range (a b : Z) (g : Random.rng) :
  (a <= b)%Z ->
  exists x g', Random.randint a b g = Ok (x, g') /\ (a <= x <= b)%Z.
Proof.
  intros Hab. unfold Random.randint.
  destruct (b <? a)%Z eqn:E; [apply Z.ltb_lt in E; lia|].
  unfold Random.bind, Random.next_draw, Random.ret.
  eexists _, _. split; [reflexivity|].
  pose proof (Z.mod_pos_bound (Z.of_N (Random.draws g (Random.cursor g)))
                              (b - a + 1)).
  lia.
Qed.

(** * Properties of the online greedy scheduler *)

Module TaskSchedulingFacts.
Import PyDict PyDictFacts TaskScheduling TaskSchedulingSpec.

(** [calculate_distance] computes the Euclidean distance of the
    specification, and the cost of the loop is the cost of the
    specification. *)
Lemma calculate_distance_euclidean (pos1 pos2 : position) :
  calculate_distance pos1 pos2
  = euclidean_distance (point pos1) (point pos2).
Proof.
  unfold calculate_distance, euclidean_distance, point, Rsqr.
  cbn [fst snd]. f_equal.
  rewrite plus_IZR. change 2%Z with (Z.of_nat 2).
  rewrite <- !pow_IZR, !minus_IZR. ring.
Qed.

Lemma cost_euclidean (sensor_pos drone_pos : position) (battery : R) :
  cost sensor_pos drone_pos battery
  = euclidean_cost sensor_pos drone_pos battery.
Proof.
  unfold cost, euclidean_cost. now rewrite calculate_distance_euclidean.
Qed.

Lemma below_true (c : R) (m : bound) :
  below c m = true <-> match m with Inf => True | Fin x => (c < x)%R end.
Proof. destruct m; simpl; [tauto | apply Rltb_true]. Qed.

Lemma below_false (c : R) (m : bound) :
  below c m = false <-> match m with Inf => False | Fin x => (x <= c)%R end.
Proof. destruct m; simpl; [split; [discriminate | tauto] | apply Rltb_false]. Qed.

Lemma eligible_fun self sp item c c' :
  eligible self sp item c -> eligible self sp item c' -> c = c'.
Proof.
  intros (b & Hb & _ & ->) (b' & Hb' & _ & ->). congruence.
Qed.

(** The loop returns its accumulator when no eligible drone beats it, and
    otherwise the first eligible entry of least cost. *)
Lemma select_best_spec self sp items :
  forall best m best' m',
    select_best self sp items best m = Ok (best', m') ->
    (best' = best /\ m' = m /\
     forall it c, In it items -> eligible self sp it c -> below c m = false)
    \/
    (exists l1 d p l2 c,
        items = l1 ++ (d, p) :: l2 /\ best' = Some d /\ m' = Fin c /\
        eligible self sp (d, p) c /\ below c m = true /\
        (forall it c', In it l1 -> eligible self sp it c' -> (c < c')%R) /\
        (forall it c', In it l2 -> eligible self sp it c' -> (c <= c')%R)).
Proof.
  induction items as [|[d p] rest IH]; intros best m best' m' H; simpl in H.
  - inversion H; subst. left. repeat split. intros it c [].
  - destruct (get (drone_battery self) d) as [b|] eqn:Hb; [|discriminate].
    fold (cost sp p b) in H.
    destruct (Rltb 20 b && below (cost sp p b) m) eqn:Htest.
    + apply andb_true_iff in Htest as [Hb20 Hbelow].
      apply Rltb_true in Hb20.
      assert (Hel : eligible self sp (d, p) (cost sp p b))
        by (exists b; auto).
      apply IH in H as [(-> & -> & Hrest) | (l1 & d' & p' & l2 & c & -> & -> & -> & Hel' & Hc & Hl1 & Hl2)].
      * right. exists [], d, p, rest, (cost sp p b).
        repeat split; auto.
        -- intros it c' [].
        -- intros it c' Hin Hit. specialize (Hrest it c' Hin Hit).
           now apply Rltb_false in Hrest.
      * right. exists ((d, p) :: l1), d', p', l2, c.
        simpl in Hc. apply Rltb_true in Hc.
        repeat split; auto.
        -- apply below_true. apply below_true in Hbelow.
           destruct m; [exact I | lra].
        -- intros it c' [<- | Hin] Hit.
           ++ now rewrite <- (eligible_fun _ _ _ _ _ Hel Hit).
           ++ eauto.
    + apply IH in H as [(-> & -> & Hrest) | (l1 & d' & p' & l2 & c & -> & -> & -> & Hel' & Hc & Hl1 & Hl2)].
      * left. repeat split. intros it c [<- | Hin] Hit; [|eauto].
        destruct Hit as (b' & Hb' & Hb20 & ->). simpl in Hb'.
        rewrite Hb in Hb'. inversion Hb'; subst b'.
        apply Rltb_true in Hb20. rewrite Hb20 in Htest. exact Htest.
      * right. exists ((d, p) :: l1), d', p', l2, c.
        repeat split; auto.
        intros it c' [<- | Hin] Hit; [|eauto].
        destruct Hit as (b' & Hb' & Hb20 & ->). simpl in Hb', Hb20 |- *.
        rewrite Hb in Hb'. inversion Hb'; subst b'.
        apply Rltb_true in Hb20. rewrite Hb20 in Htest. simpl in Htest.
        apply below_true in Hc. apply below_false in Htest.
        destruct m; [contradiction | lra].
Qed.

Lemma select_best_total self sp items :
  (forall it, In it items ->
              exists b, get (drone_battery self) (fst it) = Some b) ->
  forall best m, exists best' m',
      select_best self sp items best m = Ok (best', m').
Proof.
  induction items as [|[d p] rest IH]; intros Hall best m; simpl.
  - eauto.
  - destruct (Hall (d, p) (or_introl eq_refl)) as [b Hb]. simpl in Hb.
    rewrite Hb.
    destruct (Rltb 20 b && _); apply IH; intros; apply Hall; now right.
Qed.

Lemma in_keys_items {V} (d : dict V) it : In it d -> In (fst it) (keys d).
Proof. intros H. now apply in_map. Qed.

(** What a call that returns has done. *)
Lemma schedule_task_inv self sid t r self' :
  schedule_task self sid t = Ok (r, self') ->
  (r = None /\ self' = self) \/
  (exists d sp l1 p l2 c p0 b,
      r = Some d /\ d <> 0%Z /\
      get (sensor_positions self) sid = Some sp /\
      drone_positions self = l1 ++ (d, p) :: l2 /\
      eligible self sp (d, p) c /\
      (forall it c', In it l1 -> eligible self sp it c' -> (c < c')%R) /\
      (forall it c', In it l2 -> eligible self sp it c' -> (c <= c')%R) /\
      get (drone_positions self) d = Some p0 /\
      get (drone_battery self) d = Some b /\
      self' = after_assignment self sid sp t d p0 b).
Proof.
  unfold schedule_task. intros H.
  destruct (get (sensor_positions self) sid) as [sp|] eqn:Hsp;
    [|inversion H; auto].
  destruct (select_best self sp (drone_positions self) None Inf)
    as [[best m]|e] eqn:Hsel; simpl in H; [|discriminate].
  destruct best as [d|]; simpl in H; [|inversion H; auto].
  destruct (d =? 0)%Z eqn:Hd0; simpl in H; [inversion H; auto|].
  apply Z.eqb_neq in Hd0.
  unfold assign in H.
  destruct (get (drone_positions self) d) as [p0|] eqn:Hp0;
    [|discriminate].
  destruct (get (drone_battery self) d) as [b|] eqn:Hb; [|discriminate].
  simpl in H. inversion H; subst r self'; clear H.
  apply select_best_spec in Hsel
      as [(Hnone & _) | (l1 & d' & p & l2 & c & Hitems & Hd & _ & Hel & _ & Hl1 & Hl2)];
    [discriminate|].
  inversion Hd; subst d'.
  right. exists d, sp, l1, p, l2, c, p0, b.
  repeat split; auto.
  unfold after_assignment, with_drone_battery, with_drone_positions,
    with_assigned_tasks; simpl.
  now rewrite py_min_Rmin.
Qed.

(** With a well-formed registry, a known sensor and an eligible drone,
    the call returns a drone. *)
Lemma schedule_task_selects self sid t sp :
  registry_ok self ->
  get (sensor_positions self) sid = Some sp ->
  (exists d b, In d (keys (drone_positions self)) /\
               get (drone_battery self) d = Some b /\ (20 < b)%R) ->
  exists d self', schedule_task self sid t = Ok (Some d, self').
Proof.
  intros Hok Hsp (d0 & b0 & Hin0 & Hb0 & H20).
  unfold schedule_task. rewrite Hsp.
  destruct (select_best_total self sp (drone_positions self)) with
    (best := @None Z) (m := Inf) as (best & m & Hsel).
  { intros it Hit. apply (ok_battery _ Hok). now apply in_keys_items. }
  rewrite Hsel. simpl.
  apply select_best_spec in Hsel
      as [(_ & _ & Hnone) | (l1 & d & p & l2 & c & Hitems & -> & _ & Hel & _)].
  - exfalso. apply get_in_keys in Hin0 as [p0 Hp0]. apply get_In in Hp0.
    specialize (Hnone (d0, p0) (cost sp p0 b0) Hp0).
    simpl in Hnone. discriminate Hnone. exists b0. auto.
  - assert (Hin : In (d, p) (drone_positions self))
      by (rewrite Hitems; apply in_elt).
    assert (Hd0 : d <> 0%Z)
      by (apply (ok_nonzero _ Hok); now apply in_keys_items in Hin).
    simpl. apply Z.eqb_neq in Hd0. rewrite Hd0. simpl.
    unfold assign. rewrite (In_get _ _ _ (ok_unique _ Hok) Hin).
    destruct Hel as (b & Hb & _). simpl in Hb. rewrite Hb. simpl. eauto.
Qed.

End TaskSchedulingFacts.

(** ** The effect and frame of [schedule_task] *)

Module OnlineScheduler.
Import PyDict PyDictFacts TaskScheduling TaskSchedulingSpec.
Import TaskSchedulingFacts.

Lemma sqrt_IZR_square (k : Z) : (0 <= k)%Z -> sqrt (IZR (k * k)) = IZR k.
Proof.
  intros Hk. rewrite mult_IZR. apply sqrt_square. now apply IZR_le.
Qed.

Lemma two_drones_schedule (t : R) :
  schedule_task two_drones 100 t =
  Ok (Some 50%Z, after_assignment two_drones 100 (5, 0)%Z t 50 (0, 0)%Z 100).
Proof.
  assert (H50 : calculate_distance (0, 0)%Z (5, 0)%Z = 5%R)
    by (unfold calculate_distance; simpl; apply (sqrt_IZR_square 5); lia).
  assert (H51 : calculate_distance (100, 0)%Z (5, 0)%Z = 95%R)
    by (unfold calculate_distance; simpl; apply (sqrt_IZR_square 95); lia).
  unfold schedule_task; simpl. rewrite H50, H51. Rltb_eval. simpl.
  unfold after_assignment, with_drone_battery, with_drone_positions,
    with_assigned_tasks; simpl.
  rewrite py_min_Rmin, H50. reflexivity.
Qed.

Lemma two_drones_ok : registry_ok two_drones.
Proof.
  split; simpl.
  - repeat constructor; simpl; intuition lia.
  - intros d [<- | [<- | []]]; lia.
  - intros d [<- | [<- | []]]; simpl; eauto.
Qed.

Lemma low_battery_drone_ok : registry_ok low_battery_drone.
Proof.
  split; simpl.
  - repeat constructor; simpl; intuition lia.
  - intros d [<- | []]; lia.
  - intros d [<- | []]; simpl; eauto.
Qed.

Lemma far_drone_first_ok : registry_ok far_drone_first.
Proof.
  split; simpl.
  - repeat constructor; simpl; intuition lia.
  - intros d [<- | [<- | []]]; lia.
  - intros d [<- | [<- | []]]; simpl; eauto.
Qed.

(** In that scenario only the second drone can have the least cost: its
    Euclidean distance to the sensor is 5, against 95 for the first. *)
Lemma far_drone_first_choice d sp l1 p l2 b :
  get (sensor_positions far_drone_first) 100 = Some sp ->
  drone_positions far_drone_first = l1 ++ (d, p) :: l2 ->
  get (drone_battery far_drone_first) d = Some b ->
  (forall j pos_j battery_j,
      In (j, pos_j) l2 ->
      get (drone_battery far_drone_first) j = Some battery_j ->
      (20 < battery_j)%R ->
      (euclidean_cost sp p b <= euclidean_cost sp pos_j battery_j)%R) ->
  d = 51%Z.
Proof.
  intros Hsp Hitems Hb Hl2. simpl in Hsp. inversion Hsp; subst sp.
  simpl in Hitems. destruct l1 as [|x [|y l1]].
  - simpl in Hitems. inversion Hitems; subst d p l2.
    simpl in Hb. inversion Hb; subst b.
    specialize (Hl2 51%Z (0, 0)%Z 100%R (or_introl eq_refl) eq_refl).
    unfold euclidean_cost, point in Hl2. cbn [fst snd] in Hl2.
    rewrite !euclidean_horizontal in Hl2.
    rewrite (Rabs_right (100 - 5)), (Rabs_left (0 - 5)) in Hl2 by lra.
    lra.
  - simpl in Hitems. inversion Hitems. reflexivity.
  - simpl in Hitems. inversion Hitems as [[Hx Hy Hrest]].
    destruct l1; discriminate.
Qed.

(** C1. For a known sensor and a registry in which some drone has a
    battery above 20, [schedule_task] returns a drone [d] whose battery
    exceeded 20 when it was selected, and the state after the call is
    the state before it with exactly three changes: [d] stands on the
    sensor, [d]'s battery is lower by [min(5, battery)], and [d]'s
    history has one more task, whose distance is the Euclidean distance
    ([euclidean_distance], the square root of the sum of the squared
    coordinate differences) from [d]'s previous position to the
    sensor. *)
Theorem schedule_task_effect self sensor_id t sensor_pos :
  registry_ok self ->
  get (sensor_positions self) sensor_id = Some sensor_pos ->
  (exists d b, In d (keys (drone_positions self)) /\
               get (drone_battery self) d = Some b /\ (20 < b)%R) ->
  exists d drone_pos battery,
    schedule_task self sensor_id t =
    Ok (Some d,
        after_assignment self sensor_id sensor_pos t d drone_pos battery) /\
    get (drone_positions self) d = Some drone_pos /\
    get (drone_battery self) d = Some battery /\
    (20 < battery)%R /\
    get (drone_positions
           (after_assignment self sensor_id sensor_pos t d drone_pos battery))
        d = Some sensor_pos /\
    get (drone_battery
           (after_assignment self sensor_id sensor_pos t d drone_pos battery))
        d = Some (battery - Rmin 5 battery)%R /\
    tasks_of (assigned_tasks
                (after_assignment self sensor_id sensor_pos t d drone_pos
                                  battery)) d =
    tasks_of (assigned_tasks self) d ++
    [{| sensor := sensor_id; time := t;
        distance :=
          euclidean_distance (point drone_pos) (point sensor_pos) |}].
Proof.
  intros Hok Hsp Hex.
  destruct (schedule_task_selects self sensor_id t sensor_pos Hok Hsp Hex)
    as (d & self' & Hcall).
  destruct (schedule_task_inv _ _ _ _ _ Hcall)
    as [(Hnone & _) | (d' & sp & l1 & p & l2 & c & p0 & b & Hd & _ & Hsp' & _ & Hel & _ & _ & Hp0 & Hb & ->)];
    [discriminate|].
  inversion Hd; subst d'. rewrite Hsp in Hsp'. inversion Hsp'; subst sp.
  destruct Hel as (b' & Hb' & H20 & _). simpl in Hb'.
  rewrite Hb in Hb'. inversion Hb'; subst b'.
  exists d, p0, b. repeat split; auto.
  - simpl. apply get_set_same.
  - simpl. apply get_set_same.
  - unfold tasks_of at 1. simpl.
    now rewrite get_set_same, calculate_distance_euclidean.
Qed.

Lemma schedule_task_effect_witness :
  exists d drone_pos battery,
    schedule_task two_drones 100 0 =
    Ok (Some d,
        after_assignment two_drones 100 (5, 0)%Z 0 d drone_pos battery) /\
    get (drone_positions two_drones) d = Some drone_pos /\
    get (drone_battery two_drones) d = Some battery /\
    (20 < battery)%R /\
    get (drone_positions
           (after_assignment two_drones 100 (5, 0)%Z 0 d drone_pos battery))
        d = Some (5, 0)%Z /\
    get (drone_battery
           (after_assignment two_drones 100 (5, 0)%Z 0 d drone_pos battery))
        d = Some (battery - Rmin 5 battery)%R /\
    tasks_of (assigned_tasks
                (after_assignment two_drones 100 (5, 0)%Z 0 d drone_pos
                                  battery)) d =
    tasks_of (assigned_tasks two_drones) d ++
    [{| sensor := 100; time := 0;
        distance :=
          euclidean_distance (point drone_pos) (point (5, 0)%Z) |}].
Proof.
  apply (schedule_task_effect two_drones 100 0 (5, 0)%Z).
  - exact two_drones_ok.
  - reflexivity.
  - exists 50%Z, 100%R. simpl. repeat split; [now left | lra].
Defined.

(** C10. A call of [schedule_task] that returns changes nothing but the
    selected drone: the sensors, the counts, the task queue and the
    iteration order of the drones are as before; when it returns a drone
    [d], every other drone keeps its position, battery and history; when
    it returns no assignment the whole state is as before, and that is
    the answer for an unknown sensor and when no drone is above 20. *)
Theorem schedule_task_frame self sensor_id t r self' :
  schedule_task self sensor_id t = Ok (r, self') ->
  sensor_positions self' = sensor_positions self /\
  num_drones self' = num_drones self /\
  num_sensors self' = num_sensors self /\
  task_queue self' = task_queue self /\
  keys (drone_positions self') = keys (drone_positions self) /\
  match r with
  | None => self' = self
  | Some d =>
      forall d', d' <> d ->
                 get (drone_positions self') d' = get (drone_positions self) d' /\
                 get (drone_battery self') d' = get (drone_battery self) d' /\
                 get (assigned_tasks self') d' = get (assigned_tasks self) d'
  end /\
  (get (sensor_positions self) sensor_id = None -> r = None) /\
  ((forall d b, get (drone_battery self) d = Some b -> (b <= 20)%R) ->
   r = None).
Proof.
  intros Hcall.
  destruct (schedule_task_inv _ _ _ _ _ Hcall)
    as [(-> & ->) | (d & sp & l1 & p & l2 & c & p0 & b & -> & _ & Hsp & Hitems & Hel & _ & _ & Hp0 & Hb & ->)].
  - repeat split; auto.
  - simpl. repeat split; auto.
    + apply keys_set_present. apply get_in_keys. eauto.
    + now apply get_set_other.
    + now apply get_set_other.
    + now apply get_set_other.
    + rewrite Hsp. discriminate.
    + intros Hlow. destruct Hel as (b' & Hb' & H20 & _).
      specialize (Hlow _ _ Hb'). lra.
Qed.

Lemma schedule_task_frame_witness :
  sensor_positions
    (after_assignment two_drones 100 (5, 0)%Z 0 50 (0, 0)%Z 100) =
  sensor_positions two_drones /\
  num_drones (after_assignment two_drones 100 (5, 0)%Z 0 50 (0, 0)%Z 100) =
  num_drones two_drones /\
  num_sensors (after_assignment two_drones 100 (5, 0)%Z 0 50 (0, 0)%Z 100) =
  num_sensors two_drones /\
  task_queue (after_assignment two_drones 100 (5, 0)%Z 0 50 (0, 0)%Z 100) =
  task_queue two_drones /\
  keys (drone_positions
          (after_assignment two_drones 100 (5, 0)%Z 0 50 (0, 0)%Z 100)) =
  keys (drone_positions two_drones) /\
  (forall d', d' <> 50%Z ->
     get (drone_positions
            (after_assignment two_drones 100 (5, 0)%Z 0 50 (0, 0)%Z 100)) d' =
     get (drone_positions two_drones) d' /\
     get (drone_battery
            (after_assignment two_drones 100 (5, 0)%Z 0 50 (0, 0)%Z 100)) d' =
     get (drone_battery two_drones) d' /\
     get (assigned_tasks
            (after_assignment two_drones 100 (5, 0)%Z 0 50 (0, 0)%Z 100)) d' =
     get (assigned_tasks two_drones) d') /\
  (get (sensor_positions two_drones) 100 = None -> Some 50%Z = None) /\
  ((forall d b, get (drone_battery two_drones) d = Some b -> (b <= 20)%R) ->
   Some 50%Z = None).
Proof.
  apply (schedule_task_frame two_drones 100 0 (Some 50%Z)).
  apply two_drones_schedule.
Defined.

(** C2. [schedule_task] never returns a drone at or below 20: when every
    drone's battery is at most 20 it returns no assignment and the state
    as it was; a drone it returns has a battery above 20 and, among the
    drones above 20, the least cost
    [euclidean_distance + (100 - battery) * 0.5] ([euclidean_cost]),
    strictly less than the cost of
    every such drone earlier in the iteration order of the registry;
    and with a known sensor and some drone above 20 it does return a
    drone. *)
Theorem schedule_task_selection self sensor_id t :
  registry_ok self ->
  ((forall d b, In d (keys (drone_positions self)) ->
                get (drone_battery self) d = Some b -> (b <= 20)%R) ->
   schedule_task self sensor_id t = Ok (None, self)) /\
  (forall d self',
      schedule_task self sensor_id t = Ok (Some d, self') ->
      exists sensor_pos l1 drone_pos l2 battery,
        get (sensor_positions self) sensor_id = Some sensor_pos /\
        drone_positions self = l1 ++ (d, drone_pos) :: l2 /\
        get (drone_battery self) d = Some battery /\
        (20 < battery)%R /\
        (forall j pos_j battery_j,
            In (j, pos_j) l1 ->
            get (drone_battery self) j = Some battery_j ->
            (20 < battery_j)%R ->
            (euclidean_cost sensor_pos drone_pos battery
             < euclidean_cost sensor_pos pos_j battery_j)%R) /\
        (forall j pos_j battery_j,
            In (j, pos_j) l2 ->
            get (drone_battery self) j = Some battery_j ->
            (20 < battery_j)%R ->
            (euclidean_cost sensor_pos drone_pos battery
             <= euclidean_cost sensor_pos pos_j battery_j)%R)) /\
  (forall sensor_pos,
      get (sensor_positions self) sensor_id = Some sensor_pos ->
      (exists d b, In d (keys (drone_positions self)) /\
                   get (drone_battery self) d = Some b /\ (20 < b)%R) ->
      exists d self', schedule_task self sensor_id t = Ok (Some d, self')).
Proof.
  intros Hok. split; [|split].
  - intros Hlow. unfold schedule_task.
    destruct (get (sensor_positions self) sensor_id) as [sp|]; [|reflexivity].
    destruct (select_best_total self sp (drone_positions self)) with
      (best := @None Z) (m := Inf) as (best & m & Hsel).
    { intros it Hit. apply (ok_battery _ Hok). now apply in_keys_items. }
    rewrite Hsel. simpl.
    apply select_best_spec in Hsel
        as [(-> & _) | (l1 & d & p & l2 & c & Hitems & _ & _ & Hel & _)];
      [reflexivity|].
    exfalso. destruct Hel as (b & Hb & H20 & _). simpl in Hb.
    assert (Hin : In d (keys (drone_positions self))).
    { rewrite Hitems. unfold keys. rewrite map_app. apply in_or_app.
      right. now left. }
    specialize (Hlow d b Hin Hb). lra.
  - intros d self' Hcall.
    destruct (schedule_task_inv _ _ _ _ _ Hcall)
      as [(Hnone & _) | (d' & sp & l1 & p & l2 & c & p0 & b & Hd & _ & Hsp & Hitems & Hel & Hl1 & Hl2 & _ & Hb & _)];
      [discriminate|].
    inversion Hd; subst d'.
    destruct Hel as (b' & Hb' & H20 & ->). simpl in Hb', H20 |- *.
    rewrite Hb in Hb'. inversion Hb'; subst b'.
    exists sp, l1, p, l2, b. repeat split; auto.
    + intros j pj bj Hin Hbj Hj20. rewrite <- !cost_euclidean.
      apply (Hl1 (j, pj)); [exact Hin|]. exists bj. auto.
    + intros j pj bj Hin Hbj Hj20. rewrite <- !cost_euclidean.
      apply (Hl2 (j, pj)); [exact Hin|]. exists bj. auto.
  - intros sp Hsp Hex. now apply schedule_task_selects with (sp := sp).
Qed.

Lemma schedule_task_selection_witness :
  schedule_task low_battery_drone 100 0 = Ok (None, low_battery_drone) /\
  (exists d self', schedule_task two_drones 100 0 = Ok (Some d, self')) /\
  exists self', schedule_task far_drone_first 100 0 = Ok (Some 51%Z, self').
Proof.
  split; [|split].
  - apply (schedule_task_selection low_battery_drone 100 0
                                   low_battery_drone_ok).
    intros d b [<- | []] Hb. simpl in Hb. inversion Hb. lra.
  - apply (proj2 (proj2 (schedule_task_selection two_drones 100 0
                                                 two_drones_ok))
                 (5, 0)%Z).
    + reflexivity.
    + exists 50%Z, 100%R. simpl. repeat split; [now left | lra].
  - destruct (schedule_task_selection far_drone_first 100 0
                                      far_drone_first_ok)
      as (_ & Hsel & Hret).
    destruct (Hret (5, 0)%Z eq_refl) as (d & self' & Hcall).
    { exists 50%Z, 100%R. simpl. repeat split; [now left | lra]. }
    destruct (Hsel d self' Hcall)
      as (sp & l1 & p & l2 & b & Hsp & Hitems & Hb & _ & _ & Hl2).
    exists self'. rewrite Hcall. do 3 f_equal.
    exact (far_drone_first_choice d sp l1 p l2 b Hsp Hitems Hb Hl2).
Defined.

End OnlineScheduler.

(** ** The registry built by [__init__] *)

Module RegistryInit.
Import PyDict PyDictFacts TaskScheduling TaskSchedulingSpec.

Lemma sensor_grid_keys g n k :
  In k (keys (sensor_grid g n)) <-> (100 <= k < 100 + n)%Z.
Proof.
  unfold keys, sensor_grid. rewrite map_map. cbn [fst].
  rewrite in_map_iff. split.
  - intros (x & <- & Hx). apply in_range in Hx. lia.
  - intros H. exists (k - 100)%Z. split; [lia | apply in_range; lia].
Qed.

Lemma sensor_grid_succ g n :
  (0 <= n)%Z ->
  set (sensor_grid g n) (100 + n) (grid_position g n) = sensor_grid g (n + 1).
Proof.
  intros Hn. rewrite keys_set_absent.
  - unfold sensor_grid. rewrite range_succ by assumption.
    now rewrite map_app.
  - rewrite sensor_grid_keys. lia.
Qed.

(** One cell: the cells are numbered row by row, and the first
    [n_sensors] of them receive a sensor. *)
Lemma place_sensor_step g n i j :
  (0 <= n)%Z -> (0 <= i)%Z -> (0 <= j < g)%Z ->
  place_sensor n i j (sensor_grid g (Z.min (i * g + j) n), Z.min (i * g + j) n)
  = (sensor_grid g (Z.min (i * g + j + 1) n), Z.min (i * g + j + 1) n).
Proof.
  intros Hn Hi Hj. unfold place_sensor.
  destruct (Z.min (i * g + j) n <? n)%Z eqn:E.
  - apply Z.ltb_lt in E.
    assert (Hk : Z.min (i * g + j) n = (i * g + j)%Z) by lia.
    assert (Hk' : Z.min (i * g + j + 1) n = (i * g + j + 1)%Z) by lia.
    rewrite Hk, Hk'.
    assert (Hpos : (i * 10, j * 10)%Z = grid_position g (i * g + j)).
    { unfold grid_position.
      rewrite Z.div_add_l by lia. rewrite Z.div_small by lia.
      rewrite (Z.add_comm (i * g) j), Z.mod_add by lia.
      rewrite Z.mod_small by lia. now rewrite Z.add_0_r. }
    rewrite Hpos. rewrite sensor_grid_succ by nia. reflexivity.
  - apply Z.ltb_ge in E.
    now replace (Z.min (i * g + j + 1) n) with (Z.min (i * g + j) n) by lia.
Qed.

Lemma place_sensors_row g n i :
  (0 <= n)%Z -> (0 <= i)%Z -> (0 <= g)%Z ->
  fold_left (fun acc j => place_sensor n i j acc) (range g)
            (sensor_grid g (Z.min (i * g) n), Z.min (i * g) n)
  = (sensor_grid g (Z.min ((i + 1) * g) n), Z.min ((i + 1) * g) n).
Proof.
  intros Hn Hi Hg.
  pose (P := fun (c : nat) (acc : dict position * Z) =>
               acc = (sensor_grid g (Z.min (i * g + Z.of_nat c) n),
                      Z.min (i * g + Z.of_nat c) n)).
  assert (H : P (length (range g))
                (fold_left (fun acc j => place_sensor n i j acc) (range g)
                           (sensor_grid g (Z.min (i * g) n), Z.min (i * g) n))).
  { apply fold_left_inv.
    - intros c j acc Hj ->. apply range_nth in Hj as [-> Hlt].
      unfold P. rewrite place_sensor_step by lia.
      now replace (i * g + Z.of_nat (S c))%Z with (i * g + Z.of_nat c + 1)%Z
        by lia.
    - unfold P. simpl. now rewrite Z.add_0_r. }
  unfold P in H. rewrite H, range_length.
  now replace (i * g + Z.of_nat (Z.to_nat g))%Z with ((i + 1) * g)%Z by lia.
Qed.

Lemma place_sensors_grid g n :
  (0 <= n <= g * g)%Z -> (0 <= g)%Z ->
  place_sensors g n [] = sensor_grid g n.
Proof.
  intros Hn Hg. unfold place_sensors.
  pose (P := fun (r : nat) (acc : dict position * Z) =>
               acc = (sensor_grid g (Z.min (Z.of_nat r * g) n),
                      Z.min (Z.of_nat r * g) n)).
  match goal with |- fst ?x = _ => assert (H : P (length (range g)) x) end.
  { apply fold_left_inv.
    - intros r i acc Hi ->. apply range_nth in Hi as [-> Hlt].
      unfold P. rewrite place_sensors_row by lia.
      now replace (Z.of_nat (S r)) with (Z.of_nat r + 1)%Z by lia.
    - unfold P. simpl. rewrite Z.min_l by lia. reflexivity. }
  unfold P in H. rewrite H, range_length. simpl.
  rewrite Z2Nat.id by lia. now rewrite Z.min_r by lia.
Qed.

(** The grid of [int(sqrt(n)) + 2] cells per axis has room for [n]
    sensors. *)
Lemma grid_has_room n :
  (0 <= n)%Z -> (n <= (Z.sqrt n + 2) * (Z.sqrt n + 2))%Z.
Proof.
  intros Hn. pose proof (Z.sqrt_spec n Hn) as H. simpl in H.
  pose proof (Z.sqrt_nonneg n). nia.
Qed.

(** [int_sqrt] is the floor of the real square root. *)
Lemma int_sqrt_floor n :
  (0 <= n)%Z ->
  int_sqrt n = Ok (Z.sqrt n) /\
  (IZR (Z.sqrt n) <= sqrt (IZR n) < IZR (Z.sqrt n) + 1)%R.
Proof.
  intros Hn. unfold int_sqrt.
  destruct (n <? 0)%Z eqn:E; [apply Z.ltb_lt in E; lia|].
  split; [reflexivity|].
  pose proof (Z.sqrt_spec n Hn) as [Hlo Hhi]. cbv zeta in Hlo, Hhi.
  pose proof (Z.sqrt_nonneg n) as Hs.
  apply IZR_le in Hlo, Hs. apply IZR_lt in Hhi.
  rewrite mult_IZR in Hlo, Hhi. rewrite succ_IZR in Hhi.
  assert (H0 : (0 <= IZR n)%R) by (apply IZR_le; lia).
  split.
  - rewrite <- (sqrt_square (IZR (Z.sqrt n))) by assumption.
    now apply sqrt_le_1_alt.
  - rewrite <- (sqrt_square (IZR (Z.sqrt n) + 1)) by lra.
    apply sqrt_lt_1_alt. lra.
Qed.

(** [ceil_sqrt] is the ceiling of the real square root. *)
Lemma ceil_sqrt_ceiling n :
  (0 < n)%Z ->
  (IZR (ceil_sqrt n) - 1 < sqrt (IZR n) <= IZR (ceil_sqrt n))%R.
Proof.
  intros Hn. destruct (int_sqrt_floor n) as [_ [Hlo Hhi]]; [lia|].
  unfold ceil_sqrt.
  destruct (Z.sqrt n * Z.sqrt n =? n)%Z eqn:E.
  - apply Z.eqb_eq in E.
    assert (Heq : sqrt (IZR n) = IZR (Z.sqrt n)).
    { rewrite <- E at 1. rewrite mult_IZR. apply sqrt_square.
      apply IZR_le, Z.sqrt_nonneg. }
    lra.
  - apply Z.eqb_neq in E. rewrite plus_IZR. split; [|lra].
    assert (Hne : sqrt (IZR n) <> IZR (Z.sqrt n)).
    { intros Heq. apply E.
      assert (H0 : (0 <= IZR n)%R) by (apply IZR_le; lia).
      pose proof (sqrt_sqrt (IZR n) H0) as Hsq. rewrite Heq in Hsq.
      rewrite <- mult_IZR in Hsq. now apply eq_IZR in Hsq. }
    lra.
Qed.

Lemma range_of_to_nat n : range (Z.of_nat (Z.to_nat n)) = range n.
Proof. unfold range. now rewrite Nat2Z.id. Qed.

(** The drone loop: ids from 50 in order, each coordinate an integer of
    [0, grid_size * 10], every battery 100, nothing else touched. *)
Lemma place_drones_spec grid n self0 g :
  (0 <= grid)%Z ->
  drone_positions self0 = [] -> drone_battery self0 = [] ->
  exists self g',
    for_each_rand (range n) (place_drone grid) self0 g = Ok (self, g') /\
    sensor_positions self = sensor_positions self0 /\
    num_drones self = num_drones self0 /\
    num_sensors self = num_sensors self0 /\
    task_queue self = task_queue self0 /\
    assigned_tasks self = assigned_tasks self0 /\
    keys (drone_positions self) = map (fun i => (50 + i)%Z) (range n) /\
    drone_battery self = map (fun i => ((50 + i)%Z, 100%R)) (range n) /\
    (forall d x y, get (drone_positions self) d = Some (x, y) ->
                   (0 <= x <= grid * 10)%Z /\ (0 <= y <= grid * 10)%Z).
Proof.
  intros Hgrid Hdp0 Hdb0.
  pose (P := fun (i : nat) (self : DroneTaskScheduler) =>
    sensor_positions self = sensor_positions self0 /\
    num_drones self = num_drones self0 /\
    num_sensors self = num_sensors self0 /\
    task_queue self = task_queue self0 /\
    assigned_tasks self = assigned_tasks self0 /\
    keys (drone_positions self)
    = map (fun i => (50 + i)%Z) (range (Z.of_nat i)) /\
    drone_battery self
    = map (fun i => ((50 + i)%Z, 100%R)) (range (Z.of_nat i)) /\
    (forall d x y, get (drone_positions self) d = Some (x, y) ->
                   (0 <= x <= grid * 10)%Z /\ (0 <= y <= grid * 10)%Z)).
  destruct (for_each_rand_inv P (place_drone grid) (range n))
    with (s := self0) (g := g) as (self & g' & Hrun & HP).
  - intros i k self g0 Hk (Hsp & Hnd & Hns & Htq & Hat & Hkeys & Hbat & Hbox).
    apply range_nth in Hk as [-> Hlt].
    unfold place_drone, Random.bind.
    destruct (randint_range 0 (grid * 10) g0) as (x & g1 & Hx & Hxr); [lia|].
    rewrite Hx.
    destruct (randint_range 0 (grid * 10) g1) as (y & g2 & Hy & Hyr); [lia|].
    rewrite Hy. unfold Random.ret.
    eexists _, _. split; [reflexivity|].
    unfold P, with_drone_battery, with_drone_positions.
    cbn [sensor_positions num_drones num_sensors task_queue assigned_tasks
         drone_positions drone_battery].
    do 5 (split; [assumption|]).
    split; [|split].
    + rewrite keys_set_absent.
      * unfold keys in *. rewrite map_app, Hkeys. cbn [map fst].
        rewrite Nat2Z.inj_succ, <- Z.add_1_r, range_succ by lia.
        now rewrite map_app.
      * rewrite Hkeys, in_map_iff. intros (j & Hj & Hin).
        apply in_range in Hin. lia.
    + rewrite keys_set_absent.
      * rewrite Hbat.
        rewrite Nat2Z.inj_succ, <- Z.add_1_r, range_succ by lia.
        now rewrite map_app.
      * rewrite Hbat. unfold keys. rewrite map_map. cbn [fst].
        rewrite in_map_iff. intros (j & Hj & Hin).
        apply in_range in Hin. lia.
    + intros d x' y' H.
      destruct (Z.eq_dec d (50 + Z.of_nat i)) as [->|Hne].
      * rewrite get_set_same in H. inversion H; subst. lia.
      * rewrite get_set_other in H by assumption.
        now apply (Hbox d x' y').
  - unfold P. simpl. rewrite Hdp0, Hdb0.
    do 7 (split; [reflexivity|]). intros d x y H. discriminate.
  - exists self, g'. split; [exact Hrun|].
    unfold P in HP. rewrite range_length, range_of_to_nat in HP. exact HP.
Qed.

(** What [__init__] builds, on every oracle. *)
Lemma init_builds n_drones n_sensors g :
  (0 <= n_sensors)%Z ->
  exists self g',
    __init__ n_drones n_sensors g = Ok (self, g') /\
    initialized n_drones n_sensors (Z.sqrt n_sensors + 2) self.
Proof.
  intros Hns. unfold __init__, _initialize_positions.
  unfold Random.bind at 1. unfold Random.lift.
  destruct (int_sqrt_floor n_sensors Hns) as [Hroot _].
  cbn [num_sensors num_drones sensor_positions]. rewrite Hroot.
  pose proof (Z.sqrt_nonneg n_sensors) as Hs.
  rewrite place_sensors_grid
    by (first [split; [lia | apply grid_has_room, Hns] | lia]).
  match goal with
  | |- context [for_each_rand _ _ ?s0 g] =>
      destruct (place_drones_spec (Z.sqrt n_sensors + 2) n_drones s0 g)
        as (self & g' & Hrun & Hsp & Hnd & Hn & Htq & Hat & Hkeys & Hbat & Hbox);
        [lia | reflexivity | reflexivity |]
  end.
  exists self, g'. split; [exact Hrun|].
  split; auto.
Qed.

End RegistryInit.

(** ** Initial layout and the battery invariant *)

Module Registry.
Import PyDict PyDictFacts TaskScheduling TaskSchedulingSpec.
Import TaskSchedulingFacts RegistryInit.

Lemma python_min_cases (a b : R) :
  (b < a /\ py_min a b = b)%R \/ (a <= b /\ py_min a b = a)%R.
Proof.
  unfold py_min. destruct (Rltb b a) eqn:E.
  - apply Rltb_true in E. now left.
  - apply Rltb_false in E. now right.
Qed.

Lemma bounded_set (db : dict R) d v :
  (forall k b, get db k = Some b -> (0 <= b <= 100)%R) ->
  (0 <= v <= 100)%R ->
  forall k b, get (set db d v) k = Some b -> (0 <= b <= 100)%R.
Proof.
  intros Hdb Hv k b. destruct (Z.eq_dec k d) as [->|Hne].
  - rewrite get_set_same. intros [= <-]. exact Hv.
  - rewrite get_set_other by assumption. apply Hdb.
Qed.

(** Neither operation takes a battery out of [0, 100]. *)
Lemma apply_bounded self op :
  batteries_bounded self -> batteries_bounded (apply self op).
Proof.
  intros Hb. destruct op as [sid t | d]; simpl.
  - destruct (schedule_task self sid t) as [[r self']|e] eqn:Hcall;
      [|exact Hb].
    destruct (schedule_task_inv _ _ _ _ _ Hcall)
      as [(_ & ->) | (d & sp & l1 & p & l2 & c & p0 & b & _ & _ & _ & _ & _ & _ & _ & _ & Hbat & ->)];
      [exact Hb|].
    unfold batteries_bounded, after_assignment. cbn [drone_battery].
    apply bounded_set; [exact Hb|].
    specialize (Hb d b Hbat). unfold Rmin.
    destruct (Rle_dec 5 b); lra.
  - unfold recharge_drone.
    destruct (get (drone_battery self) d) as [b|] eqn:Hbat; [|exact Hb].
    unfold batteries_bounded, with_drone_battery. cbn [drone_battery].
    apply bounded_set; [exact Hb|].
    specialize (Hb d b Hbat).
    destruct (python_min_cases 100 (b + 20)) as [[? ->] | [? ->]]; lra.
Qed.

Lemma run_bounded ops :
  forall self, batteries_bounded self -> batteries_bounded (run self ops).
Proof.
  unfold run. induction ops as [|op ops IH]; intros self Hb; simpl.
  - exact Hb.
  - apply IH. now apply apply_bounded.
Qed.

Lemma initialized_full n_drones n_sensors grid self :
  initialized n_drones n_sensors grid self ->
  forall d b, get (drone_battery self) d = Some b -> b = 100%R.
Proof.
  intros Hinit d b Hget. apply get_In in Hget.
  rewrite (init_battery _ _ _ _ Hinit) in Hget.
  apply in_map_iff in Hget as (i & Heq & _). now inversion Heq.
Qed.

(** Registries built by the constructor are well formed, and the two
    operations keep them so: the hypothesis [registry_ok] of the
    statements about [schedule_task] holds in every state a run can
    reach. *)
Lemma initialized_ok n_drones n_sensors grid self :
  initialized n_drones n_sensors grid self -> registry_ok self.
Proof.
  intros [_ _ _ Hids _ Hbat _ _]. split.
  - rewrite Hids. apply Injective_map_NoDup; [|apply NoDup_range].
    intros a b. lia.
  - intros d Hd. rewrite Hids in Hd. apply in_map_iff in Hd as (i & <- & Hi).
    apply in_range in Hi. lia.
  - intros d Hd. apply get_in_keys. rewrite Hbat.
    unfold keys. rewrite map_map. cbn [fst]. now rewrite <- Hids.
Qed.

Lemma apply_ok self op : registry_ok self -> registry_ok (apply self op).
Proof.
  intros Hok. destruct op as [sid t | d]; simpl.
  - destruct (schedule_task self sid t) as [[r self']|e] eqn:Hcall;
      [|exact Hok].
    destruct (schedule_task_inv _ _ _ _ _ Hcall)
      as [(_ & ->) | (d & sp & l1 & p & l2 & c & p0 & b & _ & _ & _ & _ & _ & _ & _ & Hp0 & Hbat & ->)];
      [exact Hok|].
    assert (Hkeys : keys (set (drone_positions self) d sp)
                    = keys (drone_positions self))
      by (apply keys_set_present, get_in_keys; eauto).
    destruct Hok as [Hu Hnz Hb].
    split; unfold after_assignment; cbn [drone_positions drone_battery];
      rewrite Hkeys; try assumption.
    intros k Hk. apply get_in_keys, in_keys_set. right.
    apply get_in_keys. now apply Hb.
  - unfold recharge_drone.
    destruct (get (drone_battery self) d) as [b|] eqn:Hbat; [|exact Hok].
    destruct Hok as [Hu Hnz Hb].
    split; unfold with_drone_battery; cbn [drone_positions drone_battery];
      try assumption.
    intros k Hk. apply get_in_keys, in_keys_set. right.
    apply get_in_keys. now apply Hb.
Qed.

Lemma reachable_ok n_drones n_sensors g :
  (0 <= n_sensors)%Z ->
  exists self g',
    __init__ n_drones n_sensors g = Ok (self, g') /\
    forall ops, registry_ok (run self ops).
Proof.
  intros Hns.
  destruct (init_builds n_drones n_sensors g Hns) as (self & g' & Hinit & Hspec).
  exists self, g'. split; [exact Hinit|].
  apply initialized_ok in Hspec. clear Hinit.
  intros ops. revert self Hspec. unfold run.
  induction ops as [|op ops IH]; intros self Hok; simpl; [exact Hok|].
  apply IH. now apply apply_ok.
Qed.

(** Why [registry_ok] asks for non-zero ids: [if best_drone:] reads a
    selected drone 0 as no drone. The constructor never makes such an
    id. *)
Remark drone_zero_is_falsy (t : R) :
  schedule_task
    {| num_drones := 1; num_sensors := 1;
       drone_positions := [(0, (0, 0))]%Z;
       sensor_positions := [(100, (0, 0))]%Z;
       drone_battery := [(0%Z, 100%R)];
       task_queue := []; assigned_tasks := [] |} 100 t
  = Ok (None,
        {| num_drones := 1; num_sensors := 1;
           drone_positions := [(0, (0, 0))]%Z;
           sensor_positions := [(100, (0, 0))]%Z;
           drone_battery := [(0%Z, 100%R)];
           task_queue := []; assigned_tasks := [] |}).
Proof.
  unfold schedule_task; simpl. Rltb_eval. reflexivity.
Qed.

(** C3. Whatever the fleet size and the random draws, the constructor
    gives every drone a battery of 100, and after any sequence of
    [schedule_task] and [recharge_drone] calls every battery is still in
    [0, 100]. *)
Theorem battery_within_bounds n_drones n_sensors g :
  (0 <= n_sensors)%Z ->
  exists self g',
    __init__ n_drones n_sensors g = Ok (self, g') /\
    (forall d b, get (drone_battery self) d = Some b -> b = 100%R) /\
    forall ops d b,
      get (drone_battery (run self ops)) d = Some b -> (0 <= b <= 100)%R.
Proof.
  intros Hns.
  destruct (init_builds n_drones n_sensors g Hns) as (self & g' & Hinit & Hspec).
  exists self, g'. split; [exact Hinit|].
  pose proof (initialized_full _ _ _ _ Hspec) as Hfull.
  split; [exact Hfull|].
  intros ops. apply run_bounded.
  intros d b Hget. rewrite (Hfull d b Hget). lra.
Qed.

Lemma battery_within_bounds_witness :
  exists self g',
    __init__ 2 4 zero_draws = Ok (self, g') /\
    (forall d b, get (drone_battery self) d = Some b -> b = 100%R) /\
    forall ops d b,
      get (drone_battery (run self ops)) d = Some b -> (0 <= b <= 100)%R.
Proof.
  apply (battery_within_bounds 2 4 zero_draws). lia.
Defined.

(** C7, as the code has it. The constructor lays the sensors out on a
    grid of [int(sqrt(num_sensors)) + 2] cells per axis (the floor of the
    square root, not its ceiling), 10 units apart and filled row by row,
    sensor [100 + k] on cell [(k / grid_size, k mod grid_size)]; drones
    have the ids [50, 51, ...] in that order, each coordinate a random
    integer of [0, grid_size * 10], and a battery of 100. *)
Theorem init_layout n_drones n_sensors g :
  (0 <= n_sensors)%Z ->
  exists self g',
    __init__ n_drones n_sensors g = Ok (self, g') /\
    (IZR (Z.sqrt n_sensors) <= sqrt (IZR n_sensors)
     < IZR (Z.sqrt n_sensors) + 1)%R /\
    (forall k, (0 <= k < n_sensors)%Z ->
               get (sensor_positions self) (100 + k) =
               Some ((k / (Z.sqrt n_sensors + 2)) * 10,
                     (k mod (Z.sqrt n_sensors + 2)) * 10)%Z) /\
    keys (sensor_positions self) = map (fun k => (100 + k)%Z) (range n_sensors) /\
    keys (drone_positions self) = map (fun i => (50 + i)%Z) (range n_drones) /\
    (forall d x y, get (drone_positions self) d = Some (x, y) ->
                   (0 <= x <= (Z.sqrt n_sensors + 2) * 10)%Z /\
                   (0 <= y <= (Z.sqrt n_sensors + 2) * 10)%Z) /\
    drone_battery self = map (fun i => ((50 + i)%Z, 100%R)) (range n_drones).
Proof.
  intros Hns.
  destruct (init_builds n_drones n_sensors g Hns) as (self & g' & Hinit & Hspec).
  exists self, g'. split; [exact Hinit|].
  split; [apply (int_sqrt_floor n_sensors Hns)|].
  destruct Hspec as [_ _ Hsens Hids Hbox Hbat _ _].
  repeat split; try assumption.
  - intros k Hk. rewrite Hsens. apply In_get.
    + unfold keys, sensor_grid. rewrite map_map. cbn [fst].
      apply Injective_map_NoDup; [|apply NoDup_range].
      intros a b. lia.
    + unfold sensor_grid. apply in_map_iff. exists k.
      split; [reflexivity | now apply in_range].
  - rewrite Hsens. unfold keys, sensor_grid. now rewrite map_map.
  - now apply (Hbox d x y).
  - now apply (Hbox d x y).
  - now apply (Hbox d x y).
  - now apply (Hbox d x y).
Qed.

Lemma init_layout_witness :
  exists self g',
    __init__ 3 5 zero_draws = Ok (self, g') /\
    (IZR (Z.sqrt 5) <= sqrt (IZR 5) < IZR (Z.sqrt 5) + 1)%R /\
    (forall k, (0 <= k < 5)%Z ->
               get (sensor_positions self) (100 + k) =
               Some ((k / (Z.sqrt 5 + 2)) * 10,
                     (k mod (Z.sqrt 5 + 2)) * 10)%Z) /\
    keys (sensor_positions self) = map (fun k => (100 + k)%Z) (range 5) /\
    keys (drone_positions self) = map (fun i => (50 + i)%Z) (range 3) /\
    (forall d x y, get (drone_positions self) d = Some (x, y) ->
                   (0 <= x <= (Z.sqrt 5 + 2) * 10)%Z /\
                   (0 <= y <= (Z.sqrt 5 + 2) * 10)%Z) /\
    drone_battery self = map (fun i => ((50 + i)%Z, 100%R)) (range 3).
Proof.
  apply (init_layout 3 5 zero_draws). lia.
Defined.

(** The grid is not the one of [ceil(sqrt(num_sensors)) + 2] cells per
    axis: with five sensors the code uses 4 cells per axis, so sensor 104
    opens the second row at (10, 0), where a grid of 5 cells per axis
    would put it at (0, 40). *)
Lemma init_grid_not_ceiling :
  exists self g',
    __init__ 0 5 zero_draws = Ok (self, g') /\
    get (sensor_positions self) 104 = Some (10, 0)%Z /\
    get (sensor_grid (ceil_sqrt 5 + 2) 5) 104 = Some (0, 40)%Z /\
    sensor_positions self <> sensor_grid (ceil_sqrt 5 + 2) 5.
Proof.
  exists {| num_drones := 0; num_sensors := 5;
            drone_positions := [];
            sensor_positions :=
              [(100, (0, 0)); (101, (0, 10)); (102, (0, 20));
               (103, (0, 30)); (104, (10, 0))]%Z;
            drone_battery := []; task_queue := []; assigned_tasks := [] |},
    zero_draws.
  split; [vm_compute; reflexivity|].
  split; [reflexivity|]. split; [reflexivity|].
  intros H. apply (f_equal (fun sp => get sp 104)) in H.
  vm_compute in H. discriminate H.
Qed.

End Registry.

(** * Properties of the batch optimizer *)

(** ** Rules for code that raises and draws *)

Lemma post_bind {A B} (m : result A) (k : A -> result B) Q E :
  post m (fun a => post (k a) Q E) E -> post (result_bind m k) Q E.
Proof. destruct m; simpl; auto. Qed.

Lemma post_conseq {A} (m : result A) (Q Q' : A -> Prop) E :
  post m Q E -> (forall a, Q a -> Q' a) -> post m Q' E.
Proof. destruct m; simpl; auto. Qed.

Lemma wp_ret {A} (a : A) (Q : A -> Prop) E : Q a -> wp (Random.ret a) Q E.
Proof. intros H g. exact H. Qed.

Lemma wp_bind {A B} (m : Random.M A) (k : A -> Random.M B) Q E :
  wp m (fun a => wp (k a) Q E) E -> wp (Random.bind m k) Q E.
Proof.
  intros H g. specialize (H g). unfold Random.bind.
  destruct (m g) as [[a g']|e]; simpl in *; [apply H | exact H].
Qed.

Lemma wp_conseq {A} (m : Random.M A) (Q Q' : A -> Prop) E :
  wp m Q E -> (forall a, Q a -> Q' a) -> wp m Q' E.
Proof.
  intros H HQ g. specialize (H g). destruct (m g) as [[a g']|e]; simpl in *; auto.
Qed.

Lemma wp_lift {A} (r : result A) (Q : A -> Prop) E :
  post r Q E -> wp (Random.lift r) Q E.
Proof. intros H g. unfold Random.lift. destruct r; exact H. Qed.

Lemma wp_randint (a b : Z) (Q : Z -> Prop) E :
  ((b < a)%Z -> E ValueError) ->
  (forall x, (a <= x <= b)%Z -> Q x) ->
  wp (Random.randint a b) Q E.
Proof.
  intros Herr HQ g. unfold Random.randint.
  destruct (b <? a)%Z eqn:Hab.
  - apply Z.ltb_lt in Hab. simpl. auto.
  - apply Z.ltb_ge in Hab. simpl. apply HQ.
    pose proof (Z.mod_pos_bound (Z.of_N (Random.draws g (Random.cursor g)))
                                (b - a + 1)).
    lia.
Qed.

Lemma wp_choice {A} (seq : list A) (Q : A -> Prop) E :
  (seq = [] -> E IndexError) ->
  (forall x, In x seq -> Q x) ->
  wp (Random.choice seq) Q E.
Proof.
  intros Herr HQ g. unfold Random.choice.
  destruct seq as [|x seq]; [simpl; auto|].
  unfold Random.bind, Random.next_draw, Random.ret, post. cbn [fst].
  apply HQ. apply nth_In. apply Nat.mod_upper_bound. discriminate.
Qed.

Lemma wp_random (Q : R -> Prop) E :
  (forall r, Q r) -> wp Random.random Q E.
Proof. intros HQ g. simpl. apply HQ. Qed.

Lemma post_returns {A} (r : result A) (Q : A -> Prop) :
  post r Q (fun _ => False) -> exists a, r = Ok a /\ Q a.
Proof. destruct r; simpl; [eauto | contradiction]. Qed.

(** Loop rules whose invariant speaks of the elements done so far. *)
Lemma post_for_each_done {A S} (I : list A -> S -> Prop) E
      (body : A -> S -> result S) (l0 : list A) :
  (forall done x s, In x l0 -> I done s ->
                    post (body x s) (I (done ++ [x])) E) ->
  forall s, I [] s -> post (for_each l0 body s) (I l0) E.
Proof.
  intros Hstep.
  assert (H : forall l done s, incl l l0 -> I done s ->
                               post (for_each l body s) (I (done ++ l)) E).
  { induction l as [|x l IH]; intros done s Hincl Hdone; simpl.
    - now rewrite app_nil_r.
    - apply post_bind.
      apply post_conseq with (Q := I (done ++ [x])).
      + apply Hstep; [apply Hincl; now left | exact Hdone].
      + intros s' Hs'. replace (done ++ x :: l) with ((done ++ [x]) ++ l)
          by (now rewrite <- app_assoc).
        apply IH; [|exact Hs']. intros y Hy. apply Hincl. now right. }
  intros s Hs. apply (H l0 [] s); [apply incl_refl | exact Hs].
Qed.

Lemma wp_for_each_rand_done {A S} (I : list A -> S -> Prop) E
      (body : A -> S -> Random.M S) (l0 : list A) :
  (forall done x s, In x l0 -> I done s ->
                    wp (body x s) (I (done ++ [x])) E) ->
  forall s, I [] s -> wp (for_each_rand l0 body s) (I l0) E.
Proof.
  intros Hstep.
  assert (H : forall l done s, incl l l0 -> I done s ->
                               wp (for_each_rand l body s) (I (done ++ l)) E).
  { induction l as [|x l IH]; intros done s Hincl Hdone; simpl.
    - rewrite app_nil_r. now apply wp_ret.
    - apply wp_bind.
      apply wp_conseq with (Q := I (done ++ [x])).
      + apply Hstep; [apply Hincl; now left | exact Hdone].
      + intros s' Hs'. replace (done ++ x :: l) with ((done ++ [x]) ++ l)
          by (now rewrite <- app_assoc).
        apply IH; [|exact Hs']. intros y Hy. apply Hincl. now right. }
  intros s Hs. apply (H l0 [] s); [apply incl_refl | exact Hs].
Qed.

(** ** Candidates as partitions *)

Module AssignmentFacts.
Import PyDict PyDictFacts BatchOptimizer BatchOptimizerSpec.

Lemma empty_assignment_keys n : keys (empty_assignment n) = range n.
Proof.
  unfold keys, empty_assignment. rewrite map_map. cbn [fst]. apply map_id.
Qed.

Lemma empty_assignment_sensors n : all_sensors (empty_assignment n) = [].
Proof.
  unfold all_sensors, empty_assignment. rewrite map_map. cbn [snd].
  induction (range n); simpl; auto.
Qed.

Lemma empty_assignment_holds n k s : ~ holds (empty_assignment n) k s.
Proof.
  intros (l & Hget & Hin). apply get_In in Hget.
  unfold empty_assignment in Hget. apply in_map_iff in Hget as (i & Heq & _).
  inversion Heq; subst. contradiction.
Qed.

(** Appending to the list of a key that is present. *)
Lemma set_append (a : assignment) k l s :
  get a k = Some l ->
  keys (set a k (l ++ [s])) = keys a /\
  Permutation (all_sensors (set a k (l ++ [s]))) (s :: all_sensors a).
Proof.
  unfold all_sensors.
  induction a as [|[k0 l0] a IH]; simpl; [discriminate|].
  destruct (Z.eqb k0 k) eqn:E.
  - apply Z.eqb_eq in E; subst k0. intros [= ->]. simpl. split; [reflexivity|].
    rewrite <- app_assoc. simpl.
    symmetry. apply Permutation_middle.
  - intros Hget. destruct (IH Hget) as [Hk Hp]. simpl. split.
    + now rewrite Hk.
    + rewrite Hp. symmetry. apply (Permutation_middle l0 _ s).
Qed.

Lemma append_to_spec (a : assignment) k s :
  In k (keys a) ->
  exists a',
    append_to a k s = Ok a' /\
    keys a' = keys a /\
    Permutation (all_sensors a') (s :: all_sensors a) /\
    holds a' k s /\
    forall k' s', holds a' k' s' <-> holds a k' s' \/ (k' = k /\ s' = s).
Proof.
  intros Hk. apply get_in_keys in Hk as [l Hl].
  unfold append_to. rewrite Hl. eexists. split; [reflexivity|].
  destruct (set_append a k l s Hl) as [Hkeys Hperm].
  split; [exact Hkeys|]. split; [exact Hperm|].
  assert (Hiff : forall k' s',
             holds (set a k (l ++ [s])) k' s' <->
             holds a k' s' \/ (k' = k /\ s' = s)).
  { intros k' s'. unfold holds. destruct (Z.eq_dec k' k) as [->|Hne].
    - rewrite get_set_same. split.
      + intros (l' & [= <-] & Hin). apply in_app_or in Hin as [Hin | [<- | []]].
        * left. eauto.
        * now right.
      + intros [(l' & Hl' & Hin) | [_ ->]].
        * rewrite Hl in Hl'. inversion Hl'; subst l'.
          exists (l ++ [s]). split; [reflexivity | apply in_or_app; now left].
        * exists (l ++ [s]). split; [reflexivity|].
          apply in_or_app. right. now left.
    - rewrite get_set_other by assumption. split; [auto|].
      intros [H | [Hk _]]; [exact H | contradiction]. }
  split; [|exact Hiff]. apply Hiff. now right.
Qed.

Lemma in_all_holds (a : assignment) s :
  NoDup (keys a) -> In s (all_sensors a) -> exists k, holds a k s.
Proof.
  intros Hnd Hin. unfold all_sensors in Hin.
  apply in_concat in Hin as (l & Hl & Hin).
  apply in_map_iff in Hl as ([k l'] & Heq & Hkl). simpl in Heq; subst l'.
  exists k, l. split; [now apply In_get | exact Hin].
Qed.

Lemma two_holders (a : assignment) k k' l l' s :
  In (k, l) a -> In (k', l') a -> k <> k' -> In s l -> In s l' ->
  (2 <= count_occ node_eq_dec (all_sensors a) s)%nat.
Proof.
  unfold all_sensors.
  induction a as [|[k0 l0] a IH]; simpl; [contradiction|].
  intros Hkl Hkl' Hne Hs Hs'. rewrite count_occ_app.
  assert (Hcount : forall k1 l1, In (k1, l1) a -> In s l1 ->
                     (1 <= count_occ node_eq_dec (concat (map snd a)) s)%nat).
  { intros k1 l1 Hin1 Hs1. apply count_occ_In, in_concat.
    exists l1. split; [|exact Hs1]. apply in_map_iff. now exists (k1, l1). }
  destruct Hkl as [Heq | Hkl], Hkl' as [Heq' | Hkl'].
  - congruence.
  - inversion Heq; subst. apply (count_occ_In node_eq_dec) in Hs.
    specialize (Hcount _ _ Hkl' Hs'). lia.
  - inversion Heq'; subst. apply (count_occ_In node_eq_dec) in Hs'.
    specialize (Hcount _ _ Hkl Hs). lia.
  - specialize (IH Hkl Hkl' Hne Hs Hs'). lia.
Qed.

(** In a partition of a duplicate-free sensor list every sensor is in the
    list of exactly one drone. *)
Lemma partitions_held_once n sensors a :
  partitions n sensors a -> NoDup sensors ->
  forall s, In s sensors -> held_once a s.
Proof.
  intros [Hkeys Hperm] Hnd s Hs.
  assert (Hnda : NoDup (all_sensors a))
    by (apply Permutation_NoDup with (l := sensors);
        [now symmetry | exact Hnd]).
  assert (Hina : In s (all_sensors a))
    by (apply Permutation_in with (l := sensors); [now symmetry | exact Hs]).
  assert (Hone : count_occ node_eq_dec (all_sensors a) s = 1%nat)
    by (now apply NoDup_count_occ').
  split; [exact Hone|].
  assert (Hndk : NoDup (keys a)) by (rewrite Hkeys; apply NoDup_range).
  destruct (in_all_holds a s Hndk Hina) as [k Hk].
  exists k. split; [exact Hk|].
  intros k' Hk'. destruct (Z.eq_dec k' k) as [->|Hne]; [reflexivity|].
  destruct Hk as (l & Hl & Hin), Hk' as (l' & Hl' & Hin').
  apply get_In in Hl, Hl'.
  pose proof (two_holders a k' k l' l s Hl' Hl Hne Hin' Hin). lia.
Qed.

End AssignmentFacts.

(** ** The nearest-centroid partition *)

Module NearestCentroid.
Import PyDict PyDictFacts BatchOptimizer BatchOptimizerSpec AssignmentFacts.

Lemma min_from_spec (l : list R) :
  forall m,
    (min_from m l <= m)%R /\
    (forall x, In x l -> (min_from m l <= x)%R) /\
    (min_from m l = m \/ In (min_from m l) l).
Proof.
  induction l as [|x l IH]; intros m; simpl.
  - repeat split; [lra | contradiction | now left].
  - destruct (Rltb x m) eqn:E.
    + apply Rltb_true in E. destruct (IH x) as (H1 & H2 & H3).
      repeat split.
      * lra.
      * intros y [<- | Hy]; auto.
      * destruct H3 as [-> | H3]; right; auto.
    + apply Rltb_false in E. destruct (IH m) as (H1 & H2 & H3).
      repeat split.
      * exact H1.
      * intros y [<- | Hy]; [lra | auto].
      * destruct H3 as [H3 | H3]; [now left | right; auto].
Qed.

Lemma index_from_spec (l : list R) (v : R) :
  forall i, In v l ->
            exists k, index_from i l v = Ok (i + Z.of_nat k)%Z /\
                      nth_error l k = Some v /\
                      forall j x, (j < k)%nat -> nth_error l j = Some x -> x <> v.
Proof.
  induction l as [|x l IH]; intros i Hin; simpl; [contradiction|].
  destruct (Req_dec_T x v) as [->|Hne].
  - exists O. simpl. rewrite Z.add_0_r. repeat split. intros j y Hj. lia.
  - destruct Hin as [Heq | Hin]; [contradiction|].
    destruct (IH (i + 1)%Z Hin) as (k & Hidx & Hnth & Hbefore).
    exists (S k). rewrite Hidx. repeat split.
    + f_equal. lia.
    + exact Hnth.
    + intros [|j] y Hj Hy; simpl in Hy.
      * now inversion Hy; subst.
      * apply (Hbefore j); [lia | exact Hy].
Qed.

(** [l.index(min(l))] is the first position of a least element. *)
Lemma first_min (l : list R) :
  l <> [] ->
  exists m k,
    py_min_list l = Ok m /\ index l m = Ok (Z.of_nat k) /\
    nth_error l k = Some m /\
    forall j x, nth_error l j = Some x ->
                (m <= x)%R /\ ((j < k)%nat -> (m < x)%R).
Proof.
  destruct l as [|x l]; [congruence|]. intros _.
  destruct (min_from_spec l x) as (H1 & H2 & H3).
  assert (Hall : forall y, In y (x :: l) -> (min_from x l <= y)%R)
    by (intros y [<- | Hy]; auto).
  assert (Hin : In (min_from x l) (x :: l))
    by (destruct H3 as [-> | H3]; [now left | now right]).
  destruct (index_from_spec (x :: l) (min_from x l) 0 Hin)
    as (k & Hidx & Hnth & Hbefore).
  exists (min_from x l), k. repeat split; auto.
  - apply Hall. eapply nth_error_In; eauto.
  - intros Hj. specialize (Hbefore j x0 Hj H).
    assert ((min_from x l <= x0)%R) by (apply Hall; eapply nth_error_In; eauto).
    lra.
Qed.

Lemma distances_nth (drone_positions : list node) (sensor : node) j x :
  nth_error (map (fun centroid => calculate_distance centroid (xy sensor))
                 (map xy drone_positions)) j = Some x <->
  exists pos_j, nth_error drone_positions j = Some pos_j /\
                x = calculate_distance (xy pos_j) (xy sensor).
Proof.
  rewrite map_map, nth_error_map.
  destruct (nth_error drone_positions j) as [p|]; simpl; split.
  - intros [= <-]. eauto.
  - intros (p' & [= <-] & ->). reflexivity.
  - discriminate.
  - intros (p' & H & _). discriminate.
Qed.

(** One turn of the sensor loop: the sensor joins the list of its nearest
    drone. *)
Lemma assign_nearest_spec (drone_positions : list node) (sensor : node)
      (a : assignment) :
  drone_positions <> [] ->
  keys a = range (len drone_positions) ->
  exists a' k,
    assign_nearest (map xy drone_positions) sensor a = Ok a' /\
    nearest drone_positions sensor k /\
    keys a' = keys a /\
    Permutation (all_sensors a') (sensor :: all_sensors a) /\
    forall k' s', holds a' k' s' <-> holds a k' s' \/ (k' = k /\ s' = sensor).
Proof.
  intros Hne Hkeys. unfold assign_nearest.
  set (distances := map (fun centroid => calculate_distance centroid (xy sensor))
                        (map xy drone_positions)).
  assert (Hd : distances <> []).
  { unfold distances. destruct drone_positions; [congruence | discriminate]. }
  destruct (first_min distances Hd) as (m & k & Hmin & Hidx & Hnth & Hleast).
  rewrite Hmin. simpl. rewrite Hidx. simpl.
  assert (Hk : (k < length drone_positions)%nat).
  { assert (Hlt : (k < length distances)%nat)
      by (apply nth_error_Some; congruence).
    unfold distances in Hlt. now rewrite !length_map in Hlt. }
  destruct (append_to_spec a (Z.of_nat k) sensor)
    as (a' & Happ & Hkeys' & Hperm & _ & Hholds).
  { rewrite Hkeys. apply in_range. unfold len. lia. }
  exists a', (Z.of_nat k). split; [exact Happ|].
  split; [|auto].
  apply distances_nth in Hnth as (pos_k & Hpos & ->).
  exists pos_k. rewrite Nat2Z.id. repeat split; [lia | exact Hpos | |].
  - apply (Hleast j). apply distances_nth. eauto.
  - apply (Hleast j). apply distances_nth. eauto.
Qed.

Lemma nearest_fun drone_positions sensor k k' :
  nearest drone_positions sensor k -> nearest drone_positions sensor k' ->
  k = k'.
Proof.
  intros (p & Hk & Hp & Hall) (p' & Hk' & Hp' & Hall').
  destruct (Hall _ _ Hp') as [Hle Hlt], (Hall' _ _ Hp) as [Hle' Hlt'].
  destruct (Z.lt_trichotomy k k') as [H | [H | H]]; [|exact H|].
  - assert ((Z.to_nat k < Z.to_nat k')%nat) by lia. specialize (Hlt' H0). lra.
  - assert ((Z.to_nat k' < Z.to_nat k)%nat) by lia. specialize (Hlt H0). lra.
Qed.

(** [calculate_distance] computes the Euclidean distance of the
    specification, so the nearest drone of the code is the drone that
    minimizes it. *)
Lemma batch_distance_euclidean (pos1 pos2 : R * R) :
  calculate_distance pos1 pos2 = euclidean_distance pos1 pos2.
Proof.
  unfold calculate_distance, euclidean_distance, Rsqr. f_equal. ring.
Qed.

Lemma nearest_euclidean drone_positions sensor k :
  nearest drone_positions sensor k <->
  euclidean_nearest drone_positions sensor k.
Proof.
  unfold nearest, euclidean_nearest.
  split; intros (pos_k & Hk & Hnth & Hall); exists pos_k;
    (split; [exact Hk|]); (split; [exact Hnth|]); intros j pos_j Hj;
    specialize (Hall j pos_j Hj);
    rewrite !batch_distance_euclidean in *; exact Hall.
Qed.

(** In the two-drone scenario the sensor at (9,0) has its nearest drone
    at index 1 and the sensor at (1,0) at index 0. *)
Lemma two_bases_east (k : Z) :
  euclidean_nearest two_bases sensor_east k -> k = 1%Z.
Proof.
  intros (pos & Hk & Hnth & Hall).
  destruct (Z.to_nat k) as [|[|n]] eqn:Hn; simpl in Hnth.
  - inversion Hnth; subst pos.
    destruct (Hall 1%nat (10%R, 0%R, "drone_1"%string) eq_refl) as [Hle _].
    unfold xy, sensor_east in Hle. cbn [fst snd] in Hle.
    rewrite !euclidean_horizontal in Hle.
    rewrite (Rabs_left (0 - 9)), (Rabs_right (10 - 9)) in Hle by lra. lra.
  - lia.
  - destruct n; discriminate.
Qed.

Lemma two_bases_west (k : Z) :
  euclidean_nearest two_bases sensor_west k -> k = 0%Z.
Proof.
  intros (pos & Hk & Hnth & Hall).
  destruct (Z.to_nat k) as [|[|n]] eqn:Hn; simpl in Hnth.
  - lia.
  - inversion Hnth; subst pos.
    destruct (Hall 0%nat (0%R, 0%R, "drone_0"%string) eq_refl) as [Hle _].
    unfold xy, sensor_west in Hle. cbn [fst snd] in Hle.
    rewrite !euclidean_horizontal in Hle.
    rewrite (Rabs_right (10 - 1)), (Rabs_left (0 - 1)) in Hle by lra. lra.
  - destruct n; discriminate.
Qed.

(** C6. With at least one drone, the nearest-centroid partition returns;
    it has one list per drone index and its lists together hold exactly
    the sensors of the input; every sensor is held by a drone, and a drone
    that holds a sensor is the one that minimizes the Euclidean distance
    ([euclidean_distance], the square root of the sum of the squared
    coordinate differences) to it, measured from the drone positions of
    the input (no re-centering), with ties going to the lowest index;
    when the sensors are pairwise different each is in exactly one list;
    and the result is a function of the two position lists alone. *)
Theorem k_means_nearest (drone_positions sensor_positions : list node) :
  drone_positions <> [] ->
  exists a,
    k_means_clustering_assignment drone_positions sensor_positions = Ok a /\
    partitions (len drone_positions) sensor_positions a /\
    (forall s, In s sensor_positions -> exists k, holds a k s) /\
    (forall k s, holds a k s ->
                 In s sensor_positions /\
                 euclidean_nearest drone_positions s k) /\
    (forall k k' s, holds a k s ->
                    euclidean_nearest drone_positions s k' -> k = k') /\
    (NoDup sensor_positions ->
     forall s, In s sensor_positions -> held_once a s) /\
    (forall a', k_means_clustering_assignment drone_positions sensor_positions
                = Ok a' -> a' = a).
Proof.
  intros Hne. unfold k_means_clustering_assignment.
  pose (I := fun (done : list node) (a : assignment) =>
               keys a = range (len drone_positions) /\
               Permutation (all_sensors a) done /\
               forall k s, holds a k s ->
                           In s done /\ nearest drone_positions s k).
  assert (Hpost : post (for_each sensor_positions
                          (assign_nearest (map xy drone_positions))
                          (empty_assignment (len (map xy drone_positions))))
                       (I sensor_positions) (fun _ => False)).
  { apply post_for_each_done.
    - intros done s a _ (Hkeys & Hperm & Hnear).
      destruct (assign_nearest_spec drone_positions s a Hne Hkeys)
        as (a' & k & -> & Hk & Hkeys' & Hperm' & Hholds).
      simpl. split; [congruence|]. split.
      + rewrite Hperm', Hperm. apply Permutation_cons_append.
      + intros k' s' H. apply Hholds in H as [H | [-> ->]].
        * destruct (Hnear _ _ H). split; [apply in_or_app; now left | auto].
        * split; [apply in_or_app; right; now left | exact Hk].
    - unfold len. rewrite length_map. fold (len drone_positions).
      split; [apply empty_assignment_keys|].
      split; [rewrite empty_assignment_sensors; constructor|].
      intros k s H. now apply empty_assignment_holds in H. }
  apply post_returns in Hpost as (a & Hrun & Hkeys & Hperm & Hnear).
  exists a. split; [exact Hrun|].
  assert (Hpart : partitions (len drone_positions) sensor_positions a)
    by (split; assumption).
  split; [exact Hpart|]. split; [|split; [|split; [|split]]].
  - intros s Hs. apply in_all_holds.
    + rewrite Hkeys. apply NoDup_range.
    + apply Permutation_in with (l := sensor_positions); [now symmetry | exact Hs].
  - intros k s Hk. destruct (Hnear _ _ Hk) as [Hin Hn].
    split; [exact Hin | now apply nearest_euclidean].
  - intros k k' s Hk Hk'. destruct (Hnear _ _ Hk) as [_ Hn].
    apply nearest_euclidean in Hk'.
    exact (nearest_fun _ _ _ _ Hn Hk').
  - exact (partitions_held_once _ _ _ Hpart).
  - intros a' Ha'. rewrite Hrun in Ha'. now inversion Ha'.
Qed.

Lemma k_means_nearest_witness :
  exists a,
    k_means_clustering_assignment two_bases two_sensors = Ok a /\
    partitions 2 two_sensors a /\
    holds a 1 sensor_east /\ holds a 0 sensor_west.
Proof.
  destruct (k_means_nearest two_bases two_sensors)
    as (a & Hrun & Hpart & Hcover & Hnear & _).
  - discriminate.
  - exists a. split; [exact Hrun|]. split; [exact Hpart|]. split.
    + destruct (Hcover sensor_east (or_introl eq_refl)) as [k Hk].
      destruct (Hnear k sensor_east Hk) as [_ Hn].
      rewrite <- (two_bases_east k Hn). exact Hk.
    + destruct (Hcover sensor_west (or_intror (or_introl eq_refl)))
        as [k Hk].
      destruct (Hnear k sensor_west Hk) as [_ Hn].
      rewrite <- (two_bases_west k Hn). exact Hk.
Defined.

Lemma index_head (x : R) (l : list R) : index (x :: l) x = Ok 0%Z.
Proof.
  unfold index. simpl. destruct (Req_dec_T x x); [reflexivity | congruence].
Qed.

(** The scenario: all three sensors go to the single drone. *)
Lemma one_drone_takes_all :
  k_means_clustering_assignment one_drone three_sensors
  = Ok [(0%Z, three_sensors)].
Proof.
  unfold k_means_clustering_assignment, one_drone, three_sensors.
  cbn [map for_each]. unfold assign_nearest. cbn [map py_min_list min_from].
  cbn [result_bind]. rewrite !index_head. reflexivity.
Qed.

End NearestCentroid.

(** ** [generate_schedule] and the inputs nobody validates *)

Module Schedule.
Import PyDict PyDictFacts BatchOptimizer BatchOptimizerSpec AssignmentFacts.
Import NearestCentroid.

(** The inner loop adds one entry per sensor of the drone, each with the
    cost figures of its distance. *)
Lemma schedule_sensors_spec (drone_positions : list node) (k : Z)
      (sensors : list node) (schedule0 : list entry) :
  post (for_each sensors (schedule_sensor drone_positions k) schedule0)
       (fun schedule =>
          length schedule = (length schedule0 + length sensors)%nat /\
          forall e, In e schedule ->
                    In e schedule0 \/
                    entry_of drone_positions [(k, sensors)] e)
       (fun _ => True).
Proof.
  pose (I := fun (done : list node) (schedule : list entry) =>
               length schedule = (length schedule0 + length done)%nat /\
               forall e, In e schedule ->
                         In e schedule0 \/
                         exists sensor drone_pos,
                           drone_id e = k /\ In sensor done /\
                           pyindex drone_positions k = Ok drone_pos /\
                           sensor_id e = node_id sensor /\
                           distance e
                           = calculate_distance (xy drone_pos) (xy sensor) /\
                           collection_time e = (distance e / 10 + 2)%R /\
                           energy_cost e = (distance e * 0.1 + 5)%R).
  apply post_conseq with (Q := I sensors).
  - apply post_for_each_done.
    + intros done s schedule Hs [Hlen Hall]. unfold schedule_sensor.
      destruct (pyindex drone_positions k) as [drone_pos|] eqn:Hidx;
        simpl; [|exact Logic.I].
      split.
      * rewrite !length_app, Hlen. simpl. lia.
      * intros e He. apply in_app_or in He as [He | [<- | []]].
        -- destruct (Hall e He) as [H | (s' & p' & H1 & H2 & H3)];
             [now left | right].
           exists s', p'. split; [exact H1|].
           split; [apply in_or_app; now left | exact H3].
        -- right. exists s, drone_pos. simpl.
           repeat split; auto. apply in_or_app. right. now left.
    + split; [simpl; lia | intros e He; now left].
  - intros schedule [Hlen Hall]. split; [exact Hlen|].
    intros e He. destruct (Hall e He) as [H | (s & p & Hk & Hs & Hp & H)];
      [now left | right].
    exists sensors, s, p. rewrite Hk. split; [now left|]. split; [exact Hs|].
    split; [exact Hp | exact H].
Qed.

Lemma entry_of_incl drone_positions (a a' : assignment) e :
  incl a a' -> entry_of drone_positions a e -> entry_of drone_positions a' e.
Proof.
  intros Hincl (sensors & s & p & Hin & H). exists sensors, s, p.
  split; [now apply Hincl | exact H].
Qed.

(** The schedule of an assignment: one entry per assigned sensor. *)
Lemma schedule_of_spec (drone_positions : list node) (a : assignment) :
  post (schedule_of drone_positions a)
       (fun schedule =>
          length schedule = length (all_sensors a) /\
          forall e, In e schedule -> entry_of drone_positions a e)
       (fun _ => True).
Proof.
  unfold schedule_of.
  pose (I := fun (done : assignment) (schedule : list entry) =>
               length schedule = length (all_sensors done) /\
               forall e, In e schedule -> entry_of drone_positions done e).
  apply (post_for_each_done I).
  - intros done [k sensors] schedule _ [Hlen Hall].
    apply post_conseq with (1 := schedule_sensors_spec drone_positions k
                                   sensors schedule).
    intros schedule' [Hlen' Hall']. split.
    + rewrite Hlen', Hlen. unfold all_sensors.
      rewrite map_app, concat_app, !length_app. simpl.
      now rewrite app_nil_r.
    + intros e He. destruct (Hall' e He) as [H | H].
      * apply entry_of_incl with (a := done); [|auto].
        intros x Hx. apply in_or_app. now left.
      * apply entry_of_incl with (a := [(k, sensors)]); [|exact H].
        intros x Hx. apply in_or_app. now right.
  - split; [reflexivity | intros e []].
Qed.

(** C9. Every entry of the schedule that [generate_schedule] returns, in
    either mode, belongs to a sensor that the returned assignment gives to
    the entry's drone; its distance is the Euclidean distance
    ([euclidean_distance], the square root of the sum of the squared
    coordinate differences) from that drone's position to the sensor,
    its [collection_time] is
    [distance / 10 + 2] and its [energy_cost] is [distance * 0.1 + 5].
    The schedule has one entry per assigned sensor, and the assignment is
    the one of the selected optimizer. *)
Theorem generate_schedule_costs
        (drone_positions sensor_positions : list node) (algorithm : string)
        (g g' : Random.rng) (schedule : list entry) (assignments : assignment) :
  generate_schedule drone_positions sensor_positions algorithm g
  = Ok ((schedule, assignments), g') ->
  (forall e, In e schedule ->
     exists sensors sensor drone_pos,
       In (drone_id e, sensors) assignments /\ In sensor sensors /\
       pyindex drone_positions (drone_id e) = Ok drone_pos /\
       sensor_id e = node_id sensor /\
       distance e = euclidean_distance (xy drone_pos) (xy sensor) /\
       collection_time e = (distance e / 10 + 2)%R /\
       energy_cost e = (distance e * 0.1 + 5)%R) /\
  length schedule = length (all_sensors assignments) /\
  (if String.eqb algorithm "genetic"
   then genetic_algorithm_optimization drone_positions sensor_positions g
        = Ok (assignments, g')
   else k_means_clustering_assignment drone_positions sensor_positions
        = Ok assignments /\ g' = g).
Proof.
  assert (Hentries : forall a sch,
             (forall e, In e sch -> entry_of drone_positions a e) ->
             forall e, In e sch ->
               exists sensors sensor drone_pos,
                 In (drone_id e, sensors) a /\ In sensor sensors /\
                 pyindex drone_positions (drone_id e) = Ok drone_pos /\
                 sensor_id e = node_id sensor /\
                 distance e
                 = euclidean_distance (xy drone_pos) (xy sensor) /\
                 collection_time e = (distance e / 10 + 2)%R /\
                 energy_cost e = (distance e * 0.1 + 5)%R).
  { intros a sch Hall e He.
    destruct (Hall e He)
      as (sensors & sensor & pos & Hin & Hs & Hp & Hid & Hd & Ht & Hc).
    exists sensors, sensor, pos.
    rewrite <- batch_distance_euclidean. auto 8. }
  unfold generate_schedule, Random.bind. intros H.
  destruct (String.eqb algorithm "genetic").
  - destruct (genetic_algorithm_optimization drone_positions sensor_positions g)
      as [[a g1]|e] eqn:Hga; [|discriminate].
    unfold Random.lift in H.
    pose proof (schedule_of_spec drone_positions a) as Hs.
    destruct (schedule_of drone_positions a) as [sch|e]; [|discriminate].
    unfold Random.ret in H. inversion H; subst. simpl in Hs.
    destruct Hs as [Hlen Hall].
    split; [exact (Hentries _ _ Hall)|]. split; auto.
  - unfold Random.lift in H at 1.
    destruct (k_means_clustering_assignment drone_positions sensor_positions)
      as [a|e]; [|discriminate].
    unfold Random.lift in H.
    pose proof (schedule_of_spec drone_positions a) as Hs.
    destruct (schedule_of drone_positions a) as [sch|e]; [|discriminate].
    unfold Random.ret in H. inversion H; subst. simpl in Hs.
    destruct Hs as [Hlen Hall].
    split; [exact (Hentries _ _ Hall)|]. split; auto.
Qed.

Lemma one_drone_schedule (g : Random.rng) :
  generate_schedule one_drone three_sensors "kmeans" g
  = Ok ((one_drone_entries, [(0%Z, three_sensors)]), g).
Proof.
  unfold generate_schedule, Random.bind.
  replace (String.eqb "kmeans" "genetic") with false by reflexivity.
  rewrite one_drone_takes_all. reflexivity.
Qed.

Lemma generate_schedule_costs_witness :
  Forall (fun e =>
            (exists sensor,
                In sensor three_sensors /\
                distance e = euclidean_distance (0, 0)%R (xy sensor)) /\
            collection_time e = (distance e / 10 + 2)%R /\
            energy_cost e = (distance e * 0.1 + 5)%R)
         one_drone_entries /\
  length one_drone_entries = 3%nat.
Proof.
  destruct (generate_schedule_costs one_drone three_sensors "kmeans"
              zero_draws zero_draws one_drone_entries [(0%Z, three_sensors)]
              (one_drone_schedule zero_draws))
    as (Hall & Hlen & _).
  split; [|exact Hlen].
  apply Forall_forall. intros e He.
  destruct (Hall e He) as (l & s & p & Hin & Hs & Hp & _ & Hd & Htime & Hcost).
  split; [|split; assumption].
  destruct Hin as [Heq | []]. inversion Heq as [[Hid Hl]].
  rewrite <- Hid in Hp. unfold pyindex in Hp. simpl in Hp.
  inversion Hp; subst p. exists s. split; [|exact Hd].
  rewrite Hl. exact Hs.
Defined.

End Schedule.

(** ** Empty position lists *)

Module EmptyInputs.
Import PyDict PyDictFacts BatchOptimizer BatchOptimizerSpec AssignmentFacts.

Lemma schedule_of_no_sensors (drone_positions : list node) (ids : list Z)
      (schedule : list entry) :
  for_each (map (fun i => (i, @nil node)) ids)
           (fun '(drone_idx, sensors) schedule =>
              for_each sensors (schedule_sensor drone_positions drone_idx)
                       schedule)
           schedule
  = Ok schedule.
Proof.
  induction ids as [|i ids IH]; simpl; [reflexivity | exact IH].
Qed.

Lemma populate_raises (n : nat) (make : Random.M assignment)
      (population : list assignment) (g : Random.rng) (e : pyerror) :
  make g = Raise e -> populate (S n) make population g = Raise e.
Proof. intros H. simpl. unfold Random.bind. now rewrite H. Qed.

(** C8, as the code has it. The batch optimizer validates nothing and has
    no error of its own for malformed input. With no sensors the
    nearest-centroid mode returns, without an error, the assignment that
    gives every drone an empty list, and [generate_schedule] an empty
    schedule with it; with no drone and at least one sensor the
    nearest-centroid mode raises ValueError (from [min] of an empty list)
    and the genetic mode raises ValueError (from [randint(0, -1)]), on
    every oracle. *)
Theorem empty_inputs_unchecked :
  (forall drone_positions,
      k_means_clustering_assignment drone_positions []
      = Ok (empty_assignment (len drone_positions))) /\
  (forall drone_positions g,
      generate_schedule drone_positions [] "kmeans" g
      = Ok (([], empty_assignment (len drone_positions)), g)) /\
  (forall sensor sensor_positions,
      k_means_clustering_assignment [] (sensor :: sensor_positions)
      = Raise ValueError) /\
  (forall sensor sensor_positions g,
      genetic_algorithm_optimization [] (sensor :: sensor_positions) g
      = Raise ValueError).
Proof.
  assert (Hk : forall drone_positions,
             k_means_clustering_assignment drone_positions []
             = Ok (empty_assignment (len drone_positions))).
  { intros dp. unfold k_means_clustering_assignment. simpl.
    unfold len. now rewrite length_map. }
  split; [exact Hk|]. split; [|split].
  - intros dp g. unfold generate_schedule, Random.bind.
    replace (String.eqb "kmeans" "genetic") with false by reflexivity.
    rewrite Hk. unfold Random.lift at 1. unfold schedule_of, empty_assignment.
    now rewrite schedule_of_no_sensors.
  - intros s sp. reflexivity.
  - intros s sp g. unfold genetic_algorithm_optimization, initial_population.
    unfold Random.bind at 1. unfold Random.bind at 1.
    unfold population_size. now rewrite populate_raises with (e := ValueError).
Qed.

(** An empty sensor list does not make the optimizer fail: one drone and
    no sensor give the assignment [{0: []}]. *)
Lemma empty_sensor_list_accepted :
  k_means_clustering_assignment one_drone [] = Ok [(0%Z, [])] /\
  ~ (exists e, k_means_clustering_assignment one_drone [] = Raise e).
Proof.
  assert (H : k_means_clustering_assignment one_drone [] = Ok [(0%Z, [])])
    by reflexivity.
  split; [exact H|]. intros [e He]. rewrite H in He. discriminate He.
Qed.

End EmptyInputs.

(** ** The genetic search *)

Module GeneticSearch.
Import PyDict PyDictFacts BatchOptimizer BatchOptimizerSpec AssignmentFacts.

(** *** Sorting by fitness *)

Section Sorting.
Context {A : Type} (key : A -> R).

Lemma insert_desc_perm (x : A) (l : list A) :
  Permutation (insert_desc key x l) (x :: l).
Proof.
  induction l as [|y l IH]; simpl; [reflexivity|].
  destruct (Rltb (key x) (key y)); [|reflexivity].
  rewrite IH. apply perm_swap.
Qed.

Lemma sort_desc_perm (l : list A) : Permutation (sort_desc key l) l.
Proof.
  induction l as [|x l IH]; simpl; [reflexivity|].
  rewrite insert_desc_perm. now constructor.
Qed.

Lemma insert_desc_sorted (x : A) (l : list A) :
  StronglySorted (desc key) l -> StronglySorted (desc key) (insert_desc key x l).
Proof.
  induction l as [|y l IH]; intros Hs; simpl.
  - repeat constructor.
  - inversion Hs as [|? ? Hs' Hall]; subst.
    destruct (Rltb (key x) (key y)) eqn:E.
    + apply Rltb_true in E. constructor; [auto|].
      apply Forall_forall. intros z Hz.
      apply (Permutation_in _ (insert_desc_perm x l)) in Hz.
      destruct Hz as [<- | Hz]; [unfold desc; lra|].
      rewrite Forall_forall in Hall. now apply Hall.
    + apply Rltb_false in E. constructor; [exact Hs|].
      constructor; [exact E|].
      apply Forall_impl with (P := desc key y); [|exact Hall].
      unfold desc. intros z Hz. lra.
Qed.

Lemma sort_desc_sorted (l : list A) : StronglySorted (desc key) (sort_desc key l).
Proof.
  induction l as [|x l IH]; simpl; [constructor|].
  now apply insert_desc_sorted.
Qed.

(** The first element of the sorted list has the greatest key. *)
Lemma sort_desc_head (l : list A) (x : A) (rest : list A) :
  sort_desc key l = x :: rest ->
  In x l /\ forall y, In y l -> (key y <= key x)%R.
Proof.
  intros Hsort.
  pose proof (sort_desc_perm l) as Hperm.
  pose proof (sort_desc_sorted l) as Hs.
  rewrite Hsort in Hperm, Hs. split.
  - apply Permutation_in with (l := x :: rest); [exact Hperm | now left].
  - intros y Hy.
    apply Permutation_in with (l' := x :: rest) in Hy; [|now symmetry].
    inversion Hs as [|? ? _ Hall]; subst.
    destruct Hy as [<- | Hy]; [lra|].
    rewrite Forall_forall in Hall. now apply Hall.
Qed.

Lemma sort_desc_length (l : list A) : length (sort_desc key l) = length l.
Proof. apply Permutation_length, sort_desc_perm. Qed.

End Sorting.

(** *** Fitness of a candidate *)

Lemma pyindex_in_range {A} (l : list A) (k : Z) :
  (0 <= k < len l)%Z -> exists x, pyindex l k = Ok x.
Proof.
  intros Hk. unfold pyindex.
  destruct (k <? 0)%Z eqn:E; [apply Z.ltb_lt in E; lia|]. rewrite E.
  destruct (nth_error l (Z.to_nat k)) as [x|] eqn:Hn; [eauto|].
  apply nth_error_None in Hn. unfold len in Hk. lia.
Qed.

Lemma drone_distance_total (drone_positions : list node) (k : Z)
      (sensors : list node) :
  (sensors <> [] -> (0 <= k < len drone_positions)%Z) ->
  exists d, drone_distance_of drone_positions k sensors = Ok d.
Proof.
  intros Hk. unfold drone_distance_of. generalize 0%R as acc.
  destruct (pyindex drone_positions k) as [p|e] eqn:Hp.
  - induction sensors as [|s sensors IH]; intros acc; simpl; [eauto|].
    apply IH. intros _. apply Hk. discriminate.
  - destruct sensors as [|s sensors]; intros acc; simpl; [eauto|].
    destruct (pyindex_in_range drone_positions k) as [p Hp'];
      [apply Hk; discriminate | congruence].
Qed.

(** A candidate whose keys are drone indexes has a fitness. *)
Lemma fitness_total (drone_positions : list node) (a : assignment) :
  (forall k, In k (keys a) -> (0 <= k < len drone_positions)%Z) ->
  exists f, fitness drone_positions a = Ok f.
Proof.
  intros Hkeys. unfold fitness.
  assert (H : forall acc,
             exists r,
               for_each a
                 (fun '(drone_idx, sensors) '(total_distance, distances) =>
                    (drone_distance <-
                       drone_distance_of drone_positions drone_idx sensors ;;
                     Ok ((total_distance + drone_distance)%R,
                         distances ++ [drone_distance]))%res)
                 acc = Ok r).
  { induction a as [|[k sensors] a IH]; intros acc; simpl; [eauto|].
    destruct (drone_distance_total drone_positions k sensors) as [d Hd].
    { intros _. apply Hkeys. now left. }
    rewrite Hd. destruct acc as [total distances]. simpl.
    apply IH. intros k' Hk'. apply Hkeys. now right. }
  destruct (H (0%R, [])) as [[total distances] Hr]. rewrite Hr. simpl. eauto.
Qed.

Lemma partitions_fitness drone_positions sensor_positions a :
  partitions (len drone_positions) sensor_positions a ->
  exists f, fitness drone_positions a = Ok f.
Proof.
  intros [Hkeys _]. apply fitness_total. intros k Hk.
  rewrite Hkeys in Hk. now apply in_range in Hk.
Qed.

Lemma fitness_scores_spec (drone_positions : list node)
      (population : list assignment) :
  Forall (fun a => exists f, fitness drone_positions a = Ok f) population ->
  exists scores,
    fitness_scores drone_positions population = Ok scores /\
    map fst scores = population /\
    forall a f, In (a, f) scores -> fitness drone_positions a = Ok f.
Proof.
  induction population as [|a pop IH]; intros Hall; simpl.
  - exists []. repeat split. intros a f [].
  - inversion Hall as [|? ? [f Hf] Hall']; subst.
    destruct (IH Hall') as (scores & Hs & Hmap & Hfit).
    rewrite Hf, Hs. simpl. exists ((a, f) :: scores).
    repeat split; [simpl; now rewrite Hmap|].
    intros a' f' [[= <- <-] | Hin]; auto.
Qed.

Lemma In_firstn {A} (n : nat) (l : list A) (x : A) :
  In x (firstn n l) -> In x l.
Proof.
  revert l. induction n as [|n IH]; intros [|y l]; simpl; try contradiction.
  intros [<- | H]; [now left | right; auto].
Qed.

(** The candidate that the sort puts first has the greatest fitness. *)
Lemma best_candidate (drone_positions : list node)
      (population : list assignment) :
  population <> [] ->
  Forall (fun a => exists f, fitness drone_positions a = Ok f) population ->
  exists scores a f rest,
    fitness_scores drone_positions population = Ok scores /\
    map fst scores = population /\
    sort_desc snd scores = (a, f) :: rest /\
    In a population /\ fitness drone_positions a = Ok f /\
    best_fitness drone_positions population f.
Proof.
  intros Hne Hall.
  destruct (fitness_scores_spec drone_positions population Hall)
    as (scores & Hs & Hmap & Hfit).
  destruct (sort_desc snd scores) as [|[a f] rest] eqn:Hsort.
  - exfalso. apply Hne. rewrite <- Hmap.
    pose proof (sort_desc_length snd scores) as Hlen. rewrite Hsort in Hlen.
    destruct scores; [reflexivity | discriminate].
  - destruct (sort_desc_head snd scores _ _ Hsort) as [Hin Hmax].
    assert (Hina : In a population).
    { rewrite <- Hmap. apply in_map_iff. now exists (a, f). }
    exists scores, a, f, rest. repeat split; auto.
    + exists a. auto.
    + intros a' f' Hin' Hf'.
      rewrite <- Hmap in Hin'. apply in_map_iff in Hin' as ([a0 f0] & <- & Hin0).
      simpl in Hf'. rewrite (Hfit _ _ Hin0) in Hf'. inversion Hf'; subst.
      apply (Hmax (a0, f')). exact Hin0.
Qed.

(** *** The steps of the search keep candidates partitions *)

Lemma wp_populate (Q : assignment -> Prop) E (make : Random.M assignment) :
  wp make Q E ->
  forall k population,
    Forall Q population ->
    wp (populate k make population)
       (fun population' =>
          Forall Q population' /\
          exists children, population' = population ++ children /\
                           length children = k)
       E.
Proof.
  intros Hmake. induction k as [|k IH]; intros pop Hpop; simpl.
  - apply wp_ret. split; [exact Hpop|]. exists []. now rewrite app_nil_r.
  - apply wp_bind. apply wp_conseq with (1 := Hmake). intros a Ha.
    apply wp_conseq with (Q := fun population' =>
          Forall Q population' /\
          exists children, population' = (pop ++ [a]) ++ children /\
                           length children = k).
    + apply IH. apply Forall_app. split; [exact Hpop | now constructor].
    + intros pop' [Hall (children & -> & Hlen)]. split; [exact Hall|].
      exists (a :: children). rewrite <- app_assoc. simpl. now rewrite Hlen.
Qed.

Lemma refill_unfold (fuel : nat) (make : Random.M assignment)
      (new_population : list assignment) :
  refill fuel make new_population
  = if (length new_population <? population_size)%nat
    then match fuel with
         | O => Random.ret new_population
         | S fuel' =>
             Random.bind make
               (fun child => refill fuel' make (new_population ++ [child]))
         end
    else Random.ret new_population.
Proof. destruct fuel; reflexivity. Qed.

(** The [while] loop stops with a full population and fuel to spare. *)
Lemma wp_refill (Q : assignment -> Prop) E (make : Random.M assignment) :
  wp make Q E ->
  forall fuel population,
    Forall Q population ->
    (population_size <= length population + fuel)%nat ->
    wp (refill fuel make population)
       (fun population' =>
          Forall Q population' /\
          length population' = Nat.max (length population) population_size /\
          exists children, population' = population ++ children)
       E.
Proof.
  intros Hmake. induction fuel as [|fuel IH]; intros pop Hpop Hfuel;
    rewrite refill_unfold;
    destruct (Nat.ltb_spec (length pop) population_size) as [Hlt | Hlt].
  - lia.
  - apply wp_ret. split; [exact Hpop|]. split; [lia|].
    exists []. now rewrite app_nil_r.
  - apply wp_bind. apply wp_conseq with (1 := Hmake). intros a Ha.
    apply wp_conseq with (Q := fun population' =>
          Forall Q population' /\
          length population'
          = Nat.max (length (pop ++ [a])) population_size /\
          exists children, population' = (pop ++ [a]) ++ children).
    + apply IH.
      * apply Forall_app. split; [exact Hpop | now constructor].
      * rewrite length_app. simpl. lia.
    + intros pop' (Hall & Hlen & children & ->). split; [exact Hall|].
      split.
      * rewrite Hlen, length_app. simpl. lia.
      * exists (a :: children). now rewrite <- app_assoc.
  - apply wp_ret. split; [exact Hpop|]. split; [lia|].
    exists []. now rewrite app_nil_r.
Qed.

Lemma contains_true (sensors : list node) (sensor : node) :
  contains sensors sensor = true <-> In sensor sensors.
Proof.
  unfold contains. destruct (in_dec node_eq_dec sensor sensors);
    split; intros; try easy.
Qed.

Lemma find_owner_spec (a : assignment) (sensor : node) :
  In sensor (all_sensors a) ->
  exists k, find_owner a sensor = Some k /\ In k (keys a).
Proof.
  unfold all_sensors. induction a as [|[k l] a IH]; simpl; [contradiction|].
  intros Hin. destruct (contains l sensor) eqn:E.
  - exists k. split; [reflexivity | now left].
  - apply in_app_or in Hin as [Hin | Hin].
    + apply contains_true in Hin. congruence.
    + destruct (IH Hin) as (k' & Hk' & Hin'). exists k'. auto.
Qed.

Lemma remove_first_perm (sensor : node) (sensors : list node) :
  In sensor sensors ->
  Permutation (sensor :: remove_first sensor sensors) sensors.
Proof.
  induction sensors as [|s l IH]; simpl; [contradiction|].
  intros Hin. destruct (node_eq_dec s sensor) as [->|Hne]; [reflexivity|].
  destruct Hin as [Heq | Hin]; [contradiction|].
  rewrite perm_swap. constructor. now apply IH.
Qed.

Lemma remove_from_owner_spec (a : assignment) (sensor : node) :
  In sensor (all_sensors a) ->
  keys (remove_from_owner a sensor) = keys a /\
  Permutation (sensor :: all_sensors (remove_from_owner a sensor))
              (all_sensors a).
Proof.
  unfold all_sensors. induction a as [|[k l] a IH]; simpl; [contradiction|].
  intros Hin. destruct (contains l sensor) eqn:E; simpl.
  - split; [reflexivity|]. apply contains_true in E.
    apply (Permutation_app_tail _ (remove_first_perm sensor l E)).
  - apply in_app_or in Hin as [Hin | Hin].
    + apply contains_true in Hin. congruence.
    + destruct (IH Hin) as [Hk Hp]. split; [now rewrite Hk|].
      rewrite <- Hp. apply Permutation_middle.
Qed.

Section Steps.
Variables drone_positions sensor_positions : list node.

Let n : Z := len drone_positions.
Let E : pyerror -> Prop := genetic_error drone_positions sensor_positions.

Lemma no_drone_error (sensor : node) :
  In sensor sensor_positions -> (n - 1 < 0)%Z -> E ValueError.
Proof.
  intros Hin Hn. left. split; [reflexivity|]. split.
  - unfold n, len in Hn. destruct drone_positions; [reflexivity|].
    cbn [length] in Hn. lia.
  - intros Heq. rewrite Heq in Hin. contradiction.
Qed.

Lemma random_assignment_spec :
  wp (random_assignment drone_positions sensor_positions)
     (partitions n sensor_positions) E.
Proof.
  unfold random_assignment.
  apply (wp_for_each_rand_done
           (fun done a => keys a = range n /\
                          Permutation (all_sensors a) done)).
  - intros done s a Hs [Hkeys Hperm].
    apply wp_bind. apply wp_randint.
    + now apply no_drone_error with (sensor := s).
    + intros k Hk. apply wp_lift.
      destruct (append_to_spec a k s) as (a' & -> & Hkeys' & Hperm' & _).
      { rewrite Hkeys. apply in_range. fold n in Hk. lia. }
      simpl. split; [congruence|].
      rewrite Hperm', Hperm. apply Permutation_cons_append.
  - split; [apply empty_assignment_keys|].
    rewrite empty_assignment_sensors. constructor.
Qed.

Lemma crossover_spec (parent1 parent2 : assignment) :
  partitions n sensor_positions parent1 ->
  partitions n sensor_positions parent2 ->
  wp (for_each_rand sensor_positions (inherit parent1 parent2)
                    (empty_assignment n))
     (partitions n sensor_positions) E.
Proof.
  intros [Hk1 Hp1] [Hk2 Hp2].
  apply (wp_for_each_rand_done
           (fun done a => keys a = range n /\
                          Permutation (all_sensors a) done)).
  - intros done s child Hs [Hkeys Hperm]. unfold inherit.
    apply wp_bind. apply wp_random. intros r.
    assert (Hown : forall parent,
               keys parent = range n ->
               Permutation (all_sensors parent) sensor_positions ->
               exists k, find_owner parent s = Some k /\ In k (range n)).
    { intros parent Hk Hp. destruct (find_owner_spec parent s) as (k & Hf & Hin).
      - apply Permutation_in with (l := sensor_positions);
          [now symmetry | exact Hs].
      - exists k. rewrite <- Hk. auto. }
    assert (Hfound : exists k,
               find_owner (if Rltb r 0.5 then parent1 else parent2) s = Some k
               /\ In k (range n))
      by (destruct (Rltb r 0.5); auto).
    destruct Hfound as (k & -> & Hin).
    apply wp_lift.
    destruct (append_to_spec child k s) as (a' & -> & Hkeys' & Hperm' & _).
    { now rewrite Hkeys. }
    simpl. split; [congruence|].
    rewrite Hperm', Hperm. apply Permutation_cons_append.
  - split; [apply empty_assignment_keys|].
    rewrite empty_assignment_sensors. constructor.
Qed.

Lemma mutate_spec (child : assignment) :
  partitions n sensor_positions child ->
  wp (mutate drone_positions sensor_positions child)
     (partitions n sensor_positions) E.
Proof.
  intros [Hkeys Hperm]. unfold mutate.
  apply wp_bind. apply wp_random. intros r.
  destruct (Rltb r mutation_rate); [|apply wp_ret; now split].
  apply wp_bind. apply wp_choice.
  - intros Hnil. right. auto.
  - intros s Hs.
    destruct (remove_from_owner_spec child s) as [Hkeys' Hperm'].
    { apply Permutation_in with (l := sensor_positions);
        [now symmetry | exact Hs]. }
    apply wp_bind. apply wp_randint.
    + now apply no_drone_error with (sensor := s).
    + intros k Hk. apply wp_lift.
      destruct (append_to_spec (remove_from_owner child s) k s)
        as (a' & -> & Hkeys'' & Hperm'' & _).
      { rewrite Hkeys', Hkeys. apply in_range. fold n in Hk. lia. }
      simpl. split; [congruence|].
      now rewrite Hperm'', Hperm'.
Qed.

Lemma breed_spec (survivors : list assignment) :
  survivors <> [] ->
  Forall (partitions n sensor_positions) survivors ->
  wp (breed drone_positions sensor_positions survivors)
     (partitions n sensor_positions) E.
Proof.
  intros Hne Hall. rewrite Forall_forall in Hall. unfold breed.
  apply wp_bind. apply wp_choice; [congruence|]. intros parent1 H1.
  apply wp_bind. apply wp_choice; [congruence|]. intros parent2 H2.
  apply wp_bind.
  apply wp_conseq with (1 := crossover_spec parent1 parent2
                               (Hall _ H1) (Hall _ H2)).
  intros child Hchild. now apply mutate_spec.
Qed.

Lemma partitions_have_fitness (population : list assignment) :
  Forall (partitions n sensor_positions) population ->
  Forall (fun a => exists f, fitness drone_positions a = Ok f) population.
Proof.
  apply Forall_impl. intros a Ha.
  now apply partitions_fitness with (sensor_positions := sensor_positions).
Qed.

Lemma half_population :
  (population_size / 2 = 25)%nat /\ population_size = 50%nat.
Proof. split; reflexivity. Qed.

(** One generation: the better half is carried forward as it is, the
    rest is bred from it, and the greatest fitness does not drop. *)
Lemma next_generation_spec (population : list assignment) :
  Forall (partitions n sensor_positions) population ->
  length population = population_size ->
  wp (next_generation drone_positions sensor_positions population)
     (fun population' =>
        Forall (partitions n sensor_positions) population' /\
        length population' = population_size /\
        (exists scores,
            fitness_scores drone_positions population = Ok scores /\
            firstn (population_size / 2) population'
            = map fst (firstn (population_size / 2) (sort_desc snd scores))) /\
        (forall a, In a (firstn (population_size / 2) population') ->
                   In a population) /\
        (forall f, best_fitness drone_positions population f ->
                   exists f', best_fitness drone_positions population' f' /\
                              (f <= f')%R))
     E.
Proof.
  intros Hall Hlen. destruct half_population as [Hhalf Hsize].
  assert (Hne : population <> [])
    by (intros ->; rewrite Hsize in Hlen; discriminate).
  destruct (best_candidate drone_positions population Hne
                           (partitions_have_fitness population Hall))
    as (scores & a0 & f0 & rest & Hs & Hmap & Hsort & Hin0 & Hf0 & Hbest0).
  unfold next_generation. apply wp_bind, wp_lift. rewrite Hs. unfold post.
  set (survivors := map fst (firstn (population_size / 2)
                                    (sort_desc snd scores))).
  assert (Hsub : forall a, In a survivors -> In a population).
  { intros a Ha. unfold survivors in Ha.
    apply in_map_iff in Ha as ([a' f'] & <- & Ha).
    apply In_firstn in Ha.
    apply (Permutation_in _ (sort_desc_perm snd scores)) in Ha.
    rewrite <- Hmap. apply in_map_iff. now exists (a', f'). }
  assert (Hsl : length survivors = 25%nat).
  { unfold survivors. rewrite length_map, length_firstn, sort_desc_length.
    rewrite <- (length_map fst scores), Hmap, Hlen, Hhalf, Hsize.
    reflexivity. }
  assert (Hhead : In a0 survivors).
  { unfold survivors. rewrite Hsort, Hhalf. simpl. now left. }
  assert (Hsurv : Forall (partitions n sensor_positions) survivors).
  { apply Forall_forall. intros a Ha. rewrite Forall_forall in Hall. auto. }
  assert (Hsne : survivors <> []) by (intros Heq; now rewrite Heq in Hhead).
  assert (Hfuel : (population_size <= length survivors + population_size)%nat)
    by lia.
  apply wp_conseq with
    (1 := wp_refill (partitions n sensor_positions) E _
            (breed_spec survivors Hsne Hsurv)
            population_size survivors Hsurv Hfuel).
  intros pop' (Hall' & Hplen & children & ->).
  assert (Hfirst : firstn (population_size / 2) (survivors ++ children)
                   = survivors).
  { rewrite Hhalf, <- Hsl.
    replace (length survivors) with (length survivors + 0)%nat by lia.
    rewrite firstn_app_2. simpl. apply app_nil_r. }
  split; [exact Hall'|]. split; [|split; [|split]].
  - rewrite Hplen, Hsl, Hsize. reflexivity.
  - exists scores. split; [reflexivity | exact Hfirst].
  - intros a Ha. rewrite Hfirst in Ha. auto.
  - intros f Hf.
    assert (Hne' : survivors ++ children <> [])
      by (destruct survivors; [congruence | discriminate]).
    destruct (best_candidate drone_positions (survivors ++ children) Hne'
                             (partitions_have_fitness _ Hall'))
      as (_ & _ & f' & _ & _ & _ & _ & _ & _ & Hbest').
    exists f'. split; [exact Hbest'|].
    destruct Hf as [(a & Ha & Hfa) Hmax].
    destruct Hbest0 as [_ Hmax0]. destruct Hbest' as [_ Hmax'].
    specialize (Hmax0 a f Ha Hfa).
    assert ((f0 <= f')%R)
      by (apply (Hmax' a0); [apply in_or_app; now left | exact Hf0]).
    lra.
Qed.

Lemma evolve_spec (k : nat) :
  forall population,
    Forall (partitions n sensor_positions) population ->
    length population = population_size ->
    wp (evolve k drone_positions sensor_positions population)
       (fun population' =>
          Forall (partitions n sensor_positions) population' /\
          length population' = population_size)
       E.
Proof.
  induction k as [|k IH]; intros pop Hall Hlen; simpl.
  - apply wp_ret. now split.
  - apply wp_bind.
    apply wp_conseq with (1 := next_generation_spec pop Hall Hlen).
    intros pop' (Hall' & Hlen' & _). now apply IH.
Qed.

Lemma initial_population_spec :
  wp (initial_population drone_positions sensor_positions)
     (fun population =>
        Forall (partitions n sensor_positions) population /\
        length population = population_size)
     E.
Proof.
  unfold initial_population.
  apply wp_conseq with
    (1 := wp_populate (partitions n sensor_positions) E _
            random_assignment_spec population_size [] (Forall_nil _)).
  intros pop [Hall (children & -> & Hlen)]. split; [exact Hall|].
  exact Hlen.
Qed.

Lemma population_after_spec (k : nat) :
  wp (population_after k drone_positions sensor_positions)
     (fun population =>
        Forall (partitions n sensor_positions) population /\
        length population = population_size)
     E.
Proof.
  unfold population_after. apply wp_bind.
  apply wp_conseq with (1 := initial_population_spec).
  intros pop [Hall Hlen]. now apply evolve_spec.
Qed.

(** The returned candidate is one of greatest fitness. *)
Lemma best_of_spec (population : list assignment) :
  Forall (partitions n sensor_positions) population ->
  length population = population_size ->
  exists a f,
    best_of drone_positions population = Ok a /\
    In a population /\ fitness drone_positions a = Ok f /\
    best_fitness drone_positions population f.
Proof.
  intros Hall Hlen. destruct half_population as [_ Hsize].
  assert (Hne : population <> [])
    by (intros ->; rewrite Hsize in Hlen; discriminate).
  destruct (best_candidate drone_positions population Hne
                           (partitions_have_fitness population Hall))
    as (scores & a & f & rest & Hs & _ & Hsort & Hin & Hf & Hbest).
  exists a, f. unfold best_of. rewrite Hs. cbn [result_bind].
  rewrite Hsort. split; [reflexivity|]. split; [exact Hin|].
  split; [exact Hf | exact Hbest].
Qed.

End Steps.

(** The generations of a run follow one another, and the search returns
    the best candidate of the last one. *)
Lemma evolve_succ (drone_positions sensor_positions : list node) (k : nat) :
  forall population g,
    evolve (S k) drone_positions sensor_positions population g
    = match evolve k drone_positions sensor_positions population g with
      | Ok (population', g') =>
          next_generation drone_positions sensor_positions population' g'
      | Raise e => Raise e
      end.
Proof.
  induction k as [|k IH]; intros pop g.
  - simpl. unfold Random.bind, Random.ret.
    destruct (next_generation drone_positions sensor_positions pop g)
      as [[p g']|e]; reflexivity.
  - change (evolve (S (S k)) drone_positions sensor_positions pop g)
      with (Random.bind
              (next_generation drone_positions sensor_positions pop)
              (evolve (S k) drone_positions sensor_positions) g).
    change (evolve (S k) drone_positions sensor_positions pop g)
      with (Random.bind
              (next_generation drone_positions sensor_positions pop)
              (evolve k drone_positions sensor_positions) g).
    unfold Random.bind.
    destruct (next_generation drone_positions sensor_positions pop g)
      as [[p g']|e]; [apply IH | reflexivity].
Qed.

Lemma population_after_succ (drone_positions sensor_positions : list node)
      (k : nat) (g : Random.rng) :
  population_after (S k) drone_positions sensor_positions g
  = match population_after k drone_positions sensor_positions g with
    | Ok (population, g') =>
        next_generation drone_positions sensor_positions population g'
    | Raise e => Raise e
    end.
Proof.
  unfold population_after, Random.bind.
  destruct (initial_population drone_positions sensor_positions g)
    as [[pop g0]|e]; [apply evolve_succ | reflexivity].
Qed.

Lemma search_returns_best_of_last (drone_positions sensor_positions : list node)
      (g : Random.rng) :
  genetic_algorithm_optimization drone_positions sensor_positions g
  = match population_after generations drone_positions sensor_positions g with
    | Ok (population, g') =>
        Random.lift (best_of drone_positions population) g'
    | Raise e => Raise e
    end.
Proof.
  unfold genetic_algorithm_optimization, population_after, Random.bind.
  destruct (initial_population drone_positions sensor_positions g)
    as [[pop g0]|e]; reflexivity.
Qed.

Lemma genetic_error_excluded (drone_positions sensor_positions : list node)
      (e : pyerror) :
  drone_positions <> [] -> sensor_positions <> [] ->
  ~ genetic_error drone_positions sensor_positions e.
Proof. intros Hd Hs [(_ & H & _) | (_ & H)]; contradiction. Qed.

End GeneticSearch.

(** *** Coverage and fitness over the generations *)

Module GeneticClaims.
Import PyDict PyDictFacts BatchOptimizer BatchOptimizerSpec AssignmentFacts.
Import GeneticSearch.

(** C4. On every oracle, the population after any number of generations
    (the initial one included) has [population_size] candidates and each
    of them is a partition of the sensor list over the drone indexes:
    its lists together hold the sensors of the input, each exactly once
    when the sensors are pairwise different. Crossover of two partitions
    gives a partition and mutation of a partition gives a partition. The
    candidate that the search returns is such a partition. The only
    exceptions the search can raise are ValueError when there is a sensor
    but no drone and IndexError when there is no sensor; with at least one
    drone and one sensor every generation exists and the search returns. *)
Theorem genetic_search_partitions
        (drone_positions sensor_positions : list node) (g : Random.rng) :
  (forall k,
      post (population_after k drone_positions sensor_positions g)
           (fun pg =>
              length (fst pg) = population_size /\
              Forall (partitions (len drone_positions) sensor_positions)
                     (fst pg) /\
              (NoDup sensor_positions ->
               forall a s, In a (fst pg) -> In s sensor_positions ->
                           held_once a s))
           (genetic_error drone_positions sensor_positions)) /\
  (forall parent1 parent2,
      partitions (len drone_positions) sensor_positions parent1 ->
      partitions (len drone_positions) sensor_positions parent2 ->
      wp (for_each_rand sensor_positions (inherit parent1 parent2)
                        (empty_assignment (len drone_positions)))
         (partitions (len drone_positions) sensor_positions)
         (genetic_error drone_positions sensor_positions)) /\
  (forall child,
      partitions (len drone_positions) sensor_positions child ->
      wp (mutate drone_positions sensor_positions child)
         (partitions (len drone_positions) sensor_positions)
         (genetic_error drone_positions sensor_positions)) /\
  post (genetic_algorithm_optimization drone_positions sensor_positions g)
       (fun ag =>
          partitions (len drone_positions) sensor_positions (fst ag) /\
          (NoDup sensor_positions ->
           forall s, In s sensor_positions -> held_once (fst ag) s))
       (genetic_error drone_positions sensor_positions) /\
  (drone_positions <> [] -> sensor_positions <> [] ->
   (forall k, exists population g',
         population_after k drone_positions sensor_positions g
         = Ok (population, g')) /\
   exists best g',
     genetic_algorithm_optimization drone_positions sensor_positions g
     = Ok (best, g')).
Proof.
  assert (Hpop : forall k,
             post (population_after k drone_positions sensor_positions g)
                  (fun pg =>
                     length (fst pg) = population_size /\
                     Forall (partitions (len drone_positions) sensor_positions)
                            (fst pg) /\
                     (NoDup sensor_positions ->
                      forall a s, In a (fst pg) -> In s sensor_positions ->
                                  held_once a s))
                  (genetic_error drone_positions sensor_positions)).
  { intros k.
    pose proof (population_after_spec drone_positions sensor_positions k g)
      as H.
    destruct (population_after k drone_positions sensor_positions g)
      as [[pop g']|e]; simpl in *; [|exact H].
    destruct H as [Hall Hlen]. split; [exact Hlen|]. split; [exact Hall|].
    intros Hnd a s Ha Hs. rewrite Forall_forall in Hall.
    exact (partitions_held_once _ _ _ (Hall a Ha) Hnd s Hs). }
  assert (Hga : post (genetic_algorithm_optimization drone_positions
                                                     sensor_positions g)
                     (fun ag =>
                        partitions (len drone_positions) sensor_positions
                                   (fst ag) /\
                        (NoDup sensor_positions ->
                         forall s, In s sensor_positions ->
                                   held_once (fst ag) s))
                     (genetic_error drone_positions sensor_positions)).
  { rewrite search_returns_best_of_last.
    pose proof (population_after_spec drone_positions sensor_positions
                                      generations g) as H.
    destruct (population_after generations drone_positions sensor_positions g)
      as [[pop g']|e]; simpl in *; [|exact H].
    destruct H as [Hall Hlen].
    destruct (best_of_spec drone_positions sensor_positions pop Hall Hlen)
      as (a & f & Hbest & Hin & _).
    unfold Random.lift. rewrite Hbest. simpl.
    rewrite Forall_forall in Hall. split; [now apply Hall|].
    intros Hnd s Hs. exact (partitions_held_once _ _ _ (Hall a Hin) Hnd s Hs). }
  split; [exact Hpop|]. split; [|split; [|split; [exact Hga|]]].
  - intros p1 p2. apply crossover_spec.
  - intros child. apply mutate_spec.
  - intros Hd Hs. split.
    + intros k. specialize (Hpop k).
      destruct (population_after k drone_positions sensor_positions g)
        as [[pop g']|e]; simpl in Hpop; [eauto|].
      now apply genetic_error_excluded in Hpop.
    + destruct (genetic_algorithm_optimization drone_positions
                                               sensor_positions g)
        as [[a g']|e]; simpl in Hga; [eauto|].
      now apply genetic_error_excluded in Hga.
Qed.

(** C5. With at least one drone and one sensor, on every oracle: each
    generation exists, the first half of the next population is the better
    half of the current one in the order of the fitness sort, and the
    greatest fitness of the next population is at least the greatest
    fitness of the current one; after [generations] turns the search
    returns a candidate of the last population whose fitness is the
    greatest of that population. *)
Theorem genetic_search_monotone
        (drone_positions sensor_positions : list node) (g : Random.rng) :
  drone_positions <> [] -> sensor_positions <> [] ->
  (forall k,
      exists population g_k population' g_k' scores f f',
        population_after k drone_positions sensor_positions g
        = Ok (population, g_k) /\
        next_generation drone_positions sensor_positions population g_k
        = Ok (population', g_k') /\
        population_after (S k) drone_positions sensor_positions g
        = Ok (population', g_k') /\
        fitness_scores drone_positions population = Ok scores /\
        firstn (population_size / 2) population'
        = map fst (firstn (population_size / 2) (sort_desc snd scores)) /\
        best_fitness drone_positions population f /\
        best_fitness drone_positions population' f' /\
        (f <= f')%R) /\
  exists population g' best f,
    population_after generations drone_positions sensor_positions g
    = Ok (population, g') /\
    genetic_algorithm_optimization drone_positions sensor_positions g
    = Ok (best, g') /\
    In best population /\
    fitness drone_positions best = Ok f /\
    best_fitness drone_positions population f.
Proof.
  intros Hd Hs.
  assert (Hafter : forall k,
             exists population g',
               population_after k drone_positions sensor_positions g
               = Ok (population, g') /\
               Forall (partitions (len drone_positions) sensor_positions)
                      population /\
               length population = population_size).
  { intros k.
    pose proof (population_after_spec drone_positions sensor_positions k g)
      as H.
    destruct (population_after k drone_positions sensor_positions g)
      as [[pop g']|e]; simpl in H; [eauto|].
    now apply genetic_error_excluded in H. }
  split.
  - intros k. destruct (Hafter k) as (pop & gk & Hk & Hall & Hlen).
    pose proof (next_generation_spec drone_positions sensor_positions
                                     pop Hall Hlen gk) as Hnext.
    destruct (next_generation drone_positions sensor_positions pop gk)
      as [[pop' gk']|e] eqn:Hstep; simpl in Hnext;
      [|now apply genetic_error_excluded in Hnext].
    destruct Hnext as (Hall' & Hlen' & (scores & Hscores & Hfirst) & _ & Hmono).
    assert (Hne : pop <> []).
    { intros ->. destruct (half_population) as [_ Hsize].
      rewrite Hsize in Hlen. discriminate. }
    destruct (best_candidate drone_positions pop Hne
                (partitions_have_fitness drone_positions sensor_positions
                                         pop Hall))
      as (_ & _ & f & _ & _ & _ & _ & _ & _ & Hbest).
    destruct (Hmono f Hbest) as (f' & Hbest' & Hle).
    exists pop, gk, pop', gk', scores, f, f'.
    repeat (split; [assumption|]).
    split; [|auto].
    rewrite population_after_succ, Hk. exact Hstep.
  - destruct (Hafter generations) as (pop & g' & Hk & Hall & Hlen).
    destruct (best_of_spec drone_positions sensor_positions pop Hall Hlen)
      as (a & f & Hbest & Hin & Hf & Hmax).
    exists pop, g', a, f. split; [exact Hk|].
    split; [|auto].
    rewrite search_returns_best_of_last, Hk. unfold Random.lift.
    now rewrite Hbest.
Qed.

Lemma genetic_search_monotone_witness :
  exists population g' best f,
    population_after generations one_drone three_sensors zero_draws
    = Ok (population, g') /\
    genetic_algorithm_optimization one_drone three_sensors zero_draws
    = Ok (best, g') /\
    In best population /\
    fitness one_drone best = Ok f /\
    best_fitness one_drone population f.
Proof.
  apply (genetic_search_monotone one_drone three_sensors zero_draws);
    discriminate.
Defined.

End GeneticClaims.

(** * Further properties of the registry and the online scheduler *)

Module RegistryRunsFacts.
Import PyDict PyDictFacts TaskScheduling TaskSchedulingSpec.
Import TaskSchedulingFacts RegistryInit Registry RegistryRuns.

Lemma run_invariant (P : DroneTaskScheduler -> Prop) :
  (forall s op, P s -> P (apply s op)) ->
  forall ops s, P s -> P (run s ops).
Proof.
  intros Hstep. unfold run.
  induction ops as [|op ops IH]; intros s Hs; simpl; [exact Hs|].
  apply IH. now apply Hstep.
Qed.

(** What one operation does: nothing, an assignment, or a recharge. *)
Lemma apply_cases (self : DroneTaskScheduler) (op : operation) :
  apply self op = self \/
  (exists sid t d sp p0 b,
      op = Schedule sid t /\
      schedule_task self sid t
      = Ok (Some d, after_assignment self sid sp t d p0 b) /\
      apply self op = after_assignment self sid sp t d p0 b /\
      get (sensor_positions self) sid = Some sp /\
      get (drone_positions self) d = Some p0 /\
      get (drone_battery self) d = Some b /\ (20 < b)%R) \/
  (exists d b,
      op = Recharge d /\ get (drone_battery self) d = Some b /\
      apply self op
      = with_drone_battery self
          (set (drone_battery self) d (py_min 100 (b + 20))%R)).
Proof.
  destruct op as [sid t | d]; simpl.
  - destruct (schedule_task self sid t) as [[r self']|e] eqn:Hcall;
      [|now left].
    destruct (schedule_task_inv _ _ _ _ _ Hcall)
      as [(_ & ->) | (d & sp & l1 & p & l2 & c & p0 & b & -> & _ & Hsp & _ & Hel & _ & _ & Hp0 & Hb & ->)];
      [now left|].
    right. left. exists sid, t, d, sp, p0, b.
    destruct Hel as (b' & Hb' & H20 & _). simpl in Hb'.
    rewrite Hb in Hb'. inversion Hb'; subst b'.
    repeat split; auto.
  - unfold recharge_drone.
    destruct (get (drone_battery self) d) as [b|] eqn:Hb; [|now left].
    right. right. exists d, b. auto.
Qed.

Lemma recharges_succ k self d :
  recharges (S k) self d = recharge_drone (recharges k self d) d.
Proof. reflexivity. Qed.

Lemma recharge_level self d b :
  get (drone_battery self) d = Some b ->
  get (drone_battery (recharge_drone self d)) d
  = Some (Rmin 100 (b + 20))%R.
Proof.
  intros Hb. unfold recharge_drone. rewrite Hb. simpl.
  now rewrite get_set_same, py_min_Rmin.
Qed.

Lemma recharge_frame self d :
  drone_positions (recharge_drone self d) = drone_positions self /\
  sensor_positions (recharge_drone self d) = sensor_positions self /\
  assigned_tasks (recharge_drone self d) = assigned_tasks self /\
  forall d', d' <> d ->
             get (drone_battery (recharge_drone self d)) d'
             = get (drone_battery self) d'.
Proof.
  unfold recharge_drone.
  destruct (get (drone_battery self) d) as [b|]; simpl; repeat split; auto.
  intros d' Hne. now apply get_set_other.
Qed.

(** X1. Recharging an unknown drone changes nothing. Recharging a known
    drone [k >= 1] times in a row sets its battery to
    [min(100, battery + 20 k)], so five recharges fill any battery that is
    not negative and further recharges keep it at 100; positions, sensors,
    histories and the other batteries are as before. *)
Theorem recharge_converges (self : DroneTaskScheduler) (d : Z) (k : nat) :
  (get (drone_battery self) d = None -> recharges k self d = self) /\
  (forall b,
      get (drone_battery self) d = Some b -> (1 <= k)%nat ->
      get (drone_battery (recharges k self d)) d
      = Some (Rmin 100 (b + 20 * INR k))%R /\
      ((0 <= b)%R -> (5 <= k)%nat ->
       get (drone_battery (recharges k self d)) d = Some 100%R)) /\
  drone_positions (recharges k self d) = drone_positions self /\
  sensor_positions (recharges k self d) = sensor_positions self /\
  assigned_tasks (recharges k self d) = assigned_tasks self /\
  (forall d', d' <> d ->
              get (drone_battery (recharges k self d)) d'
              = get (drone_battery self) d').
Proof.
  split; [|split].
  - intros Hnone. induction k as [|k IH]; [reflexivity|].
    rewrite recharges_succ, IH. unfold recharge_drone. now rewrite Hnone.
  - intros b Hb Hk.
    assert (Hlevel : get (drone_battery (recharges k self d)) d
                     = Some (Rmin 100 (b + 20 * INR k))%R).
    { destruct k as [|k]; [lia|]. clear Hk.
      induction k as [|k IH].
      - simpl recharges. rewrite (recharge_level self d b Hb).
        f_equal. f_equal. simpl. lra.
      - rewrite recharges_succ, (recharge_level _ d _ IH).
        f_equal. rewrite (S_INR (S k)). set (x := INR (S k)).
        destruct (Rle_lt_dec 100 (b + 20 * x)) as [Hfull | Hpart].
        + rewrite (Rmin_left 100 (b + 20 * x)) by lra.
          rewrite !Rmin_left by lra. reflexivity.
        + rewrite (Rmin_right 100 (b + 20 * x)) by lra.
          f_equal. lra. }
    split; [exact Hlevel|].
    intros Hb0 Hk5. rewrite Hlevel. f_equal.
    assert (5 <= INR k)%R by (apply le_INR in Hk5; simpl in Hk5; lra).
    unfold Rmin. destruct (Rle_dec 100 (b + 20 * INR k)); lra.
  - induction k as [|k IH]; [repeat split; reflexivity|].
    rewrite recharges_succ.
    destruct (recharge_frame (recharges k self d) d) as (Hp & Hs & Ht & Hb).
    destruct IH as (IHp & IHs & IHt & IHb).
    repeat split; try congruence.
    intros d' Hne. rewrite Hb by assumption. now apply IHb.
Qed.

(** The levels that are multiples of 5 in [20, 100] are closed under both
    operations. *)
Lemma apply_levels self op :
  (forall d b, get (drone_battery self) d = Some b -> level_of_five b) ->
  forall d b, get (drone_battery (apply self op)) d = Some b ->
              level_of_five b.
Proof.
  intros Hall.
  assert (Hset : forall d0 v,
             level_of_five v ->
             forall d b, get (set (drone_battery self) d0 v) d = Some b ->
                         level_of_five b).
  { intros d0 v Hv d b. destruct (Z.eq_dec d d0) as [->|Hne].
    - rewrite get_set_same. now intros [= <-].
    - rewrite get_set_other by assumption. apply Hall. }
  destruct (apply_cases self op)
    as [-> | [(sid & t & d0 & sp & p0 & b0 & _ & _ & -> & _ & _ & Hb0 & H20)
             | (d0 & b0 & _ & Hb0 & ->)]]; [exact Hall | |].
  - unfold after_assignment. cbn [drone_battery]. apply Hset.
    destruct (Hall d0 b0 Hb0) as (k & Hk & ->).
    apply lt_IZR in H20.
    exists (k - 1)%Z. split; [lia|].
    assert (Hmin : Rmin 5 (IZR (5 * k)) = 5%R).
    { apply Rmin_left. apply IZR_le. lia. }
    rewrite Hmin, <- minus_IZR. f_equal. lia.
  - unfold with_drone_battery. cbn [drone_battery]. apply Hset.
    destruct (Hall d0 b0 Hb0) as (k & Hk & ->).
    rewrite py_min_Rmin, <- plus_IZR.
    destruct (Z_lt_le_dec (5 * k + 20) 100) as [Hlt | Hge].
    + exists (k + 4)%Z. split; [lia|].
      rewrite Rmin_right by (apply IZR_le; lia). f_equal. lia.
    + exists 20%Z. split; [lia|].
      rewrite Rmin_left by (apply IZR_le; lia). reflexivity.
Qed.

(** X2. In every state that a run reaches from the constructor, every
    battery is a multiple of 5 between 20 and 100; hence a call of
    [schedule_task] that returns a drone found it at 25 or more and lowers
    its battery by exactly 5. *)
Theorem battery_levels (n_drones n_sensors : Z) (g : Random.rng) :
  (0 <= n_sensors)%Z ->
  exists self g',
    __init__ n_drones n_sensors g = Ok (self, g') /\
    forall ops,
      (forall d b, get (drone_battery (run self ops)) d = Some b ->
                   level_of_five b) /\
      (forall sensor_id t d self',
          schedule_task (run self ops) sensor_id t = Ok (Some d, self') ->
          exists b,
            get (drone_battery (run self ops)) d = Some b /\
            (25 <= b)%R /\
            get (drone_battery self') d = Some (b - 5)%R).
Proof.
  intros Hns.
  destruct (init_builds n_drones n_sensors g Hns) as (self & g' & Hinit & Hspec).
  exists self, g'. split; [exact Hinit|]. intros ops.
  assert (Hlev : forall d b, get (drone_battery (run self ops)) d = Some b ->
                             level_of_five b).
  { apply (run_invariant
             (fun s => forall d b, get (drone_battery s) d = Some b ->
                                   level_of_five b)).
    - intros s op Hs. now apply apply_levels.
    - intros d b Hb. rewrite (initialized_full _ _ _ _ Hspec d b Hb).
      exists 20%Z. split; [lia | reflexivity]. }
  split; [exact Hlev|].
  intros sid t d self' Hcall.
  destruct (schedule_task_inv _ _ _ _ _ Hcall)
    as [(Hnone & _) | (d' & sp & l1 & p & l2 & c & p0 & b & Hd & _ & _ & _ & Hel & _ & _ & _ & Hb & ->)];
    [discriminate|].
  inversion Hd; subst d'.
  destruct Hel as (b' & Hb' & H20 & _). simpl in Hb'.
  rewrite Hb in Hb'. inversion Hb'; subst b'.
  destruct (Hlev d b Hb) as (k & Hk & ->).
  apply lt_IZR in H20.
  exists (IZR (5 * k)). split; [exact Hb|]. split.
  - apply IZR_le. lia.
  - unfold after_assignment. cbn [drone_battery]. rewrite get_set_same.
    rewrite Rmin_left by (apply IZR_le; lia). reflexivity.
Qed.

Lemma battery_levels_witness :
  exists self g',
    __init__ 2 4 zero_draws = Ok (self, g') /\
    forall ops d b, get (drone_battery (run self ops)) d = Some b ->
                    level_of_five b.
Proof.
  destruct (battery_levels 2 4 zero_draws) as (self & g' & Hinit & H);
    [lia|].
  exists self, g'. split; [exact Hinit|]. intros ops. apply (H ops).
Defined.

Lemma follows_snoc sensors (l : list Task) :
  forall start p t sp,
    follows sensors start l p ->
    get sensors (sensor t) = Some sp ->
    distance t = calculate_distance p sp ->
    follows sensors start (l ++ [t]) sp.
Proof.
  induction l as [|t0 l IH]; intros start p t sp Hf Hsp Hd; simpl in *.
  - subst p. exists sp. auto.
  - destruct Hf as (sp0 & Hsp0 & Hd0 & Hf). exists sp0.
    split; [exact Hsp0|]. split; [exact Hd0|]. now apply IH with (p := p).
Qed.

Lemma tasks_of_set_other (a : dict (list Task)) d d' l :
  d' <> d -> tasks_of (set a d l) d' = tasks_of a d'.
Proof. intros Hne. unfold tasks_of. now rewrite get_set_other. Qed.

Lemma tasks_of_set_same (a : dict (list Task)) d l :
  tasks_of (set a d l) d = l.
Proof. unfold tasks_of. now rewrite get_set_same. Qed.

(** X3. Start from any registry with empty histories. After any sequence
    of operations the sensors are where they were, the drones are the
    same, and every drone's history leads from its starting position to
    its current position: each task names a known sensor, its distance is
    the distance from the drone's position before the task (the previous
    task's sensor, or the starting position) to that sensor, and the
    drone stands on the sensor of its last task. *)
Theorem history_leads_to_position (self : DroneTaskScheduler)
        (ops : list operation) :
  assigned_tasks self = [] ->
  sensor_positions (run self ops) = sensor_positions self /\
  keys (drone_positions (run self ops)) = keys (drone_positions self) /\
  forall d start,
    get (drone_positions self) d = Some start ->
    exists p,
      get (drone_positions (run self ops)) d = Some p /\
      follows (sensor_positions self) start
              (tasks_of (assigned_tasks (run self ops)) d) p.
Proof.
  intros Hempty.
  apply (run_invariant
           (fun s =>
              sensor_positions s = sensor_positions self /\
              keys (drone_positions s) = keys (drone_positions self) /\
              forall d start,
                get (drone_positions self) d = Some start ->
                exists p,
                  get (drone_positions s) d = Some p /\
                  follows (sensor_positions self) start
                          (tasks_of (assigned_tasks s) d) p)).
  - intros s op (Hsens & Hkeys & Hhist).
    destruct (apply_cases s op)
      as [-> | [(sid & t & d0 & sp & p0 & b0 & _ & _ & -> & Hsp & Hp0 & _ & _)
               | (d0 & b0 & _ & _ & ->)]]; [auto | |].
    + unfold after_assignment.
      cbn [sensor_positions drone_positions assigned_tasks].
      split; [exact Hsens|]. split.
      * rewrite keys_set_present; [exact Hkeys|]. apply get_in_keys. eauto.
      * intros d start Hstart.
        destruct (Hhist d start Hstart) as (p & Hp & Hf).
        destruct (Z.eq_dec d d0) as [->|Hne].
        -- exists sp. rewrite get_set_same, tasks_of_set_same.
           split; [reflexivity|].
           rewrite Hp0 in Hp. inversion Hp; subst p.
           apply follows_snoc with (p := p0); auto.
           simpl. now rewrite <- Hsens.
        -- exists p. rewrite get_set_other, tasks_of_set_other by assumption.
           auto.
    + unfold with_drone_battery.
      cbn [sensor_positions drone_positions assigned_tasks]. auto.
  - split; [reflexivity|]. split; [reflexivity|].
    intros d start Hstart. exists start. split; [exact Hstart|].
    rewrite Hempty. reflexivity.
Qed.

Lemma history_leads_to_position_witness :
  sensor_positions (run two_drones [Schedule 100 0; Recharge 50])
  = sensor_positions two_drones /\
  exists p,
    get (drone_positions (run two_drones [Schedule 100 0; Recharge 50])) 50
    = Some p /\
    follows (sensor_positions two_drones) (0, 0)%Z
            (tasks_of (assigned_tasks
                         (run two_drones [Schedule 100 0; Recharge 50])) 50)
            p.
Proof.
  destruct (history_leads_to_position
              two_drones [Schedule 100 0; Recharge 50] eq_refl)
    as (Hsens & _ & Hhist).
  split; [exact Hsens|]. apply Hhist. reflexivity.
Defined.

Lemma total_after_append (a : dict (list Task)) (d : Z) (t : Task) :
  length (concat (map snd (set a d (tasks_of a d ++ [t]))))
  = S (length (concat (map snd a))).
Proof.
  unfold tasks_of. induction a as [|[k l] a IH]; simpl; [reflexivity|].
  destruct (Z.eqb k d); simpl.
  - rewrite !length_app. simpl. lia.
  - rewrite !length_app, IH. lia.
Qed.

(** X4. Histories are append-only and hold one record per assignment:
    after any sequence of operations every drone's history is its earlier
    history followed by new records, and the number of records of all
    drones has grown by the number of [schedule_task] calls that returned
    a drone (a call that returns no drone, and a recharge, add none). *)
Theorem histories_append_only (self : DroneTaskScheduler)
        (ops : list operation) :
  (forall d, exists suffix,
        tasks_of (assigned_tasks (run self ops)) d
        = tasks_of (assigned_tasks self) d ++ suffix) /\
  total_tasks (run self ops) = (total_tasks self + served self ops)%nat.
Proof.
  revert self. unfold run.
  induction ops as [|op ops IH]; intros self.
  - simpl. split; [|lia]. intros d. exists []. now rewrite app_nil_r.
  - cbn [fold_left served]. destruct (IH (apply self op)) as [Hext Htotal].
    assert (Hstep :
              (forall d, exists suffix,
                    tasks_of (assigned_tasks (apply self op)) d
                    = tasks_of (assigned_tasks self) d ++ suffix) /\
              total_tasks (apply self op)
              = (total_tasks self
                 + match op with
                   | Schedule sid t =>
                       match schedule_task self sid t with
                       | Ok (Some _, _) => 1
                       | _ => 0
                       end
                   | Recharge _ => 0
                   end)%nat).
    { destruct op as [sid t | d0].
      - simpl apply.
        destruct (schedule_task self sid t) as [[r self']|e] eqn:Hcall.
        + destruct (schedule_task_inv _ _ _ _ _ Hcall)
            as [(-> & ->) | (d & sp & l1 & p & l2 & c & p0 & b & -> & _ & _ & _ & _ & _ & _ & _ & _ & ->)].
          * split; [|lia]. intros d. exists []. now rewrite app_nil_r.
          * split.
            -- intros d'. unfold after_assignment. cbn [assigned_tasks].
               destruct (Z.eq_dec d' d) as [->|Hne].
               ++ rewrite tasks_of_set_same. eauto.
               ++ rewrite tasks_of_set_other by assumption.
                  exists []. now rewrite app_nil_r.
            -- unfold total_tasks, after_assignment. cbn [assigned_tasks].
               rewrite total_after_append. lia.
        + split; [|lia]. intros d. exists []. now rewrite app_nil_r.
      - simpl apply. destruct (recharge_frame self d0) as (_ & _ & Ht & _).
        unfold total_tasks. rewrite Ht. split; [|lia].
        intros d. exists []. now rewrite app_nil_r. }
    destruct Hstep as [Hext1 Htotal1]. split.
    + intros d. destruct (Hext d) as [s2 Hs2], (Hext1 d) as [s1 Hs1].
      exists (s1 ++ s2). now rewrite Hs2, Hs1, app_assoc.
    + rewrite Htotal, Htotal1. lia.
Qed.

(** X5. The constructor raises ValueError (from [math.sqrt]) for a
    negative number of sensors. With a fleet size of zero or less it
    builds a registry without drones, draws no random number, and every
    later call of [schedule_task] returns no assignment and changes
    nothing. *)
Theorem degenerate_fleet (n_drones n_sensors : Z) (g : Random.rng) :
  ((n_sensors < 0)%Z -> __init__ n_drones n_sensors g = Raise ValueError) /\
  ((0 <= n_sensors)%Z -> (n_drones <= 0)%Z ->
   exists self,
     __init__ n_drones n_sensors g = Ok (self, g) /\
     drone_positions self = [] /\
     forall ops sensor_id t,
       schedule_task (run self ops) sensor_id t = Ok (None, run self ops)).
Proof.
  split.
  - intros Hneg. unfold __init__, _initialize_positions, Random.bind.
    cbn [num_sensors]. unfold int_sqrt.
    apply Z.ltb_lt in Hneg. now rewrite Hneg.
  - intros Hns Hnd.
    assert (Hrange : range n_drones = [])
      by (unfold range; now replace (Z.to_nat n_drones) with O by lia).
    destruct (init_builds n_drones n_sensors g Hns)
      as (self & g' & Hinit & Hspec).
    assert (Hg : g' = g).
    { revert Hinit. unfold __init__, _initialize_positions, Random.bind.
      cbn [num_sensors num_drones]. unfold Random.lift, int_sqrt.
      destruct (n_sensors <? 0)%Z; [discriminate|].
      unfold with_sensor_positions. cbn [num_drones]. rewrite Hrange. simpl.
      unfold Random.ret. now intros [= _ ->]. }
    subst g'. exists self. split; [exact Hinit|].
    assert (Hnone : drone_positions self = []).
    { pose proof (init_drone_ids _ _ _ _ Hspec) as Hk. rewrite Hrange in Hk.
      destruct (drone_positions self); [reflexivity | discriminate]. }
    split; [exact Hnone|].
    intros ops sid t.
    assert (Hrun : drone_positions (run self ops) = []).
    { apply (run_invariant (fun s => drone_positions s = [])); [|exact Hnone].
      intros s op Hs.
      destruct (apply_cases s op)
        as [-> | [(sid' & t' & d0 & sp & p0 & b0 & _ & _ & _ & _ & Hp0 & _)
                 | (d0 & b0 & _ & _ & ->)]]; [exact Hs | | exact Hs].
      rewrite Hs in Hp0. discriminate. }
    unfold schedule_task. rewrite Hrun.
    destruct (get (sensor_positions (run self ops)) sid); reflexivity.
Qed.

Lemma grid_position_inj (grid k k' : Z) :
  (0 < grid)%Z -> grid_position grid k = grid_position grid k' -> k = k'.
Proof.
  intros Hg H. unfold grid_position in H. inversion H as [[Hq Hr]].
  rewrite (Z.div_mod k grid), (Z.div_mod k' grid) by lia.
  assert (k / grid = k' / grid)%Z by lia.
  assert (k mod grid = k' mod grid)%Z by lia.
  congruence.
Qed.

(** X6. Whatever the fleet, the constructor puts no two sensors on the
    same point, and every sensor on a point of the grid: both coordinates
    are multiples of 10 between 0 and [(grid_size - 1) * 10], where
    [grid_size = int(sqrt(num_sensors)) + 2]. *)
Theorem sensors_on_distinct_cells (n_drones n_sensors : Z) (g : Random.rng) :
  (0 <= n_sensors)%Z ->
  exists self g',
    __init__ n_drones n_sensors g = Ok (self, g') /\
    (forall s1 s2 p,
        get (sensor_positions self) s1 = Some p ->
        get (sensor_positions self) s2 = Some p -> s1 = s2) /\
    (forall s x y,
        get (sensor_positions self) s = Some (x, y) ->
        exists i j,
          (0 <= i < Z.sqrt n_sensors + 2)%Z /\
          (0 <= j < Z.sqrt n_sensors + 2)%Z /\
          x = (i * 10)%Z /\ y = (j * 10)%Z).
Proof.
  intros Hns.
  destruct (init_builds n_drones n_sensors g Hns) as (self & g' & Hinit & Hspec).
  exists self, g'. split; [exact Hinit|].
  pose proof (init_sensors _ _ _ _ Hspec) as Hsens.
  pose proof (Z.sqrt_nonneg n_sensors) as Hroot.
  pose proof (grid_has_room n_sensors Hns) as Hroom.
  assert (Hcell : forall s p,
             get (sensor_positions self) s = Some p ->
             exists k, (0 <= k < n_sensors)%Z /\ s = (100 + k)%Z /\
                       p = grid_position (Z.sqrt n_sensors + 2) k).
  { intros s p Hget. apply get_In in Hget. rewrite Hsens in Hget.
    unfold sensor_grid in Hget. apply in_map_iff in Hget as (k & Heq & Hk).
    inversion Heq; subst. apply in_range in Hk. eauto. }
  split.
  - intros s1 s2 p H1 H2.
    destruct (Hcell _ _ H1) as (k1 & _ & -> & Hp1).
    destruct (Hcell _ _ H2) as (k2 & _ & -> & Hp2).
    f_equal. apply (grid_position_inj (Z.sqrt n_sensors + 2)); [lia|].
    congruence.
  - intros s x y Hget.
    destruct (Hcell _ _ Hget) as (k & Hk & _ & Hp).
    unfold grid_position in Hp. inversion Hp; subst x y.
    exists (k / (Z.sqrt n_sensors + 2))%Z, (k mod (Z.sqrt n_sensors + 2))%Z.
    repeat split; try lia.
    + apply Z.div_pos; lia.
    + apply Z.div_lt_upper_bound; nia.
    + apply Z.mod_pos_bound. lia.
    + apply Z.mod_pos_bound. lia.
Qed.

Lemma sensors_on_distinct_cells_witness :
  exists self g',
    __init__ 3 12 zero_draws = Ok (self, g') /\
    forall s1 s2 p,
      get (sensor_positions self) s1 = Some p ->
      get (sensor_positions self) s2 = Some p -> s1 = s2.
Proof.
  destruct (sensors_on_distinct_cells 3 12 zero_draws)
    as (self & g' & Hinit & Hinj & _); [lia|].
  exists self, g'. split; [exact Hinit | exact Hinj].
Defined.

End RegistryRunsFacts.

(** *** Whole schedules of the batch optimizer *)

Module BatchRunsFacts.
Import PyDict PyDictFacts BatchOptimizer BatchOptimizerSpec AssignmentFacts.
Import NearestCentroid GeneticSearch BatchRuns.

Lemma sum_from (l : list R) :
  forall a, fold_left Rplus l a = (a + sum l)%R.
Proof.
  unfold sum. induction l as [|x l IH]; intros a; simpl.
  - lra.
  - rewrite (IH (a + x)%R), (IH (0 + x)%R). lra.
Qed.

Lemma sum_nil : sum [] = 0%R.
Proof. reflexivity. Qed.

Lemma sum_cons (x : R) (l : list R) : sum (x :: l) = (x + sum l)%R.
Proof. unfold sum at 1. simpl. rewrite sum_from. lra. Qed.

Lemma sum_app (l l' : list R) : sum (l ++ l') = (sum l + sum l')%R.
Proof.
  induction l as [|x l IH]; simpl.
  - rewrite sum_nil. lra.
  - rewrite !sum_cons, IH. lra.
Qed.

Lemma sum_perm (l l' : list R) : Permutation l l' -> sum l = sum l'.
Proof.
  induction 1 as [|x l l' _ IH|x y l|l l' l'' _ IH1 _ IH2].
  - reflexivity.
  - rewrite !sum_cons, IH. reflexivity.
  - rewrite !sum_cons. lra.
  - congruence.
Qed.

Lemma sum_le (l l' : list R) : Forall2 Rle l l' -> (sum l <= sum l')%R.
Proof.
  induction 1 as [|x y l l' Hxy _ IH].
  - lra.
  - rewrite !sum_cons. lra.
Qed.

Lemma sum_nonneg (l : list R) :
  Forall (fun x => (0 <= x)%R) l -> (0 <= sum l)%R.
Proof.
  induction 1 as [|x l Hx _ IH].
  - rewrite sum_nil. lra.
  - rewrite sum_cons. lra.
Qed.

Lemma calculate_distance_nonneg (p q : R * R) :
  (0 <= calculate_distance p q)%R.
Proof. unfold calculate_distance. apply sqrt_pos. Qed.

(** **** The entries of a schedule, pair by pair *)

Lemma schedule_sensors_pairs (drone_positions : list node) (k : Z)
      (sensors : list node) :
  forall schedule0 schedule,
    for_each sensors (schedule_sensor drone_positions k) schedule0
    = Ok schedule ->
    exists entries,
      schedule = schedule0 ++ entries /\
      Forall2 (entry_for drone_positions) entries (map (pair k) sensors).
Proof.
  induction sensors as [|s sensors IH]; intros schedule0 schedule Hrun.
  - simpl in Hrun. inversion Hrun; subst. exists [].
    split; [now rewrite app_nil_r | constructor].
  - cbn [for_each] in Hrun. unfold schedule_sensor at 1 in Hrun.
    destruct (pyindex drone_positions k) as [pos|e] eqn:Hpos;
      [|discriminate].
    cbn [result_bind] in Hrun.
    destruct (IH _ _ Hrun) as (entries & -> & Hall).
    eexists (_ :: entries). rewrite <- app_assoc. split; [reflexivity|].
    simpl. constructor; [|exact Hall].
    exists pos. split; [exact Hpos | reflexivity].
Qed.

Lemma schedule_from_pairs (drone_positions : list node) (a : assignment) :
  forall schedule0 schedule,
    for_each a
      (fun '(drone_idx, sensors) schedule =>
         for_each sensors (schedule_sensor drone_positions drone_idx)
                  schedule)
      schedule0
    = Ok schedule ->
    exists entries,
      schedule = schedule0 ++ entries /\
      Forall2 (entry_for drone_positions) entries (pairs a).
Proof.
  induction a as [|[k sensors] a IH]; intros schedule0 schedule Hrun.
  - simpl in Hrun. inversion Hrun; subst. exists [].
    split; [now rewrite app_nil_r | constructor].
  - cbn [for_each] in Hrun.
    destruct (for_each sensors (schedule_sensor drone_positions k) schedule0)
      as [schedule1|e] eqn:Hinner; [|discriminate].
    cbn [result_bind] in Hrun.
    destruct (schedule_sensors_pairs _ _ _ _ _ Hinner) as (e1 & -> & H1).
    destruct (IH _ _ Hrun) as (e2 & -> & H2).
    exists (e1 ++ e2). rewrite app_assoc. split; [reflexivity|].
    unfold pairs. simpl. apply Forall2_app; assumption.
Qed.

Lemma schedule_of_pairs (drone_positions : list node) (a : assignment)
      (schedule : list entry) :
  schedule_of drone_positions a = Ok schedule ->
  Forall2 (entry_for drone_positions) schedule (pairs a).
Proof.
  intros Hrun. unfold schedule_of in Hrun.
  destruct (schedule_from_pairs _ _ _ _ Hrun) as (entries & -> & Hall).
  exact Hall.
Qed.

Lemma pairs_sensors (a : assignment) : map snd (pairs a) = all_sensors a.
Proof.
  unfold pairs, all_sensors. induction a as [|[k sensors] a IH]; simpl.
  - reflexivity.
  - rewrite map_app, IH, map_map. simpl. now rewrite map_id.
Qed.

Lemma in_pairs (a : assignment) (k : Z) (s : node) :
  In (k, s) (pairs a) <-> exists sensors, In (k, sensors) a /\ In s sensors.
Proof.
  unfold pairs. rewrite in_flat_map. split.
  - intros ([k' sensors] & Hin & Hs). apply in_map_iff in Hs as (s' & Heq & Hs').
    inversion Heq; subst. eauto.
  - intros (sensors & Hin & Hs). exists (k, sensors).
    split; [exact Hin | now apply in_map].
Qed.

Lemma pairs_hold (a : assignment) (k : Z) (s : node) :
  NoDup (keys a) -> In (k, s) (pairs a) -> holds a k s.
Proof.
  intros Hnd Hin. apply in_pairs in Hin as (sensors & Hin & Hs).
  exists sensors. split; [|exact Hs]. exact (In_get _ _ _ Hnd Hin).
Qed.

Lemma entries_sensor_ids (drone_positions : list node)
      (schedule : list entry) (ps : list (Z * node)) :
  Forall2 (entry_for drone_positions) schedule ps ->
  map sensor_id schedule = map node_id (map snd ps) /\
  map drone_id schedule = map fst ps.
Proof.
  induction 1 as [|e p schedule ps (pos & _ & ->) _ [IH1 IH2]]; simpl.
  - split; reflexivity.
  - now rewrite IH1, IH2.
Qed.

(** **** What the two searches return *)

Lemma k_means_post (drone_positions sensor_positions : list node) :
  drone_positions <> [] ->
  post (k_means_clustering_assignment drone_positions sensor_positions)
       (fun a =>
          partitions (len drone_positions) sensor_positions a /\
          forall k s, holds a k s -> nearest drone_positions s k)
       (fun _ => False).
Proof.
  intros Hne. unfold k_means_clustering_assignment.
  pose (I := fun (done : list node) (a : assignment) =>
               keys a = range (len drone_positions) /\
               Permutation (all_sensors a) done /\
               forall k s, holds a k s -> nearest drone_positions s k).
  apply post_conseq with (Q := I sensor_positions).
  - apply post_for_each_done.
    + intros done s a _ (Hkeys & Hperm & Hnear).
      destruct (assign_nearest_spec drone_positions s a Hne Hkeys)
        as (a' & k & -> & Hk & Hkeys' & Hperm' & Hholds).
      simpl. split; [congruence|]. split.
      * rewrite Hperm', Hperm. apply Permutation_cons_append.
      * intros k' s' H. apply Hholds in H as [H | [-> ->]]; auto.
    + unfold len. rewrite length_map. fold (len drone_positions).
      split; [apply empty_assignment_keys|].
      split; [rewrite empty_assignment_sensors; constructor|].
      intros k s H. now apply empty_assignment_holds in H.
  - intros a (Hkeys & Hperm & Hnear). split; [split; assumption | exact Hnear].
Qed.

Lemma k_means_returns (drone_positions sensor_positions : list node)
      (a : assignment) :
  k_means_clustering_assignment drone_positions sensor_positions = Ok a ->
  partitions (len drone_positions) sensor_positions a /\
  forall k s, holds a k s -> nearest drone_positions s k.
Proof.
  intros Hrun. destruct drone_positions as [|d drone_positions].
  - destruct sensor_positions as [|s sensor_positions].
    + inversion Hrun; subst. split.
      * split; [reflexivity | constructor].
      * intros k s (sensors & Hget & _). discriminate.
    + discriminate.
  - pose proof (k_means_post (d :: drone_positions) sensor_positions) as H.
    rewrite Hrun in H. apply H. discriminate.
Qed.

Lemma genetic_returns (drone_positions sensor_positions : list node)
      (g g' : Random.rng) (a : assignment) :
  genetic_algorithm_optimization drone_positions sensor_positions g
  = Ok (a, g') ->
  partitions (len drone_positions) sensor_positions a.
Proof.
  rewrite search_returns_best_of_last.
  pose proof (population_after_spec drone_positions sensor_positions
                                    generations g) as H.
  destruct (population_after generations drone_positions sensor_positions g)
    as [[pop g1]|e]; [|discriminate].
  simpl in H. destruct H as [Hall Hlen].
  destruct (best_of_spec drone_positions sensor_positions pop Hall Hlen)
    as (b & f & Hbest & Hin & _).
  unfold Random.lift. rewrite Hbest. intros [= <- _].
  rewrite Forall_forall in Hall. now apply Hall.
Qed.

(** X7. Whenever [generate_schedule] returns, with either algorithm: the
    assignment is a partition of the sensor list over the drone indexes,
    the schedule has exactly one entry per (drone, sensor) pair of the
    assignment, in the order of the assignment, each built from that
    drone's position; so the sensor ids of the schedule are the ids of
    the input sensors, each as often as in the input (never twice when
    the input ids are distinct), and every entry names a drone index of
    [0 .. len(drone_positions) - 1]. *)
Theorem generate_schedule_covers
        (drone_positions sensor_positions : list node) (algorithm : string)
        (g g' : Random.rng) (schedule : list entry) (assignments : assignment) :
  generate_schedule drone_positions sensor_positions algorithm g
  = Ok ((schedule, assignments), g') ->
  partitions (len drone_positions) sensor_positions assignments /\
  Forall2 (entry_for drone_positions) schedule (pairs assignments) /\
  Permutation (map sensor_id schedule) (map node_id sensor_positions) /\
  (NoDup (map node_id sensor_positions) -> NoDup (map sensor_id schedule)) /\
  (forall e, In e schedule -> (0 <= drone_id e < len drone_positions)%Z).
Proof.
  intros Hrun. unfold generate_schedule, Random.bind in Hrun.
  assert (Hboth : partitions (len drone_positions) sensor_positions
                             assignments /\
                  schedule_of drone_positions assignments = Ok schedule).
  { destruct (String.eqb algorithm "genetic").
    - destruct (genetic_algorithm_optimization drone_positions
                                               sensor_positions g)
        as [[a g1]|e] eqn:Hga; [|discriminate].
      apply genetic_returns in Hga.
      unfold Random.lift, Random.ret in Hrun.
      destruct (schedule_of drone_positions a) as [sch|e] eqn:Hs;
        [|discriminate].
      inversion Hrun; subst. split; assumption.
    - unfold Random.lift at 1 in Hrun.
      destruct (k_means_clustering_assignment drone_positions
                                              sensor_positions)
        as [a|e] eqn:Hkm; [|discriminate].
      apply k_means_returns in Hkm as [Hpart _].
      unfold Random.lift, Random.ret in Hrun.
      destruct (schedule_of drone_positions a) as [sch|e] eqn:Hs;
        [|discriminate].
      inversion Hrun; subst. split; assumption. }
  destruct Hboth as [Hpart Hsch]. apply schedule_of_pairs in Hsch.
  destruct (entries_sensor_ids _ _ _ Hsch) as [Hids Hdrones].
  rewrite pairs_sensors in Hids.
  assert (Hperm : Permutation (map sensor_id schedule)
                              (map node_id sensor_positions)).
  { rewrite Hids. apply Permutation_map. apply Hpart. }
  split; [exact Hpart|]. split; [exact Hsch|]. split; [exact Hperm|]. split.
  - intros Hnd. apply Permutation_NoDup with (l := map node_id sensor_positions);
      [now symmetry | exact Hnd].
  - intros e He. apply (in_map drone_id) in He. rewrite Hdrones in He.
    apply in_map_iff in He as ([k s] & Hk & Hin). simpl in Hk. subst k.
    apply in_pairs in Hin as (sensors & Hin & _).
    apply in_range. destruct Hpart as [Hkeys _]. rewrite <- Hkeys.
    unfold keys. now apply (in_map fst) in Hin.
Qed.

Lemma generate_schedule_covers_witness :
  Permutation (map sensor_id one_drone_entries)
              (map node_id three_sensors) /\
  forall e, In e one_drone_entries -> (0 <= drone_id e < 1)%Z.
Proof.
  destruct (generate_schedule_covers
              one_drone three_sensors "kmeans" zero_draws zero_draws
              one_drone_entries [(0%Z, three_sensors)]
              (Schedule.one_drone_schedule zero_draws))
    as (_ & _ & Hperm & _ & Hdrones).
  split; [exact Hperm | exact Hdrones].
Defined.

(** **** The nearest drone and the total distance *)

Lemma pyindex_In {A} (l : list A) (k : Z) (x : A) :
  pyindex l k = Ok x -> In x l.
Proof.
  unfold pyindex. destruct (_ <? 0)%Z; [discriminate|].
  destruct (nth_error l _) eqn:Hnth; [|discriminate].
  intros [= ->]. now apply nth_error_In in Hnth.
Qed.

Lemma nearest_distance_le (drone_positions : list node) (sensor : node)
      (k : Z) (pos : node) :
  pyindex drone_positions k = Ok pos ->
  (nearest_distance drone_positions sensor
   <= calculate_distance (xy pos) (xy sensor))%R.
Proof.
  intros Hpos. apply pyindex_In in Hpos.
  assert (Hin : In (calculate_distance (xy pos) (xy sensor))
                   (map (fun centroid => calculate_distance centroid (xy sensor))
                        (map xy drone_positions))).
  { rewrite map_map. apply in_map_iff. eauto. }
  unfold nearest_distance.
  destruct (map _ (map xy drone_positions)) as [|x l]; [contradiction|].
  destruct (min_from_spec l x) as (Hle & Hall & _).
  destruct Hin as [<- | Hin]; auto.
Qed.

Lemma nearest_distance_attained (drone_positions : list node)
      (sensor : node) (k : Z) :
  nearest drone_positions sensor k ->
  forall pos, pyindex drone_positions k = Ok pos ->
              calculate_distance (xy pos) (xy sensor)
              = nearest_distance drone_positions sensor.
Proof.
  intros (pos_k & Hk & Hnth & Hbest) pos Hpos.
  assert (pos = pos_k) as ->.
  { assert (Hneg : (k <? 0)%Z = false) by (apply Z.ltb_ge; lia).
    unfold pyindex in Hpos. rewrite Hneg in Hpos.
    cbv beta zeta iota in Hpos. rewrite Hneg, Hnth in Hpos.
    now inversion Hpos. }
  apply Rle_antisym; [|now apply nearest_distance_le with (k := k)].
  unfold nearest_distance.
  destruct (map _ (map xy drone_positions)) as [|x l] eqn:Hmap.
  - destruct drone_positions; [|discriminate].
    destruct (Z.to_nat k); discriminate.
  - assert (Hin : In (min_from x l) (x :: l)).
    { destruct (min_from_spec l x) as (_ & _ & [-> | Hin]);
        [now left | now right]. }
    rewrite <- Hmap in Hin. apply In_nth_error in Hin as [j Hj].
    apply distances_nth in Hj as (pos_j & Hpos_j & ->).
    now apply Hbest with (j := j).
Qed.

Lemma nearest_total_lower (drone_positions : list node)
      (schedule : list entry) (ps : list (Z * node)) :
  Forall2 (entry_for drone_positions) schedule ps ->
  (sum (map (nearest_distance drone_positions) (map snd ps))
   <= total_distance schedule)%R.
Proof.
  intros Hall. unfold total_distance. apply sum_le.
  induction Hall as [|e p schedule ps (pos & Hpos & ->) _ IH]; simpl.
  - constructor.
  - constructor; [|exact IH]. now apply nearest_distance_le with (k := fst p).
Qed.

Lemma nearest_total_attained (drone_positions : list node)
      (schedule : list entry) (ps : list (Z * node)) :
  Forall2 (entry_for drone_positions) schedule ps ->
  (forall p, In p ps -> nearest drone_positions (snd p) (fst p)) ->
  map distance schedule
  = map (nearest_distance drone_positions) (map snd ps).
Proof.
  induction 1 as [|e p schedule ps (pos & Hpos & ->) _ IH]; intros Hnear;
    simpl.
  - reflexivity.
  - rewrite IH by (intros q Hq; apply Hnear; now right).
    f_equal. apply nearest_distance_attained with (k := fst p); [|exact Hpos].
    apply Hnear. now left.
Qed.

Lemma schedule_sensors_total (drone_positions : list node) (k : Z)
      (pos : node) :
  pyindex drone_positions k = Ok pos ->
  forall sensors schedule0,
  exists schedule,
    for_each sensors (schedule_sensor drone_positions k) schedule0
    = Ok schedule.
Proof.
  intros Hpos. induction sensors as [|s sensors IH]; intros schedule0.
  - simpl. eauto.
  - cbn [for_each]. unfold schedule_sensor at 1. rewrite Hpos.
    cbn [result_bind]. apply IH.
Qed.

Lemma schedule_of_total (drone_positions : list node) (a : assignment) :
  (forall k, In k (keys a) -> (0 <= k < len drone_positions)%Z) ->
  exists schedule, schedule_of drone_positions a = Ok schedule.
Proof.
  unfold schedule_of. generalize (@nil entry).
  induction a as [|[k sensors] a IH]; intros schedule0 Hidx.
  - simpl. eauto.
  - cbn [for_each].
    destruct (pyindex_in_range drone_positions k) as [pos Hpos];
      [apply Hidx; now left|].
    destruct (schedule_sensors_total _ _ _ Hpos sensors schedule0)
      as [schedule1 ->].
    cbn [result_bind]. apply IH. intros k' Hk'. apply Hidx. now right.
Qed.

(** X8. With at least one drone the nearest-centroid partition returns
    and its schedule exists, and no other way of dealing the same sensors
    to the drones gives a schedule of a smaller total distance: the
    total is the sum, over the sensors, of the distance to the closest
    drone. *)
Theorem k_means_least_total_distance
        (drone_positions sensor_positions : list node) :
  drone_positions <> [] ->
  exists a schedule,
    k_means_clustering_assignment drone_positions sensor_positions = Ok a /\
    schedule_of drone_positions a = Ok schedule /\
    total_distance schedule
    = sum (map (nearest_distance drone_positions) sensor_positions) /\
    forall a' schedule',
      Permutation (all_sensors a') sensor_positions ->
      schedule_of drone_positions a' = Ok schedule' ->
      (total_distance schedule <= total_distance schedule')%R.
Proof.
  intros Hne.
  destruct (post_returns _ _ (k_means_post drone_positions sensor_positions Hne))
    as (a & Hrun & [Hkeys Hperm] & Hnear).
  destruct (schedule_of_total drone_positions a) as [schedule Hsch].
  { intros k Hk. apply in_range. now rewrite <- Hkeys. }
  exists a, schedule.
  split; [exact Hrun|]. split; [exact Hsch|].
  pose proof (schedule_of_pairs _ _ _ Hsch) as Hpairs.
  assert (Htotal : total_distance schedule
                   = sum (map (nearest_distance drone_positions)
                              sensor_positions)).
  { unfold total_distance.
    rewrite (nearest_total_attained _ _ _ Hpairs).
    - rewrite pairs_sensors. apply sum_perm. now apply Permutation_map.
    - intros [k s] Hin. simpl. apply Hnear. apply pairs_hold; [|exact Hin].
      rewrite Hkeys. apply NoDup_range. }
  split; [exact Htotal|].
  intros a' schedule' Hperm' Hsch'. rewrite Htotal.
  apply schedule_of_pairs in Hsch'.
  apply Rle_trans
    with (sum (map (nearest_distance drone_positions) (map snd (pairs a')))).
  - rewrite pairs_sensors. apply Req_le. apply sum_perm.
    apply Permutation_map. now symmetry.
  - now apply nearest_total_lower.
Qed.

Lemma k_means_least_total_distance_witness :
  exists a schedule,
    k_means_clustering_assignment one_drone three_sensors = Ok a /\
    schedule_of one_drone a = Ok schedule /\
    total_distance schedule
    = sum (map (nearest_distance one_drone) three_sensors).
Proof.
  destruct (k_means_least_total_distance one_drone three_sensors)
    as (a & schedule & Hrun & Hsch & Htotal & _); [discriminate|].
  exists a, schedule. split; [exact Hrun|]. split; [exact Hsch | exact Htotal].
Defined.

End BatchRunsFacts.

(** *** Candidates of the genetic search: fitness, crossover, mutation *)

Module Candidates.
Import PyDict PyDictFacts BatchOptimizer BatchOptimizerSpec AssignmentFacts.
Import GeneticSearch BatchRuns BatchRunsFacts.

Lemma pyindex_error {A} (l : list A) (k : Z) (e : pyerror) :
  pyindex l k = Raise e -> e = IndexError.
Proof.
  unfold pyindex. cbv zeta.
  match goal with
  | |- context [if ?c then Raise IndexError else _] => destruct c
  end; [now intros [= <-]|].
  destruct (nth_error _ _); [discriminate | now intros [= <-]].
Qed.

Lemma np_var_nonneg (l : list R) : (0 <= np_var l)%R.
Proof.
  unfold np_var. cbv zeta. destruct l as [|x l].
  - simpl. rewrite sum_nil. unfold Rdiv. lra.
  - unfold Rdiv. apply Rmult_le_pos.
    + apply sum_nonneg. apply Forall_forall. intros y Hy.
      apply in_map_iff in Hy as (z & <- & _). apply pow2_ge_0.
    + left. apply Rinv_0_lt_compat. apply lt_0_INR. simpl. lia.
Qed.

Lemma sum_zeros (l : list R) : Forall (fun d => d = 0%R) l -> sum l = 0%R.
Proof.
  induction 1 as [|x l Hx _ IH].
  - apply sum_nil.
  - rewrite sum_cons, Hx, IH. lra.
Qed.

Lemma np_var_zeros (l : list R) :
  Forall (fun d => d = 0%R) l -> np_var l = 0%R.
Proof.
  intros Hall. unfold np_var. cbv zeta. rewrite (sum_zeros l Hall).
  rewrite sum_zeros; [unfold Rdiv; lra|].
  apply Forall_forall. intros y Hy.
  apply in_map_iff in Hy as (z & <- & Hz).
  rewrite Forall_forall in Hall. rewrite (Hall z Hz).
  unfold Rdiv. rewrite Rmult_0_l. lra.
Qed.

Lemma schedule_sensor_ok (drone_positions : list node) (k : Z) (s : node)
      (schedule : list entry) (pos : node) :
  pyindex drone_positions k = Ok pos ->
  schedule_sensor drone_positions k s schedule
  = Ok (schedule ++
        [{| drone_id := k;
            sensor_id := node_id s;
            distance := calculate_distance (xy pos) (xy s);
            collection_time :=
              (calculate_distance (xy pos) (xy s) / 10 + 2)%R;
            energy_cost :=
              (calculate_distance (xy pos) (xy s) * 0.1 + 5)%R |}]).
Proof. intros H. unfold schedule_sensor. now rewrite H. Qed.

Lemma schedule_sensor_raise (drone_positions : list node) (k : Z) (s : node)
      (schedule : list entry) (e : pyerror) :
  pyindex drone_positions k = Raise e ->
  schedule_sensor drone_positions k s schedule = Raise e.
Proof. intros H. unfold schedule_sensor. now rewrite H. Qed.

(** The inner loops of [fitness] and of [generate_schedule] walk the same
    sensors with the same drone position. *)
Lemma distance_and_entries (drone_positions : list node) (k : Z)
      (sensors : list node) :
  forall d0 schedule0,
    match for_each sensors
            (fun sensor drone_distance =>
               (drone_pos <- pyindex drone_positions k ;;
                Ok (drone_distance
                    + calculate_distance (xy drone_pos) (xy sensor))%R)%res)
            d0,
          for_each sensors (schedule_sensor drone_positions k) schedule0 with
    | Ok d, Ok schedule =>
        exists entries,
          schedule = schedule0 ++ entries /\
          d = (d0 + sum (map distance entries))%R /\ (d0 <= d)%R
    | Raise e, Raise e' => e = IndexError /\ e' = IndexError
    | _, _ => False
    end.
Proof.
  induction sensors as [|s sensors IH]; intros d0 schedule0.
  - simpl. exists []. rewrite app_nil_r. simpl. rewrite sum_nil.
    split; [reflexivity|]. split; lra.
  - cbn [for_each].
    destruct (pyindex drone_positions k) as [pos|e] eqn:Hpos;
      [rewrite (schedule_sensor_ok _ _ s schedule0 _ Hpos)
      |rewrite (schedule_sensor_raise _ _ s schedule0 _ Hpos)];
      cbn [result_bind].
    + set (d1 := (d0 + calculate_distance (xy pos) (xy s))%R).
      match goal with
      | |- context [for_each sensors (schedule_sensor _ _) ?s1] =>
          specialize (IH d1 s1);
          destruct (for_each sensors (schedule_sensor drone_positions k) s1)
            as [sch|e']
      end;
        destruct (for_each sensors _ d1) as [d|e]; try exact IH.
      destruct IH as (entries & -> & -> & Hle).
      eexists (_ :: entries). rewrite <- app_assoc.
      split; [reflexivity|]. simpl. rewrite sum_cons. simpl.
      pose proof (calculate_distance_nonneg (xy pos) (xy s)).
      unfold d1 in *. split; lra.
    + apply pyindex_error in Hpos. subst e. auto.
Qed.

Lemma drone_distance_and_entries (drone_positions : list node) (k : Z)
      (sensors : list node) (schedule0 : list entry) :
  match drone_distance_of drone_positions k sensors,
        for_each sensors (schedule_sensor drone_positions k) schedule0 with
  | Ok d, Ok schedule =>
      exists entries,
        schedule = schedule0 ++ entries /\
        d = sum (map distance entries) /\ (0 <= d)%R
  | Raise e, Raise e' => e = IndexError /\ e' = IndexError
  | _, _ => False
  end.
Proof.
  unfold drone_distance_of.
  pose proof (distance_and_entries drone_positions k sensors 0%R schedule0)
    as H.
  destruct (for_each sensors _ 0%R) as [d|e];
    destruct (for_each sensors (schedule_sensor drone_positions k) schedule0)
    as [sch|e']; try exact H.
  destruct H as (entries & -> & -> & Hle). exists entries.
  split; [reflexivity|]. split; lra.
Qed.

(** The drone loops of [fitness] and of [generate_schedule]. *)
Lemma fitness_and_schedule (drone_positions : list node) (a : assignment) :
  forall total distances0 schedule0,
    match for_each a
            (fun '(drone_idx, sensors) '(total_distance, distances) =>
               (drone_distance <-
                  drone_distance_of drone_positions drone_idx sensors ;;
                Ok ((total_distance + drone_distance)%R,
                    distances ++ [drone_distance]))%res)
            (total, distances0),
          for_each a
            (fun '(drone_idx, sensors) schedule =>
               for_each sensors (schedule_sensor drone_positions drone_idx)
                        schedule)
            schedule0 with
    | Ok (total', distances'), Ok schedule =>
        exists distances entries,
          distances' = distances0 ++ distances /\
          schedule = schedule0 ++ entries /\
          Forall2 (fun d '(k, sensors) =>
                     drone_distance_of drone_positions k sensors = Ok d)
                  distances a /\
          Forall (fun d => 0 <= d)%R distances /\
          total' = (total + sum distances)%R /\
          sum distances = sum (map distance entries)
    | Raise e, Raise e' => e = IndexError /\ e' = IndexError
    | _, _ => False
    end.
Proof.
  induction a as [|[k sensors] a IH]; intros total distances0 schedule0.
  - simpl. exists [], []. rewrite !app_nil_r. simpl. rewrite sum_nil.
    split; [reflexivity|]. split; [reflexivity|].
    split; [constructor|]. split; [constructor|]. split; lra.
  - cbn [for_each].
    pose proof (drone_distance_and_entries drone_positions k sensors
                                           schedule0) as Hk.
    destruct (drone_distance_of drone_positions k sensors) as [d|e] eqn:Hd;
      destruct (for_each sensors (schedule_sensor drone_positions k)
                         schedule0) as [sch|e']; cbn [result_bind];
      try contradiction; [|exact Hk].
    destruct Hk as (entries & -> & Hsum & Hpos).
    specialize (IH (total + d)%R (distances0 ++ [d]) (schedule0 ++ entries)).
    destruct (for_each a _ ((total + d)%R, distances0 ++ [d]))
      as [[total' distances']|e];
      destruct (for_each a _ (schedule0 ++ entries)) as [sch|e'];
      try exact IH.
    destruct IH as (ds & es & -> & -> & Hall & Hnn & -> & Hsums).
    exists (d :: ds), (entries ++ es). rewrite <- !app_assoc. simpl.
    split; [reflexivity|]. split; [reflexivity|].
    split; [constructor; assumption|]. split; [constructor; assumption|].
    rewrite map_app, sum_app, sum_cons. split; lra.
Qed.

(** X9. [fitness] measures the schedule that [generate_schedule] would
    build from the same candidate. It returns exactly when that schedule
    can be built, and then its value is
    [1 / (total + variance + 1)] where [total] is the total distance of
    the schedule and [variance] the variance of the distances per drone;
    the value lies in (0, 1] and is 1 for a candidate without sensors.
    Otherwise both raise IndexError (a drone index outside
    [drone_positions]). *)
Theorem fitness_measures_schedule
        (drone_positions : list node) (a : assignment) :
  match fitness drone_positions a with
  | Ok f =>
      (0 < f <= 1)%R /\
      exists schedule distances,
        schedule_of drone_positions a = Ok schedule /\
        Forall2 (fun d '(k, sensors) =>
                   drone_distance_of drone_positions k sensors = Ok d)
                distances a /\
        sum distances = total_distance schedule /\
        f = (1 / (total_distance schedule
                  + match distances with
                    | [] => 0
                    | _ => np_var distances
                    end
                  + 1))%R
  | Raise e =>
      e = IndexError /\ schedule_of drone_positions a = Raise IndexError
  end /\
  forall n, fitness drone_positions (empty_assignment n) = Ok 1%R.
Proof.
  assert (Hmain : forall a,
             match fitness drone_positions a with
             | Ok f =>
                 (0 < f <= 1)%R /\
                 exists schedule distances,
                   schedule_of drone_positions a = Ok schedule /\
                   Forall2 (fun d '(k, sensors) =>
                              drone_distance_of drone_positions k sensors
                              = Ok d)
                           distances a /\
                   sum distances = total_distance schedule /\
                   f = (1 / (total_distance schedule
                             + match distances with
                               | [] => 0
                               | _ => np_var distances
                               end
                             + 1))%R
             | Raise e =>
                 e = IndexError /\
                 schedule_of drone_positions a = Raise IndexError
             end).
  { clear a. intros a. unfold fitness, schedule_of.
    pose proof (fitness_and_schedule drone_positions a 0%R [] []) as H.
    destruct (for_each a _ (0%R, [])) as [[total distances]|e];
      destruct (for_each a _ []) as [sch|e']; cbn [result_bind];
      try contradiction.
    - destruct H as (ds & es & Hds & Hes & Hall & Hnn & -> & Hsums).
      simpl in Hds, Hes. subst distances sch.
      assert (Hvar : (0 <= match ds with
                           | [] => 0
                           | _ => np_var ds
                           end)%R)
        by (destruct ds; [lra | apply np_var_nonneg]).
      pose proof (sum_nonneg ds Hnn) as Htotal.
      set (v := match ds with [] => 0%R | _ => np_var ds end) in *.
      split.
      + unfold Rdiv. rewrite Rmult_1_l. split.
        * apply Rinv_0_lt_compat. lra.
        * rewrite <- Rinv_1 at 2. apply Rinv_le_contravar; lra.
      + exists es, ds. split; [reflexivity|]. split; [exact Hall|].
        unfold total_distance. split; [exact Hsums|].
        rewrite <- Hsums. f_equal. unfold v. destruct ds; lra.
    - destruct H as [-> ->]. auto. }
  split; [apply Hmain|].
  intros n. specialize (Hmain (empty_assignment n)).
  destruct (fitness drone_positions (empty_assignment n)) as [f|e].
  - destruct Hmain as (_ & sch & ds & Hsch & Hall & Hsum & ->).
    assert (Hzero : Forall (fun d => d = 0%R) ds).
    { clear Hsum Hsch. unfold empty_assignment in Hall.
      revert ds Hall. induction (range n) as [|i ids IH]; intros ds Hall;
        inversion Hall as [|d p ds' ps Hd Hrest]; subst; constructor.
      - unfold drone_distance_of in Hd. simpl in Hd. now inversion Hd.
      - now apply IH. }
    f_equal. rewrite <- Hsum, (sum_zeros ds Hzero).
    replace (match ds with [] => 0%R | _ => np_var ds end) with 0%R
      by (destruct ds; [reflexivity | now rewrite np_var_zeros]).
    lra.
  - destruct Hmain as [_ Hsch]. unfold schedule_of, empty_assignment in Hsch.
    rewrite EmptyInputs.schedule_of_no_sensors in Hsch. discriminate.
Qed.

(** **** Crossover and mutation *)

Lemma find_owner_In (a : assignment) (sensor : node) (k : Z) :
  find_owner a sensor = Some k ->
  exists sensors, In (k, sensors) a /\ In sensor sensors.
Proof.
  induction a as [|[k0 sensors] a IH]; simpl; [discriminate|].
  destruct (contains sensors sensor) eqn:Hc.
  - intros [= <-]. exists sensors. split; [now left|].
    now apply contains_true.
  - intros H. destruct (IH H) as (l & Hin & Hs). exists l. auto.
Qed.

Lemma find_owner_holds (a : assignment) (sensor : node) (k : Z) :
  NoDup (keys a) -> find_owner a sensor = Some k -> holds a k sensor.
Proof.
  intros Hnd H. apply find_owner_In in H as (sensors & Hin & Hs).
  exists sensors. split; [exact (In_get _ _ _ Hnd Hin) | exact Hs].
Qed.

Lemma holds_in_all (a : assignment) (k : Z) (s : node) :
  holds a k s -> In s (all_sensors a).
Proof.
  intros (sensors & Hget & Hs). apply get_In in Hget.
  unfold all_sensors. apply in_concat. exists sensors.
  split; [|exact Hs]. apply in_map_iff. now exists (k, sensors).
Qed.

(** X10. Crossover of two partitions: on every oracle the child is a
    partition again, every sensor of the child sits with the drone that
    holds it in one of the two parents, and (the sensors being pairwise
    different) a sensor that both parents give to the same drone stays
    with that drone. Crossover raises nothing. *)
Theorem crossover_inherits
        (drone_positions sensor_positions : list node)
        (parent1 parent2 : assignment) :
  partitions (len drone_positions) sensor_positions parent1 ->
  partitions (len drone_positions) sensor_positions parent2 ->
  wp (for_each_rand sensor_positions (inherit parent1 parent2)
                    (empty_assignment (len drone_positions)))
     (fun child =>
        partitions (len drone_positions) sensor_positions child /\
        (forall k s, holds child k s ->
                     holds parent1 k s \/ holds parent2 k s) /\
        (NoDup sensor_positions ->
         forall k s, holds parent1 k s -> holds parent2 k s ->
                     holds child k s))
     (fun _ => False).
Proof.
  intros [Hk1 Hp1] [Hk2 Hp2]. set (n := len drone_positions) in *.
  assert (Hnd1 : NoDup (keys parent1)) by (rewrite Hk1; apply NoDup_range).
  assert (Hnd2 : NoDup (keys parent2)) by (rewrite Hk2; apply NoDup_range).
  apply wp_conseq with
    (Q := fun child =>
            keys child = range n /\
            Permutation (all_sensors child) sensor_positions /\
            forall k s, holds child k s ->
                        holds parent1 k s \/ holds parent2 k s).
  - apply (wp_for_each_rand_done
             (fun done a =>
                keys a = range n /\
                Permutation (all_sensors a) done /\
                forall k s, holds a k s ->
                            holds parent1 k s \/ holds parent2 k s)).
    + intros done s child Hs (Hkeys & Hperm & Hinh). unfold inherit.
      apply wp_bind. apply wp_random. intros r.
      assert (Hown : forall parent,
                 keys parent = range n ->
                 Permutation (all_sensors parent) sensor_positions ->
                 exists k, find_owner parent s = Some k /\ In k (range n) /\
                           holds parent k s).
      { intros parent Hk Hp.
        destruct (find_owner_spec parent s) as (k & Hf & Hin).
        - apply Permutation_in with (l := sensor_positions);
            [now symmetry | exact Hs].
        - exists k. split; [exact Hf|]. split; [now rewrite <- Hk|].
          apply find_owner_holds; [|exact Hf]. rewrite Hk. apply NoDup_range. }
      assert (Hfound : exists k,
                 find_owner (if Rltb r 0.5 then parent1 else parent2) s
                 = Some k /\ In k (range n) /\
                 (holds parent1 k s \/ holds parent2 k s)).
      { destruct (Rltb r 0.5).
        - destruct (Hown parent1 Hk1 Hp1) as (k & ? & ? & ?). eauto 6.
        - destruct (Hown parent2 Hk2 Hp2) as (k & ? & ? & ?). eauto 6. }
      destruct Hfound as (k & -> & Hin & Hpar).
      apply wp_lift.
      destruct (append_to_spec child k s)
        as (a' & -> & Hkeys' & Hperm' & _ & Hholds).
      { now rewrite Hkeys. }
      simpl. split; [congruence|]. split.
      * rewrite Hperm', Hperm. apply Permutation_cons_append.
      * intros k' s' H. apply Hholds in H as [H | [-> ->]]; auto.
    + split; [apply empty_assignment_keys|].
      split; [rewrite empty_assignment_sensors; constructor|].
      intros k s H. now apply empty_assignment_holds in H.
  - intros child (Hkeys & Hperm & Hinh).
    split; [split; assumption|]. split; [exact Hinh|].
    intros Hnd k s H1 H2.
    assert (Hs : In s sensor_positions).
    { apply Permutation_in with (1 := Hp1). exact (holds_in_all _ _ _ H1). }
    destruct (in_all_holds child s) as [k' Hk'].
    { rewrite Hkeys. apply NoDup_range. }
    { apply Permutation_in with (l := sensor_positions);
        [now symmetry | exact Hs]. }
    destruct (partitions_held_once n sensor_positions parent1
                                   (conj Hk1 Hp1) Hnd s Hs)
      as (_ & k1 & _ & Huniq1).
    destruct (partitions_held_once n sensor_positions parent2
                                   (conj Hk2 Hp2) Hnd s Hs)
      as (_ & k2 & _ & Huniq2).
    destruct (Hinh _ _ Hk') as [H | H].
    + rewrite (Huniq1 _ H1), <- (Huniq1 _ H). exact Hk'.
    + rewrite (Huniq2 _ H2), <- (Huniq2 _ H). exact Hk'.
Qed.

Lemma crossover_inherits_witness :
  wp (for_each_rand three_sensors
        (inherit [(0%Z, three_sensors)] [(0%Z, three_sensors)])
        (empty_assignment (len one_drone)))
     (fun child => partitions (len one_drone) three_sensors child)
     (fun _ => False).
Proof.
  assert (H : partitions (len one_drone) three_sensors
                         [(0%Z, three_sensors)])
    by (split; [reflexivity | apply Permutation_refl]).
  apply wp_conseq
    with (1 := crossover_inherits one_drone three_sensors _ _ H H).
  intros child [Hpart _]. exact Hpart.
Defined.

Lemma remove_first_other (sensor s' : node) (sensors : list node) :
  s' <> sensor -> (In s' (remove_first sensor sensors) <-> In s' sensors).
Proof.
  intros Hne. induction sensors as [|s sensors IH]; simpl; [tauto|].
  destruct (node_eq_dec s sensor) as [->|Hs]; simpl.
  - split; [auto | intros [H | H]; [congruence | exact H]].
  - now rewrite IH.
Qed.

Lemma remove_from_owner_other (a : assignment) (sensor s' : node) (k' : Z) :
  s' <> sensor ->
  (holds (remove_from_owner a sensor) k' s' <-> holds a k' s').
Proof.
  intros Hne. unfold holds.
  induction a as [|[k0 sensors] a IH]; simpl; [tauto|].
  destruct (contains sensors sensor); simpl;
    destruct (Z.eqb k0 k'); try tauto.
  split; intros (l & [= <-] & Hin); eexists; (split; [reflexivity|]);
    now apply (remove_first_other sensor s' sensors Hne).
Qed.

(** X11. Mutation of a partition: on every oracle the result is a
    partition again, and it is either the candidate unchanged or the
    candidate with one sensor of the input moved to the list of a drone
    [0 .. len(drone_positions) - 1], every other sensor staying with its
    drone. It raises only IndexError, and only when there is no sensor
    to choose from. *)
Theorem mutation_moves_one
        (drone_positions sensor_positions : list node) (child : assignment) :
  partitions (len drone_positions) sensor_positions child ->
  wp (mutate drone_positions sensor_positions child)
     (fun child' =>
        partitions (len drone_positions) sensor_positions child' /\
        (child' = child \/
         exists s k,
           In s sensor_positions /\ (0 <= k < len drone_positions)%Z /\
           holds child' k s /\
           forall k' s', s' <> s ->
                         (holds child' k' s' <-> holds child k' s')))
     (fun e => e = IndexError /\ sensor_positions = []).
Proof.
  intros [Hkeys Hperm]. unfold mutate.
  apply wp_bind. apply wp_random. intros r.
  destruct (Rltb r mutation_rate);
    [|apply wp_ret; split; [now split | now left]].
  apply wp_bind. apply wp_choice; [auto|].
  intros s Hs.
  destruct (remove_from_owner_spec child s) as [Hkeys' Hperm'].
  { apply Permutation_in with (l := sensor_positions);
      [now symmetry | exact Hs]. }
  assert (Hdrones : (0 < len drone_positions)%Z).
  { assert (Hk : exists k, holds child k s).
    { apply in_all_holds; [rewrite Hkeys; apply NoDup_range|].
      apply Permutation_in with (l := sensor_positions);
        [now symmetry | exact Hs]. }
    destruct Hk as (k & sensors & Hget & _).
    assert (Hin : In k (keys child)) by (apply get_in_keys; eauto).
    rewrite Hkeys in Hin. apply in_range in Hin. lia. }
  apply wp_bind. apply wp_randint; [lia|].
  intros k Hk. apply wp_lift.
  destruct (append_to_spec (remove_from_owner child s) k s)
    as (a' & -> & Hkeys'' & Hperm'' & Hheld & Hholds).
  { rewrite Hkeys', Hkeys. apply in_range. lia. }
  simpl. split.
  - split; [congruence|]. now rewrite Hperm'', Hperm'.
  - right. exists s, k. split; [exact Hs|]. split; [lia|].
    split; [exact Hheld|].
    intros k' s' Hne. rewrite Hholds.
    rewrite (remove_from_owner_other child s s' k' Hne).
    split; [intros [H | [_ H]]; [exact H | contradiction] | auto].
Qed.

Lemma mutation_moves_one_witness :
  wp (mutate one_drone three_sensors [(0%Z, three_sensors)])
     (fun child' => partitions (len one_drone) three_sensors child')
     (fun e => e = IndexError /\ three_sensors = []).
Proof.
  assert (H : partitions (len one_drone) three_sensors
                         [(0%Z, three_sensors)])
    by (split; [reflexivity | apply Permutation_refl]).
  apply wp_conseq with (1 := mutation_moves_one one_drone three_sensors _ H).
  intros child [Hpart _]. exact Hpart.
Defined.

End Candidates.

(** *** The genetic search on an empty sensor list *)

Module NoSensors.
Import PyDict PyDictFacts BatchOptimizer BatchOptimizerSpec AssignmentFacts.
Import GeneticSearch BatchRuns BatchRunsFacts.

Lemma partition_of_nothing (n : Z) (a : assignment) :
  partitions n [] a -> a = empty_assignment n.
Proof.
  intros [Hkeys Hperm]. apply Permutation_sym, Permutation_nil in Hperm.
  unfold empty_assignment. rewrite <- Hkeys. clear Hkeys.
  unfold all_sensors, keys in *.
  induction a as [|[k sensors] a IH]; simpl in *; [reflexivity|].
  apply app_eq_nil in Hperm as [-> Hrest]. now rewrite <- IH.
Qed.

Lemma genetic_post (drone_positions sensor_positions : list node)
      (g : Random.rng) :
  post (genetic_algorithm_optimization drone_positions sensor_positions g)
       (fun ag => partitions (len drone_positions) sensor_positions (fst ag))
       (genetic_error drone_positions sensor_positions).
Proof.
  rewrite search_returns_best_of_last.
  pose proof (population_after_spec drone_positions sensor_positions
                                    generations g) as H.
  destruct (population_after generations drone_positions sensor_positions g)
    as [[pop g1]|e]; [|exact H].
  simpl in H. destruct H as [Hall Hlen].
  destruct (best_of_spec drone_positions sensor_positions pop Hall Hlen)
    as (b & f & Hbest & Hin & _).
  unfold Random.lift. rewrite Hbest. simpl.
  rewrite Forall_forall in Hall. now apply Hall.
Qed.

Lemma populate_ret (n : nat) (a : assignment) :
  forall population g,
    populate n (Random.ret a) population g
    = Ok (population ++ repeat a n, g).
Proof.
  induction n as [|n IH]; intros population g; simpl.
  - unfold Random.ret. now rewrite app_nil_r.
  - unfold Random.bind. unfold Random.ret at 1. rewrite IH.
    now rewrite <- app_assoc.
Qed.

Lemma evolve_first (drone_positions sensor_positions : list node) (k : nat)
      (population : list assignment) (g : Random.rng) :
  evolve (S k) drone_positions sensor_positions population g
  = match next_generation drone_positions sensor_positions population g with
    | Ok (population', g') =>
        evolve k drone_positions sensor_positions population' g'
    | Raise e => Raise e
    end.
Proof. reflexivity. Qed.

Lemma refill_raises (fuel : nat) (make : Random.M assignment)
      (population : list assignment) (g : Random.rng) (e : pyerror) :
  (length population < population_size)%nat ->
  make g = Raise e ->
  refill (S fuel) make population g = Raise e.
Proof.
  intros Hlen Hmake. rewrite refill_unfold.
  apply Nat.ltb_lt in Hlen. rewrite Hlen.
  unfold Random.bind. now rewrite Hmake.
Qed.

(** With no sensor, the first child is bred from three draws: two for the
    parents and one for the mutation. *)
Lemma breed_without_sensors (drone_positions : list node)
      (survivors : list assignment) (g : Random.rng) :
  survivors <> [] ->
  Rltb (nth_random g 2) mutation_rate = true ->
  breed drone_positions [] survivors g = Raise IndexError.
Proof.
  intros Hne Hr. destruct survivors as [|x l]; [congruence|].
  destruct g as [draws cursor].
  cbv beta iota delta [nth_random Nat.add Random.draws Random.cursor] in Hr.
  cbv beta iota delta [breed Random.bind Random.choice Random.next_draw
                       Random.ret for_each_rand mutate Random.random
                       Random.lift Random.draws Random.cursor].
  rewrite Hr. reflexivity.
Qed.

(** X12. The genetic search on an empty sensor list: whatever the drones
    and the oracle, it returns the candidate that gives every drone an
    empty list, or raises IndexError (from [random.choice] of the empty
    sensor list when a mutation is drawn); it raises as soon as the third
    draw, the mutation draw of the first child, falls below
    [mutation_rate]. *)
Theorem genetic_without_sensors
        (drone_positions : list node) (g : Random.rng) :
  post (genetic_algorithm_optimization drone_positions [] g)
       (fun ag => fst ag = empty_assignment (len drone_positions))
       (fun e => e = IndexError) /\
  ((nth_random g 2 < mutation_rate)%R ->
   genetic_algorithm_optimization drone_positions [] g = Raise IndexError).
Proof.
  split.
  - pose proof (genetic_post drone_positions [] g) as H.
    destruct (genetic_algorithm_optimization drone_positions [] g)
      as [[a g']|e]; simpl in *.
    + now apply partition_of_nothing.
    + destruct H as [(_ & _ & H) | [H _]]; [congruence | exact H].
  - intros Hr. apply Rltb_true_intro in Hr.
    set (e0 := empty_assignment (len drone_positions)).
    assert (Hinit : initial_population drone_positions [] g
                    = Ok (repeat e0 population_size, g)).
    { unfold initial_population, random_assignment. cbn [for_each_rand].
      now rewrite populate_ret. }
    assert (Hfit : Forall (fun a => exists f, fitness drone_positions a = Ok f)
                          (repeat e0 population_size)).
    { apply Forall_forall. intros a Ha. apply repeat_spec in Ha. subst a.
      apply fitness_total. intros k Hk. unfold e0 in Hk.
      rewrite empty_assignment_keys in Hk. now apply in_range in Hk. }
    destruct (fitness_scores_spec drone_positions _ Hfit)
      as (scores & Hs & Hmap & _).
    assert (Hnext : next_generation drone_positions []
                                    (repeat e0 population_size) g
                    = Raise IndexError).
    { unfold next_generation. unfold Random.bind at 1.
      rewrite Hs. unfold Random.lift.
      set (survivors := map fst (firstn (population_size / 2)
                                        (sort_desc snd scores))).
      assert (Hsl : length survivors = 25%nat).
      { unfold survivors.
        rewrite length_map, length_firstn, sort_desc_length.
        rewrite <- (length_map fst scores), Hmap, repeat_length.
        reflexivity. }
      apply (refill_raises 49).
      - rewrite Hsl. unfold population_size. lia.
      - apply breed_without_sensors; [|exact Hr].
        intros Heq. rewrite Heq in Hsl. discriminate. }
    unfold genetic_algorithm_optimization. unfold Random.bind at 1.
    rewrite Hinit. unfold Random.bind at 1.
    change generations with (S 99). rewrite evolve_first, Hnext.
    reflexivity.
Qed.

Lemma genetic_without_sensors_witness :
  genetic_algorithm_optimization one_drone [] zero_draws = Raise IndexError.
Proof.
  apply (genetic_without_sensors one_drone zero_draws).
  unfold nth_random, mutation_rate. simpl.
  unfold Rdiv. rewrite Rmult_0_l. lra.
Defined.

End NoSensors.

(** *** The topology of the simulation *)

Module TopologyFacts.
Import BatchOptimizer Topology TopologySpec.

Lemma str_inj (i j : Z) : str i = str j -> i = j.
Proof.
  unfold str. intros H. apply (f_equal NilEmpty.int_of_string) in H.
  rewrite !NilEmpty.isi in H. injection H as H.
  apply (f_equal Z.of_int) in H. now rewrite !DecimalZ.of_to in H.
Qed.

Lemma append_inj (p a b : string) :
  String.append p a = String.append p b -> a = b.
Proof. induction p as [|c p IH]; simpl; [auto | intros [= H]; auto]. Qed.

Lemma sensor_name_inj (i j : Z) : sensor_name i = sensor_name j -> i = j.
Proof. intros H. apply append_inj in H. now apply str_inj. Qed.

Lemma drone_name_inj (i j : Z) : drone_name i = drone_name j -> i = j.
Proof. intros H. apply append_inj in H. now apply str_inj. Qed.

Lemma sensor_not_fixed (i : Z) : ~ In (sensor_name i) (skeys fixed_nodes).
Proof. simpl. intros [H | [H | [H | []]]]; discriminate. Qed.

Lemma drone_not_fixed (i : Z) : ~ In (drone_name i) (skeys fixed_nodes).
Proof. simpl. intros [H | [H | [H | []]]]; discriminate. Qed.

Lemma drone_not_sensor (i j : Z) : drone_name i <> sensor_name j.
Proof. discriminate. Qed.

Lemma sset_fresh {V} (d : sdict V) (k : string) (v : V) :
  ~ In k (skeys d) -> sset d k v = d ++ [(k, v)].
Proof.
  induction d as [|[k' v'] d IH]; simpl; intros Hk; [reflexivity|].
  destruct (String.eqb_spec k' k) as [->|Hne]; [tauto|].
  rewrite IH by tauto. reflexivity.
Qed.

Lemma skeys_app {V} (d d' : sdict V) : skeys (d ++ d') = skeys d ++ skeys d'.
Proof. apply map_app. Qed.

Lemma random_unit (g : Random.rng) :
  exists r g', Random.random g = Ok (r, g') /\ (0 <= r < 1)%R.
Proof.
  unfold Random.random, Random.bind, Random.next_draw, Random.ret.
  eexists _, _. split; [reflexivity|].
  set (m := (Z.of_N _ mod 2 ^ 53)%Z).
  assert (Hm : (0 <= m < 2 ^ 53)%Z) by (apply Z.mod_pos_bound; lia).
  assert (Hpos : (0 < IZR (2 ^ 53))%R) by (apply IZR_lt; lia).
  split.
  - apply Rmult_le_pos; [apply IZR_le; lia|].
    left. now apply Rinv_0_lt_compat.
  - apply Rmult_lt_reg_r with (r := IZR (2 ^ 53)); [exact Hpos|].
    unfold Rdiv. rewrite Rmult_assoc, Rinv_l, Rmult_1_r, Rmult_1_l by lra.
    apply IZR_lt. lia.
Qed.

Lemma uniform_range (a b : R) (g : Random.rng) :
  (a < b)%R ->
  exists x g', uniform a b g = Ok (x, g') /\ (a <= x < b)%R.
Proof.
  intros Hab. destruct (random_unit g) as (r & g' & Hr & Hr0 & Hr1).
  unfold uniform, Random.bind. rewrite Hr. unfold Random.ret.
  eexists _, _. split; [reflexivity|]. split; nra.
Qed.

(** **** The two loops *)

Lemma sensors_loop (grid_size : Z) (ids : list Z) :
  forall self sensor_ids,
    NoDup ids ->
    (forall i, In i ids -> ~ In (sensor_name i) (skeys (nodes self))) ->
    let r := fold_left (add_sensor grid_size) ids (self, sensor_ids) in
    nodes (fst r) = nodes self ++ map (sensor_node grid_size) ids /\
    edges (fst r) = edges self ++ sensor_edges (map sensor_name ids) /\
    sensor_positions (fst r)
    = sensor_positions self ++ map (sensor_at grid_size) ids /\
    drone_positions (fst r) = drone_positions self /\
    num_sensors (fst r) = num_sensors self /\
    num_drones (fst r) = num_drones self /\
    snd r = sensor_ids ++ map sensor_name ids.
Proof.
  induction ids as [|i ids IH]; intros self sensor_ids Hnd Hfresh r.
  - subst r. simpl. rewrite !app_nil_r. auto 8.
  - subst r. cbn [fold_left].
    inversion Hnd as [|? ? Hi Hnd']; subst.
    destruct (add_sensor grid_size (self, sensor_ids) i)
      as [self1 ids1] eqn:Hstep.
    unfold add_sensor in Hstep. injection Hstep as Hself1 Hids1.
    assert (Hnodes1 : nodes self1
                      = nodes self ++ [sensor_node grid_size i]).
    { rewrite <- Hself1.
      cbn [nodes add_edge add_node with_edges with_nodes
                 with_sensor_positions].
      apply sset_fresh. apply Hfresh. now left. }
    assert (Hrest : edges self1
                    = edges self ++ sensor_edges [sensor_name i] /\
                    sensor_positions self1
                    = sensor_positions self ++ [sensor_at grid_size i] /\
                    drone_positions self1 = drone_positions self /\
                    num_sensors self1 = num_sensors self /\
                    num_drones self1 = num_drones self).
    { rewrite <- Hself1.
      cbn [edges sensor_positions drone_positions num_sensors num_drones
                 add_edge add_node with_edges with_nodes
                 with_sensor_positions].
      rewrite <- app_assoc. repeat split; reflexivity. }
    destruct Hrest as (Hedges1 & Hsp1 & Hdp1 & Hns1 & Hnd1).
    destruct (IH self1 ids1 Hnd') as (Hn & He & Hs & Hd & Hns & Hndr & Hids).
    { intros j Hj. rewrite Hnodes1, skeys_app, in_app_iff.
      intros [Hin | [Heq | []]].
      - apply (Hfresh j); [now right | exact Hin].
      - simpl in Heq. apply sensor_name_inj in Heq. subst j. contradiction. }
    rewrite Hn, He, Hs, Hd, Hns, Hndr, Hids.
    rewrite Hnodes1, Hedges1, Hsp1, Hdp1, Hns1, Hnd1, <- Hids1.
    rewrite <- !app_assoc. simpl. auto 8.
Qed.

Lemma drones_loop (ids : list Z) :
  forall self drone_ids g,
    NoDup ids ->
    (forall i, In i ids -> ~ In (drone_name i) (skeys (nodes self))) ->
    exists self' ps g',
      for_each_rand ids add_drone (self, drone_ids) g
      = Ok ((self', drone_ids ++ map drone_name ids), g') /\
      nodes self' = nodes self ++ map drone_node ps /\
      edges self' = edges self ++ drone_edges (map drone_name ids) /\
      sensor_positions self' = sensor_positions self /\
      drone_positions self' = drone_positions self ++ ps /\
      num_sensors self' = num_sensors self /\
      num_drones self' = num_drones self /\
      map node_id ps = map drone_name ids /\
      Forall in_field ps.
Proof.
  induction ids as [|i ids IH]; intros self drone_ids g Hnd Hfresh.
  - exists self, [], g. simpl. rewrite !app_nil_r. auto 10.
  - inversion Hnd as [|? ? Hi Hnd']; subst.
    destruct (uniform_range (-60) 60 g) as (x & g1 & Hx & Hxr); [lra|].
    destruct (uniform_range (-60) 60 g1) as (y & g2 & Hy & Hyr); [lra|].
    set (p := (x, y, drone_name i) : node).
    set (self1 :=
           add_edge
             (add_edge
                (with_drone_positions
                   (add_node self (drone_name i) (snd (drone_node p)))
                   (drone_positions self ++ [p]))
                (drone_name i) fog_id {| BW := 50; PR := 50 |})
             fog_id (drone_name i) {| BW := 50; PR := 50 |}).
    assert (Hstep : add_drone i (self, drone_ids) g
                    = Ok ((self1, drone_ids ++ [drone_name i]), g2)).
    { unfold add_drone, Random.bind. rewrite Hx, Hy. reflexivity. }
    assert (Hnodes1 : nodes self1 = nodes self ++ [drone_node p]).
    { unfold self1.
      cbn [nodes add_edge add_node with_edges with_nodes
                 with_drone_positions].
      apply sset_fresh. apply Hfresh. now left. }
    destruct (IH self1 (drone_ids ++ [drone_name i]) g2 Hnd')
      as (self' & ps & g' & Hrun & Hn & He & Hs & Hd & Hns & Hndr & Hids
          & Hfield).
    { intros j Hj. rewrite Hnodes1, skeys_app, in_app_iff.
      intros [Hin | [Heq | []]].
      - apply (Hfresh j); [now right | exact Hin].
      - simpl in Heq. apply drone_name_inj in Heq. subst j. contradiction. }
    exists self', (p :: ps), g'.
    cbn [for_each_rand]. unfold Random.bind at 1. rewrite Hstep.
    rewrite Hrun, Hn, He, Hs, Hd, Hns, Hndr, Hnodes1.
    unfold self1.
    cbn [edges sensor_positions drone_positions num_sensors num_drones
               add_edge add_node with_edges with_nodes
               with_drone_positions].
    rewrite <- !app_assoc. simpl. rewrite Hids.
    split; [reflexivity|]. do 6 (split; [reflexivity|]).
    split; [reflexivity|]. constructor; [|exact Hfield].
    split; [exact Hxr | exact Hyr].
Qed.

Lemma create_topology_unfold (n_sensors n_drones : Z) :
  create_topology (__init__ n_sensors n_drones)
  = (grid_size <- Random.lift (int_sqrt n_sensors) ;;
     let '(self, sensor_ids) :=
       fold_left (add_sensor grid_size) (range n_sensors)
                 (fixed_part n_sensors n_drones, []) in
     st <- for_each_rand (range (num_drones self)) add_drone (self, []) ;;
     let '(self, drone_ids) := st in
     Random.ret (self, sensor_ids, drone_ids))%rand.
Proof. reflexivity. Qed.

Lemma sensor_cells_distinct (n : Z) :
  NoDup (map (fun i => xy (sensor_at (Z.sqrt n) i)) (range n)).
Proof.
  apply NoDup_map_NoDup_ForallPairs; [|apply NoDup_range].
  intros i j Hi Hj Heq. apply in_range in Hi. apply in_range in Hj.
  assert (Hroot : (0 < Z.sqrt n)%Z).
  { apply Z.sqrt_pos. lia. }
  unfold sensor_at, xy in Heq. simpl in Heq. inversion Heq as [[Hx Hy]].
  apply eq_IZR in Hx. apply eq_IZR in Hy.
  rewrite (Z.div_mod i (Z.sqrt n)), (Z.div_mod j (Z.sqrt n)) by lia.
  assert (i mod Z.sqrt n = j mod Z.sqrt n)%Z by lia.
  assert (i / Z.sqrt n = j / Z.sqrt n)%Z by lia.
  congruence.
Qed.

Lemma create_topology_spec (n_sensors n_drones : Z) (g : Random.rng) :
  (0 <= n_sensors)%Z ->
  exists self g',
    create_topology (__init__ n_sensors n_drones) g
    = Ok ((self, map sensor_name (range n_sensors),
           map drone_name (range n_drones)), g') /\
    nodes self
    = fixed_nodes ++ map (sensor_node (Z.sqrt n_sensors)) (range n_sensors)
                  ++ map drone_node (drone_positions self) /\
    edges self
    = fixed_edges ++ sensor_edges (map sensor_name (range n_sensors))
                  ++ drone_edges (map drone_name (range n_drones)) /\
    sensor_positions self
    = map (sensor_at (Z.sqrt n_sensors)) (range n_sensors) /\
    map node_id (drone_positions self) = map drone_name (range n_drones) /\
    Forall in_field (drone_positions self) /\
    num_sensors self = n_sensors /\ num_drones self = n_drones.
Proof.
  intros Hn. rewrite create_topology_unfold.
  unfold Random.bind at 1. unfold int_sqrt.
  replace (n_sensors <? 0)%Z with false by (symmetry; apply Z.ltb_ge; lia).
  unfold Random.lift.
  pose proof (sensors_loop (Z.sqrt n_sensors) (range n_sensors)
                (fixed_part n_sensors n_drones) [] (NoDup_range _)
                (fun i _ => sensor_not_fixed i)) as Hs.
  destruct (fold_left (add_sensor (Z.sqrt n_sensors)) (range n_sensors)
                      (fixed_part n_sensors n_drones, []))
    as [self1 sensor_ids].
  cbn [fst snd] in Hs.
  destruct Hs as (Hn1 & He1 & Hs1 & Hd1 & Hns1 & Hnd1 & Hids1).
  cbn [nodes edges sensor_positions drone_positions num_sensors num_drones
             fixed_part] in Hn1, He1, Hs1, Hd1, Hns1, Hnd1.
  simpl app in Hids1, Hs1. rewrite Hnd1.
  destruct (drones_loop (range n_drones) self1 [] g (NoDup_range _))
    as (self' & ps & g' & Hrun & Hn2 & He2 & Hs2 & Hd2 & Hns2 & Hnd2 & Hids2
        & Hfield).
  { intros i _. rewrite Hn1, skeys_app, in_app_iff.
    intros [Hin | Hin]; [now apply drone_not_fixed in Hin|].
    unfold skeys in Hin. rewrite map_map in Hin.
    apply in_map_iff in Hin as (j & Heq & _). simpl in Heq.
    symmetry in Heq. now apply drone_not_sensor in Heq. }
  exists self', g'. unfold Random.bind. rewrite Hrun. unfold Random.ret.
  simpl app. rewrite Hids1.
  rewrite Hd1 in Hd2. simpl in Hd2. subst ps.
  split; [reflexivity|].
  split; [rewrite Hn2, Hn1; now rewrite <- app_assoc|].
  split; [rewrite He2, He1; now rewrite <- app_assoc|].
  split; [now rewrite Hs2|]. split; [exact Hids2|]. split; [exact Hfield|].
  split; congruence.
Qed.

(** X13. [create_topology] on a fresh object. A negative number of
    sensors raises ValueError. Otherwise it returns, whatever the random
    draws: sensor [i] is named [soil_sensor_i] and sits at
    [((i mod g) * 20 - 40, (i // g) * 20 - 40)] with
    [g = int(sqrt(num_sensors))], so that the sensor ids are pairwise
    different and no two sensors share a point; drone [i] is named
    [drone_i] and lies in the square [-60 <= x, y < 60]. *)
Theorem create_topology_layout (n_sensors n_drones : Z) (g : Random.rng) :
  ((n_sensors < 0)%Z ->
   create_topology (__init__ n_sensors n_drones) g = Raise ValueError) /\
  ((0 <= n_sensors)%Z ->
   exists self sensor_ids drone_ids g',
     create_topology (__init__ n_sensors n_drones) g
     = Ok ((self, sensor_ids, drone_ids), g') /\
     sensor_ids = map sensor_name (range n_sensors) /\
     drone_ids = map drone_name (range n_drones) /\
     sensor_positions self
     = map (sensor_at (Z.sqrt n_sensors)) (range n_sensors) /\
     map node_id (sensor_positions self) = sensor_ids /\
     map node_id (drone_positions self) = drone_ids /\
     NoDup sensor_ids /\ NoDup drone_ids /\
     NoDup (map xy (sensor_positions self)) /\
     Forall in_field (drone_positions self)).
Proof.
  split.
  - intros Hneg. rewrite create_topology_unfold.
    unfold Random.bind at 1. unfold int_sqrt.
    apply Z.ltb_lt in Hneg. now rewrite Hneg.
  - intros Hn.
    destruct (create_topology_spec n_sensors n_drones g Hn)
      as (self & g' & Hrun & _ & _ & Hs & Hd & Hfield & _).
    exists self, (map sensor_name (range n_sensors)),
      (map drone_name (range n_drones)), g'.
    split; [exact Hrun|]. split; [reflexivity|]. split; [reflexivity|].
    split; [exact Hs|].
    split; [rewrite Hs, map_map; reflexivity|]. split; [exact Hd|].
    split; [|split; [|split; [|exact Hfield]]].
    + apply Injective_map_NoDup; [|apply NoDup_range].
      intros i j. apply sensor_name_inj.
    + apply Injective_map_NoDup; [|apply NoDup_range].
      intros i j. apply drone_name_inj.
    + rewrite Hs, map_map. apply sensor_cells_distinct.
Qed.

Lemma both_ways_sym (u v : string) (att : link) (e : edge) :
  In e (both_ways u v att) ->
  In (snd (fst e), fst (fst e), snd e) (both_ways u v att).
Proof. simpl. intros [<- | [<- | []]]; simpl; auto. Qed.

Lemma flat_both_ways_sym (w : string) (att : link) (ids : list string)
      (e : edge) :
  In e (flat_map (fun id => both_ways id w att) ids) ->
  In (snd (fst e), fst (fst e), snd e)
     (flat_map (fun id => both_ways id w att) ids) /\
  exists id, In id ids /\
             ((fst (fst e) = id /\ snd (fst e) = w) \/
              (fst (fst e) = w /\ snd (fst e) = id)).
Proof.
  intros He. apply in_flat_map in He as (id & Hid & He). split.
  - apply in_flat_map. exists id. split; [exact Hid|].
    now apply both_ways_sym.
  - exists id. split; [exact Hid|].
    simpl in He. destruct He as [<- | [<- | []]]; simpl; auto.
Qed.

Lemma flat_both_ways_length (w : string) (att : link) (ids : list string) :
  length (flat_map (fun id => both_ways id w att) ids)
  = (2 * length ids)%nat.
Proof. induction ids as [|id ids IH]; simpl; [reflexivity | lia]. Qed.

(** X14. The graph that [create_topology] builds on a fresh object, when
    it returns: the node dictionary holds the three fixed nodes, then the
    sensors, then the drones, with no id twice; there are
    [4 + 2 * num_sensors + 2 * num_drones] edges; every edge joins two
    nodes of the dictionary and comes with the edge of the opposite
    direction and the same attributes; every sensor is linked to the
    gateway and every drone to the fog server. The only exception is the
    ValueError of a negative number of sensors. *)
Theorem create_topology_graph (n_sensors n_drones : Z) (g : Random.rng) :
  post (create_topology (__init__ n_sensors n_drones) g)
       (fun out =>
          let self := fst (fst (fst out)) in
          let sensor_ids := snd (fst (fst out)) in
          let drone_ids := snd (fst out) in
          skeys (nodes self)
          = [cloud_id; fog_id; gateway_id] ++ sensor_ids ++ drone_ids /\
          NoDup (skeys (nodes self)) /\
          length (edges self)
          = (4 + 2 * Z.to_nat n_sensors + 2 * Z.to_nat n_drones)%nat /\
          (forall u v att,
              In (u, v, att) (edges self) ->
              In (v, u, att) (edges self) /\
              In u (skeys (nodes self)) /\ In v (skeys (nodes self))) /\
          (forall id, In id sensor_ids ->
                      In (id, gateway_id, {| BW := 1; PR := 100 |})
                         (edges self)) /\
          (forall id, In id drone_ids ->
                      In (id, fog_id, {| BW := 50; PR := 50 |})
                         (edges self)))
       (fun e => e = ValueError /\ (n_sensors < 0)%Z).
Proof.
  destruct (Z.lt_ge_cases n_sensors 0) as [Hneg | Hn].
  - rewrite create_topology_unfold.
    unfold Random.bind at 1. unfold int_sqrt.
    pose proof Hneg as Hlt. apply Z.ltb_lt in Hlt. rewrite Hlt.
    simpl. auto.
  - destruct (create_topology_spec n_sensors n_drones g Hn)
      as (self & g' & -> & Hnodes & Hedges & Hs & Hd & _).
    unfold post. cbn [fst snd].
    set (sensor_ids := map sensor_name (range n_sensors)) in *.
    set (drone_ids := map drone_name (range n_drones)) in *.
    assert (Hkeys : skeys (nodes self)
                    = [cloud_id; fog_id; gateway_id]
                        ++ sensor_ids ++ drone_ids).
    { rewrite Hnodes. unfold skeys. rewrite !map_app, !map_map.
      f_equal. f_equal. rewrite <- Hd. reflexivity. }
    assert (Hsnd : NoDup sensor_ids).
    { apply Injective_map_NoDup; [|apply NoDup_range].
      intros i j. apply sensor_name_inj. }
    assert (Hdnd : NoDup drone_ids).
    { apply Injective_map_NoDup; [|apply NoDup_range].
      intros i j. apply drone_name_inj. }
    assert (Hsfix : forall id, In id sensor_ids ->
                               ~ In id [cloud_id; fog_id; gateway_id]).
    { intros id Hid. apply in_map_iff in Hid as (i & <- & _).
      apply (sensor_not_fixed i). }
    assert (Hdfix : forall id, In id drone_ids ->
                               ~ In id [cloud_id; fog_id; gateway_id]).
    { intros id Hid. apply in_map_iff in Hid as (i & <- & _).
      apply (drone_not_fixed i). }
    assert (Hds : forall id, In id drone_ids -> ~ In id sensor_ids).
    { intros id Hid Hin. apply in_map_iff in Hid as (i & <- & _).
      apply in_map_iff in Hin as (j & Heq & _).
      symmetry in Heq. now apply drone_not_sensor in Heq. }
    split; [exact Hkeys|]. split; [|split; [|split; [|split]]].
    + rewrite Hkeys. apply NoDup_app.
      * repeat constructor; simpl; intuition discriminate.
      * apply NoDup_app; [exact Hsnd | exact Hdnd|].
        intros id Hin Hin'. exact (Hds id Hin' Hin).
      * intros id Hin Hin'. apply in_app_iff in Hin' as [Hin' | Hin'].
        -- exact (Hsfix id Hin' Hin).
        -- exact (Hdfix id Hin' Hin).
    + rewrite Hedges, !length_app.
      unfold sensor_edges, drone_edges. rewrite !flat_both_ways_length.
      unfold sensor_ids, drone_ids. rewrite !length_map, !range_length.
      simpl. lia.
    + intros u v att Hin. rewrite Hkeys. rewrite Hedges in Hin |- *.
      rewrite !in_app_iff in Hin. rewrite !in_app_iff.
      destruct Hin as [Hin | [Hin | Hin]].
      * simpl in Hin.
        destruct Hin as [H | [H | [H | [H | []]]]]; inversion H; subst;
          simpl; intuition auto.
      * apply flat_both_ways_sym in Hin as (Hsym & id & Hid & Hends).
        simpl in Hsym, Hends. split; [auto|].
        destruct Hends as [[-> ->] | [-> ->]]; simpl; auto 10.
      * apply flat_both_ways_sym in Hin as (Hsym & id & Hid & Hends).
        simpl in Hsym, Hends. split; [auto|].
        destruct Hends as [[-> ->] | [-> ->]]; simpl; auto 10.
    + intros id Hid. rewrite Hedges, !in_app_iff. right. left.
      apply in_flat_map. exists id. split; [exact Hid | now left].
    + intros id Hid. rewrite Hedges, !in_app_iff. right. right.
      apply in_flat_map. exists id. split; [exact Hid | now left].
Qed.

End TopologyFacts.

(** *** The simulation run *)

Module SimulationFacts.
Import PyDict PyDictFacts BatchOptimizer BatchOptimizerSpec AssignmentFacts.
Import GeneticSearch BatchRuns BatchRunsFacts.
Import Topology TopologySpec TopologyFacts Simulation SimulationSpec.

Lemma wp_random_unit (Q : R -> Prop) E :
  (forall r, (0 <= r < 1)%R -> Q r) -> wp Random.random Q E.
Proof.
  intros HQ g. destruct (random_unit g) as (r & g' & Hr & Hrange).
  rewrite Hr. simpl. auto.
Qed.

Lemma wp_uniform (a b : R) (Q : R -> Prop) E :
  (a < b)%R -> (forall x, (a <= x < b)%R -> Q x) -> wp (uniform a b) Q E.
Proof.
  intros Hab HQ. unfold uniform. apply wp_bind. apply wp_random_unit.
  intros r Hr. apply wp_ret. apply HQ. nra.
Qed.

(** **** Growth of the logs and drain of the batteries *)

Lemma advanced_refl (st : state) : advanced (fun _ => O) 0 0 0 0 0 st st.
Proof.
  split.
  - unfold grown. repeat split; lia.
  - split; [reflexivity|]. intros j e Hj. exists e. split; [exact Hj|].
    simpl. lra.
Qed.

Lemma advanced_trans c1 m1 nm1 e1 np1 la1 c2 m2 nm2 e2 np2 la2
      (st st' st'' : state) :
  advanced c1 m1 nm1 e1 np1 la1 st st' ->
  advanced c2 m2 nm2 e2 np2 la2 st' st'' ->
  advanced (fun j => c1 j + c2 j)%nat (m1 + m2) (nm1 + nm2) (e1 + e2)
           (np1 + np2) (la1 + la2) st st''.
Proof.
  intros [(G1 & G2 & G3 & G4 & G5 & G6) [K1 D1]]
         [(H1 & H2 & H3 & H4 & H5 & H6) [K2 D2]].
  split.
  - unfold grown. rewrite H1, H2, H3, H4, H5, H6, G1, G2, G3, G4, G5, G6.
    repeat split; lia.
  - split; [congruence|]. intros j e Hj.
    destruct (D1 j e Hj) as (e' & Hj' & Hb1).
    destruct (D2 j e' Hj') as (e'' & Hj'' & Hb2).
    exists e''. split; [exact Hj''|]. rewrite plus_INR. lra.
Qed.

Lemma advanced_weaken c m nm e np la c' m' nm' e' np' la' (st st' : state) :
  advanced c m nm e np la st st' ->
  (forall j, c j = c' j) ->
  m = m' -> nm = nm' -> e = e' -> np = np' -> la = la' ->
  advanced c' m' nm' e' np' la' st st'.
Proof.
  intros [Hg [Hk Hd]] Hc -> -> -> -> ->. split; [exact Hg|].
  split; [exact Hk|]. intros j e0 Hj. rewrite <- Hc. auto.
Qed.

Lemma advanced_keys c m nm e np la (st st' : state) :
  advanced c m nm e np la st st' ->
  keys (drone_energy st') = keys (drone_energy st).
Proof. intros [_ [Hk _]]. exact Hk. Qed.

Lemma logged c m nm e np la (st : state) (l : SimulationLogger) :
  grown m nm e np la (logger st) l ->
  c = (fun _ : Z => O) ->
  advanced c m nm e np la st (with_logger st l).
Proof.
  intros Hg ->. split; [exact Hg|]. split; [reflexivity|].
  intros j e0 Hj. exists e0. split; [exact Hj|]. simpl. lra.
Qed.

Lemma wp_advanced_loop {A} (body : A -> state -> Random.M state)
      (c : A -> Z -> nat) (m nm e np la : A -> nat) (K : list Z) E
      (l : list A) :
  (forall x st, In x l -> keys (drone_energy st) = K ->
                wp (body x st)
                   (advanced (c x) (m x) (nm x) (e x) (np x) (la x) st) E) ->
  forall st,
    keys (drone_energy st) = K ->
    wp (for_each_rand l body st)
       (advanced (fun j => list_sum (map (fun x => c x j) l))
                 (list_sum (map m l)) (list_sum (map nm l))
                 (list_sum (map e l)) (list_sum (map np l))
                 (list_sum (map la l)) st)
       E.
Proof.
  induction l as [|x l IH]; intros Hbody st Hk.
  - apply wp_ret. apply advanced_refl.
  - cbn [for_each_rand]. apply wp_bind.
    apply wp_conseq with (1 := Hbody x st (or_introl eq_refl) Hk).
    intros st1 H1.
    assert (Hk1 : keys (drone_energy st1) = K)
      by (rewrite (advanced_keys _ _ _ _ _ _ _ _ H1); exact Hk).
    apply wp_conseq
      with (1 := IH (fun y st' Hy => Hbody y st' (or_intror Hy)) st1 Hk1).
    intros st2 H2. exact (advanced_trans _ _ _ _ _ _ _ _ _ _ _ _ _ _ _ H1 H2).
Qed.

Lemma list_sum_const {A} (k : nat) (l : list A) :
  list_sum (map (fun _ => k) l) = (length l * k)%nat.
Proof. induction l as [|x l IH]; simpl; [reflexivity | now rewrite IH]. Qed.

(** **** The pieces of one turn *)

Lemma collect_spec (t i : Z) (sensor : node) (st : state) E :
  In i (keys (drone_energy st)) ->
  wp (collect t i sensor st)
     (advanced (fun j => if (j =? i)%Z then 1 else 0)%nat 2 0 1 0 1 st) E.
Proof.
  intros Hi. unfold collect.
  apply wp_bind; apply wp_randint; [lia|]. intros sensor_data_size _.
  apply wp_bind; apply wp_uniform; [lra|]. intros sensor_latency _.
  apply wp_bind; apply wp_randint; [lia|]. intros image_size _.
  apply wp_bind; apply wp_uniform; [lra|]. intros capture_time _.
  apply wp_bind; apply wp_uniform; [lra|]. intros processing_time _.
  apply wp_bind; apply wp_uniform; [lra|]. intros fog_latency _.
  apply wp_bind; apply wp_uniform; [lra|]. intros energy_consumed Hc.
  apply wp_bind; apply wp_lift. unfold getitem.
  destruct (get (drone_energy st) i) as [energy|] eqn:Hget.
  - unfold post. apply wp_ret. split.
    + unfold grown.
      cbn [logger messages node_metrics task_assignments energy_consumption
                  network_performance latency_analysis log_message
                  log_latency_analysis log_energy_consumption].
      rewrite !length_app. simpl. repeat split; lia.
    + cbn [drone_energy]. split; [now apply keys_set_present|].
      intros j e0 Hj. destruct (Z.eqb_spec j i) as [->|Hne].
      * rewrite get_set_same. rewrite Hget in Hj. inversion Hj; subst e0.
        eexists. split; [reflexivity|]. simpl. lra.
      * rewrite get_set_other by assumption. exists e0.
        split; [exact Hj|]. simpl. lra.
  - exfalso. apply get_in_keys in Hi as [e He]. congruence.
Qed.

Lemma collect_all_spec (t : Z) (a : assignment) (drone : Z * string)
      (st : state) E :
  In (fst drone) (keys (drone_energy st)) ->
  wp (collect_all t a drone st)
     (advanced (fun j => if (j =? fst drone)%Z then load a (fst drone) else O)
               (2 * load a (fst drone)) 0 (load a (fst drone)) 0
               (load a (fst drone)) st)
     E.
Proof.
  intros Hi. unfold collect_all.
  apply wp_conseq
    with (1 := wp_advanced_loop
                 (collect t (fst drone))
                 (fun _ j => if (j =? fst drone)%Z then 1 else 0)%nat
                 (fun _ => 2%nat) (fun _ => O) (fun _ => 1%nat) (fun _ => O)
                 (fun _ => 1%nat) (keys (drone_energy st)) E
                 (get_default a (fst drone) [])
                 (fun x st' _ Hk =>
                    collect_spec t (fst drone) x st' E
                                 (eq_ind_r (In (fst drone)) Hi Hk))
                 st eq_refl).
  intros st' H. apply advanced_weaken with (1 := H); unfold load;
    rewrite ?list_sum_const; try lia.
  intros j. rewrite list_sum_const. destruct (j =? fst drone)%Z; lia.
Qed.

Lemma report_spec (t : Z) (st : state) E :
  wp (report t st) (advanced (fun _ => O) 1 0 0 0 0 st) E.
Proof.
  unfold report.
  apply wp_bind; apply wp_randint; [lia|]. intros size _.
  apply wp_bind; apply wp_uniform; [lra|]. intros latency _.
  apply wp_ret. apply logged; [|reflexivity].
  unfold grown. cbn [logger messages node_metrics task_assignments
                            energy_consumption network_performance
                            latency_analysis log_message].
  rewrite !length_app. simpl. repeat split; lia.
Qed.

Lemma measure_spec (t : Z) (id ty : string) (cpu ram network : R * R)
      (st : state) E :
  (fst cpu < snd cpu)%R -> (fst ram < snd ram)%R ->
  (fst network < snd network)%R ->
  wp (measure t id ty cpu ram network st)
     (advanced (fun _ => O) 0 1 0 0 0 st) E.
Proof.
  intros Hc Hr Hn. unfold measure.
  apply wp_bind; apply wp_uniform; [exact Hc|]. intros c _.
  apply wp_bind; apply wp_uniform; [exact Hr|]. intros r _.
  apply wp_bind; apply wp_uniform; [exact Hn|]. intros n _.
  apply wp_ret. apply logged; [|reflexivity].
  unfold grown. cbn [logger messages node_metrics task_assignments
                            energy_consumption network_performance
                            latency_analysis log_node_metrics].
  rewrite !length_app. simpl. repeat split; lia.
Qed.

Lemma measure_fixed_spec (t : Z) (entry : string * string) (st : state) E :
  wp (measure_fixed t entry st) (advanced (fun _ => O) 0 1 0 0 0 st) E.
Proof.
  unfold measure_fixed. destruct entry as [id ty].
  destruct (String.eqb ty "cloud"); [|destruct (String.eqb ty "fog")];
    apply measure_spec; simpl; lra.
Qed.

Lemma measure_drone_spec (t : Z) (drone : Z * string) (st : state) E :
  wp (measure_drone t drone st) (advanced (fun _ => O) 0 1 0 0 0 st) E.
Proof. unfold measure_drone. apply measure_spec; simpl; lra. Qed.

Lemma measure_sensor_spec (t : Z) (sensor : Z * string) (st : state) E :
  wp (measure_sensor t sensor st) (advanced (fun _ => O) 0 1 0 0 0 st) E.
Proof. unfold measure_sensor. apply measure_spec; simpl; lra. Qed.

Lemma probe_link_spec (t : Z) (link : string * string) (st : state) E :
  wp (probe_link t link st) (advanced (fun _ => O) 0 0 0 1 0 st) E.
Proof.
  assert (H : forall th pl ji,
             (fst th < snd th)%R -> (fst pl < snd pl)%R ->
             (fst ji < snd ji)%R ->
             wp (probe t link th pl ji st)
                (advanced (fun _ => O) 0 0 0 1 0 st) E).
  { intros th pl ji H1 H2 H3. unfold probe.
    apply wp_bind; apply wp_uniform; [exact H1|]. intros x _.
    apply wp_bind; apply wp_uniform; [exact H2|]. intros y _.
    apply wp_bind; apply wp_uniform; [exact H3|]. intros z _.
    apply wp_ret. apply logged; [|reflexivity].
    unfold grown. cbn [logger messages node_metrics task_assignments
                              energy_consumption network_performance
                              latency_analysis log_network_performance].
    rewrite !length_app. simpl. repeat split; lia. }
  unfold probe_link.
  destruct (String.eqb (fst link) "sensors");
    [|destruct (String.eqb (fst link) "drones")]; apply H; simpl; lra.
Qed.

(** **** [enumerate] *)

Lemma fst_combine {A B} (l : list A) (l' : list B) :
  length l = length l' -> map fst (combine l l') = l.
Proof.
  revert l'. induction l as [|x l IH]; intros [|y l'] Hlen; simpl in *;
    try discriminate; [reflexivity|].
  f_equal. apply IH. lia.
Qed.

Lemma len_range {A} (l : list A) : length (range (len l)) = length l.
Proof. rewrite range_length. unfold len. apply Nat2Z.id. Qed.

Lemma enumerate_fst {A} (l : list A) :
  map fst (enumerate l) = range (len l).
Proof. unfold enumerate. apply fst_combine. apply len_range. Qed.

Lemma enumerate_length {A} (l : list A) : length (enumerate l) = length l.
Proof.
  unfold enumerate. rewrite length_combine, len_range. apply Nat.min_id.
Qed.

Lemma enumerate_sum {A} (l : list A) (f : Z -> nat) :
  list_sum (map (fun x => f (fst x)) (enumerate l))
  = list_sum (map f (range (len l))).
Proof. now rewrite <- (enumerate_fst l), map_map. Qed.

(** **** One turn, and all of them *)

Lemma step_spec (a : assignment) (sensor_ids drone_ids : list string)
      (t : Z) (st : state) E :
  (forall i, In i (range (len drone_ids)) ->
             In i (keys (drone_energy st))) ->
  wp (step a sensor_ids drone_ids t st)
     (advanced (step_drain a (len drone_ids))
               (2 * total_load a (len drone_ids) + 1)
               (3 + length drone_ids + length sensor_ids)
               (total_load a (len drone_ids)) 4
               (total_load a (len drone_ids)) st)
     E.
Proof.
  intros Hkeys. unfold step.
  apply wp_bind.
  apply wp_conseq
    with (1 := wp_advanced_loop
                 (collect_all t a)
                 (fun x j => if (j =? fst x)%Z then load a (fst x) else O)
                 (fun x => 2 * load a (fst x))%nat (fun _ => O)
                 (fun x => load a (fst x)) (fun _ => O)
                 (fun x => load a (fst x)) (keys (drone_energy st)) E
                 (enumerate drone_ids)
                 (fun x st' Hx Hk =>
                    collect_all_spec
                      t a x st' E
                      (eq_ind_r (In (fst x))
                                (Hkeys (fst x)
                                   (eq_ind _ (In (fst x))
                                           (in_map fst _ _ Hx) _
                                           (enumerate_fst drone_ids)))
                                Hk))
                 st eq_refl).
  intros st1 H1. apply wp_bind.
  apply wp_conseq with (1 := report_spec t st1 E). intros st2 H2.
  apply wp_bind.
  apply wp_conseq
    with (1 := wp_advanced_loop
                 (measure_fixed t) (fun _ _ => O) (fun _ => O)
                 (fun _ => 1%nat) (fun _ => O) (fun _ => O) (fun _ => O)
                 (keys (drone_energy st2)) E node_types
                 (fun x st' _ _ => measure_fixed_spec t x st' E)
                 st2 eq_refl).
  intros st3 H3. apply wp_bind.
  apply wp_conseq
    with (1 := wp_advanced_loop
                 (measure_drone t) (fun _ _ => O) (fun _ => O)
                 (fun _ => 1%nat) (fun _ => O) (fun _ => O) (fun _ => O)
                 (keys (drone_energy st3)) E (enumerate drone_ids)
                 (fun x st' _ _ => measure_drone_spec t x st' E)
                 st3 eq_refl).
  intros st4 H4. apply wp_bind.
  apply wp_conseq
    with (1 := wp_advanced_loop
                 (measure_sensor t) (fun _ _ => O) (fun _ => O)
                 (fun _ => 1%nat) (fun _ => O) (fun _ => O) (fun _ => O)
                 (keys (drone_energy st4)) E (enumerate sensor_ids)
                 (fun x st' _ _ => measure_sensor_spec t x st' E)
                 st4 eq_refl).
  intros st5 H5.
  apply wp_conseq
    with (1 := wp_advanced_loop
                 (probe_link t) (fun _ _ => O) (fun _ => O)
                 (fun _ => O) (fun _ => O) (fun _ => 1%nat) (fun _ => O)
                 (keys (drone_energy st5)) E links
                 (fun x st' _ _ => probe_link_spec t x st' E)
                 st5 eq_refl).
  intros st6 H6.
  pose proof (advanced_trans _ _ _ _ _ _ _ _ _ _ _ _ _ _ _ H1 H2) as H12.
  pose proof (advanced_trans _ _ _ _ _ _ _ _ _ _ _ _ _ _ _ H12 H3) as H13.
  pose proof (advanced_trans _ _ _ _ _ _ _ _ _ _ _ _ _ _ _ H13 H4) as H14.
  pose proof (advanced_trans _ _ _ _ _ _ _ _ _ _ _ _ _ _ _ H14 H5) as H15.
  pose proof (advanced_trans _ _ _ _ _ _ _ _ _ _ _ _ _ _ _ H15 H6) as H16.
  apply advanced_weaken with (1 := H16); unfold step_drain, total_load;
    rewrite ?list_sum_const, ?enumerate_length;
    rewrite ?(enumerate_sum drone_ids (load a));
    rewrite ?(enumerate_sum drone_ids (fun i => (2 * load a i)%nat)).
  - intros j. rewrite ?list_sum_const.
    rewrite (enumerate_sum drone_ids
               (fun i => if (j =? i)%Z then load a i else O)).
    lia.
  - assert (Hdouble : forall l : list Z,
               list_sum (map (fun i => (2 * load a i)%nat) l)
               = (2 * list_sum (map (load a) l))%nat).
    { induction l as [|x l IH]; cbn [list_sum map fold_right];
        [reflexivity|].
      change (fold_right Nat.add O
                (map (fun i => (2 * load a i)%nat) l))
        with (list_sum (map (fun i => (2 * load a i)%nat) l)).
      change (fold_right Nat.add O (map (load a) l))
        with (list_sum (map (load a) l)).
      rewrite IH. lia. }
    rewrite Hdouble. unfold node_types, links. cbn [length]. lia.
  - unfold node_types, links. cbn [length]. lia.
  - unfold node_types, links. cbn [length]. lia.
  - unfold node_types, links. cbn [length]. lia.
  - unfold node_types, links. cbn [length]. lia.
Qed.

Lemma simulate_unfold (fuel : nat) (a : assignment)
      (sensor_ids drone_ids : list string) (t : Z) (st : state) :
  simulate fuel a sensor_ids drone_ids t st
  = if (t <? SIMULATION_TIME)%Z
    then match fuel with
         | O => Random.ret (t, st)
         | S fuel' =>
             Random.bind (step a sensor_ids drone_ids t st)
               (fun st' => simulate fuel' a sensor_ids drone_ids
                                    (t + TIME_STEP)%Z st')
         end
    else Random.ret (t, st).
Proof. destruct fuel; reflexivity. Qed.

Lemma simulate_spec (a : assignment) (sensor_ids drone_ids : list string) E
      (fuel : nat) :
  forall k st,
    (k <= turns)%nat -> (turns <= k + fuel)%nat ->
    (forall i, In i (range (len drone_ids)) ->
               In i (keys (drone_energy st))) ->
    wp (simulate fuel a sensor_ids drone_ids (TIME_STEP * Z.of_nat k)%Z st)
       (fun out =>
          fst out = SIMULATION_TIME /\
          advanced (fun j => (turns - k) * step_drain a (len drone_ids) j)%nat
                   ((turns - k) * (2 * total_load a (len drone_ids) + 1))
                   ((turns - k) * (3 + length drone_ids + length sensor_ids))
                   ((turns - k) * total_load a (len drone_ids))
                   ((turns - k) * 4)
                   ((turns - k) * total_load a (len drone_ids))
                   st (snd out))
       E.
Proof.
  induction fuel as [|fuel IH]; intros k st Hk Hfuel Hkeys;
    rewrite simulate_unfold;
    destruct (Z.ltb_spec (TIME_STEP * Z.of_nat k) SIMULATION_TIME)
      as [Hlt | Hge]; unfold TIME_STEP, SIMULATION_TIME, turns in *.
  - lia.
  - assert (k = 100%nat) by lia. subst k. apply wp_ret. split; [reflexivity|].
    apply advanced_weaken with (1 := advanced_refl st); reflexivity.
  - assert (Hsplit : (100 - k = S (100 - S k))%nat) by lia.
    apply wp_bind.
    apply wp_conseq
      with (1 := step_spec a sensor_ids drone_ids _ st E Hkeys).
    intros st1 H1.
    replace (10 * Z.of_nat k + 10)%Z with (10 * Z.of_nat (S k))%Z by lia.
    assert (Hkeys1 : forall i, In i (range (len drone_ids)) ->
                               In i (keys (drone_energy st1))).
    { intros i Hi. rewrite (advanced_keys _ _ _ _ _ _ _ _ H1). auto. }
    apply wp_conseq with (1 := IH (S k) st1 ltac:(lia) ltac:(lia) Hkeys1).
    intros out [Ht H2]. split; [exact Ht|].
    pose proof (advanced_trans _ _ _ _ _ _ _ _ _ _ _ _ _ _ _ H1 H2) as H.
    apply advanced_weaken with (1 := H); try intros j; rewrite Hsplit;
      reflexivity.
  - assert (k = 100%nat) by lia. subst k. apply wp_ret. split; [reflexivity|].
    apply advanced_weaken with (1 := advanced_refl st); reflexivity.
Qed.

(** **** The rows of the logs *)

Lemma wp_invariant_loop {A S} (Inv : S -> Prop) E
      (body : A -> S -> Random.M S) (l : list A) :
  (forall x s, In x l -> Inv s -> wp (body x s) Inv E) ->
  forall s, Inv s -> wp (for_each_rand l body s) Inv E.
Proof.
  intros Hbody.
  apply (wp_for_each_rand_done (fun _ => Inv) E body l).
  intros done x s Hx Hs. now apply Hbody.
Qed.

Lemma Forall_snoc {A} (P : A -> Prop) (l : list A) (x : A) :
  Forall P l -> P x -> Forall P (l ++ [x]).
Proof. intros Hl Hx. apply Forall_app. split; [exact Hl | now constructor]. Qed.

Lemma collect_sound (t i : Z) (sensor : node) (st : state) :
  turn_time t -> sound (logger st) ->
  wp (collect t i sensor st) (fun st' => sound (logger st'))
     (fun _ => True).
Proof.
  intros Ht (Hm & Hnm & He & Hnp & Hla). unfold collect.
  apply wp_bind; apply wp_randint; [auto|]. intros sensor_data_size Hs.
  apply wp_bind; apply wp_uniform; [lra|]. intros sensor_latency Hsl.
  apply wp_bind; apply wp_randint; [auto|]. intros image_size Hi.
  apply wp_bind; apply wp_uniform; [lra|]. intros capture_time _.
  apply wp_bind; apply wp_uniform; [lra|]. intros processing_time Hp.
  apply wp_bind; apply wp_uniform; [lra|]. intros fog_latency Hf.
  apply wp_bind; apply wp_uniform; [lra|]. intros energy_consumed Hc.
  apply wp_bind; apply wp_lift. unfold getitem.
  destruct (get (drone_energy st) i) as [energy|]; [|exact I].
  unfold post. apply wp_ret.
  unfold sound.
  cbn [logger messages node_metrics task_assignments energy_consumption
              network_performance latency_analysis log_message
              log_latency_analysis log_energy_consumption].
  split; [|split; [exact Hnm|split; [|split; [exact Hnp|]]]].
  - apply Forall_snoc; [apply Forall_snoc; [exact Hm|]|].
    + eexists _, _, _, _, _, _. split; [reflexivity|].
      split; [exact Ht|]. split; [lia | lra].
    + eexists _, _, _, _, _, _. split; [reflexivity|].
      split; [exact Ht|]. split; [lia | lra].
  - apply Forall_snoc; [exact He|].
    eexists _, _, _, _, _. split; [reflexivity|].
    split; [exact Ht|]. split; [lra | reflexivity].
  - apply Forall_snoc; [exact Hla|].
    eexists _, _, _, _, _. split; [reflexivity|].
    split; [exact Ht|]. split; [lra|]. split; [lra|].
    split; [lra|]. split; lra.
Qed.

Lemma report_sound (t : Z) (st : state) :
  turn_time t -> sound (logger st) ->
  wp (report t st) (fun st' => sound (logger st')) (fun _ => True).
Proof.
  intros Ht (Hm & Hnm & He & Hnp & Hla). unfold report.
  apply wp_bind; apply wp_randint; [auto|]. intros size Hs.
  apply wp_bind; apply wp_uniform; [lra|]. intros latency Hl.
  apply wp_ret. unfold sound.
  cbn [with_logger logger messages node_metrics task_assignments
                   energy_consumption network_performance latency_analysis
                   log_message].
  split; [|auto]. apply Forall_snoc; [exact Hm|].
  eexists _, _, _, _, _, _. split; [reflexivity|].
  split; [exact Ht|]. split; [lia | lra].
Qed.

Lemma measure_sound (t : Z) (id ty : string) (cpu ram network : R * R)
      (st : state) :
  turn_time t -> sound (logger st) ->
  (5 <= fst cpu /\ fst cpu < snd cpu /\ snd cpu <= 80)%R ->
  (20 <= fst ram /\ fst ram < snd ram /\ snd ram <= 15000)%R ->
  (1 <= fst network /\ fst network < snd network /\ snd network <= 80)%R ->
  wp (measure t id ty cpu ram network st) (fun st' => sound (logger st'))
     (fun _ => True).
Proof.
  intros Ht (Hm & Hnm & He & Hnp & Hla) Hc Hr Hn. unfold measure.
  apply wp_bind; apply wp_uniform; [lra|]. intros c Hc'.
  apply wp_bind; apply wp_uniform; [lra|]. intros r Hr'.
  apply wp_bind; apply wp_uniform; [lra|]. intros n Hn'.
  apply wp_ret. unfold sound.
  cbn [with_logger logger messages node_metrics task_assignments
                   energy_consumption network_performance latency_analysis
                   log_node_metrics].
  split; [exact Hm|]. split; [|auto]. apply Forall_snoc; [exact Hnm|].
  eexists _, _, _, _, _, _. split; [reflexivity|].
  split; [exact Ht|]. split; [lra|]. split; lra.
Qed.

Lemma probe_link_sound (t : Z) (link : string * string) (st : state) :
  turn_time t -> sound (logger st) ->
  wp (probe_link t link st) (fun st' => sound (logger st')) (fun _ => True).
Proof.
  intros Ht (Hm & Hnm & He & Hnp & Hla).
  assert (H : forall th pl ji,
             (0.5 <= fst th /\ fst th < snd th /\ snd th <= 200)%R ->
             (0 <= fst pl /\ fst pl < snd pl /\ snd pl <= 5)%R ->
             (1 <= fst ji /\ fst ji < snd ji /\ snd ji <= 50)%R ->
             wp (probe t link th pl ji st) (fun st' => sound (logger st'))
                (fun _ => True)).
  { intros th pl ji H1 H2 H3. unfold probe.
    apply wp_bind; apply wp_uniform; [lra|]. intros x Hx.
    apply wp_bind; apply wp_uniform; [lra|]. intros y Hy.
    apply wp_bind; apply wp_uniform; [lra|]. intros z Hz.
    apply wp_ret. unfold sound.
    cbn [with_logger logger messages node_metrics task_assignments
                     energy_consumption network_performance
                     latency_analysis log_network_performance].
    split; [exact Hm|]. split; [exact Hnm|]. split; [exact He|].
    split; [|exact Hla]. apply Forall_snoc; [exact Hnp|].
    eexists _, _, _, _, _. split; [reflexivity|].
    split; [exact Ht|]. split; [lra|]. split; lra. }
  unfold probe_link.
  destruct (String.eqb (fst link) "sensors");
    [|destruct (String.eqb (fst link) "drones")]; apply H; simpl; lra.
Qed.

Lemma step_sound (a : assignment) (sensor_ids drone_ids : list string)
      (t : Z) (st : state) :
  turn_time t -> sound (logger st) ->
  wp (step a sensor_ids drone_ids t st) (fun st' => sound (logger st'))
     (fun _ => True).
Proof.
  intros Ht Hs. unfold step.
  apply wp_bind.
  apply wp_conseq with (Q := fun st' => sound (logger st')).
  { apply wp_invariant_loop; [|exact Hs]. intros x s _ Hsound.
    unfold collect_all. apply wp_invariant_loop; [|exact Hsound].
    intros y s' _ Hsound'. now apply collect_sound. }
  intros st1 H1. apply wp_bind.
  apply wp_conseq with (1 := report_sound t st1 Ht H1).
  intros st2 H2. apply wp_bind.
  apply wp_conseq with (Q := fun st' => sound (logger st')).
  { apply wp_invariant_loop; [|exact H2]. intros [id ty] s _ Hsound.
    unfold measure_fixed.
    destruct (String.eqb ty "cloud"); [|destruct (String.eqb ty "fog")];
      apply measure_sound; try assumption; simpl; lra. }
  intros st3 H3. apply wp_bind.
  apply wp_conseq with (Q := fun st' => sound (logger st')).
  { apply wp_invariant_loop; [|exact H3]. intros x s _ Hsound.
    unfold measure_drone. apply measure_sound; try assumption; simpl; lra. }
  intros st4 H4. apply wp_bind.
  apply wp_conseq with (Q := fun st' => sound (logger st')).
  { apply wp_invariant_loop; [|exact H4]. intros x s _ Hsound.
    unfold measure_sensor. apply measure_sound; try assumption; simpl; lra. }
  intros st5 H5.
  apply wp_invariant_loop; [|exact H5]. intros x s _ Hsound.
  now apply probe_link_sound.
Qed.

Lemma simulate_sound (a : assignment) (sensor_ids drone_ids : list string)
      (fuel : nat) :
  forall t st,
    (0 <= t)%Z -> (t mod TIME_STEP = 0)%Z -> sound (logger st) ->
    wp (simulate fuel a sensor_ids drone_ids t st)
       (fun out => sound (logger (snd out))) (fun _ => True).
Proof.
  induction fuel as [|fuel IH]; intros t st Ht Hmod Hs;
    rewrite simulate_unfold;
    destruct (Z.ltb_spec t SIMULATION_TIME) as [Hlt | Hge];
    try (apply wp_ret; exact Hs).
  apply wp_bind.
  apply wp_conseq
    with (1 := step_sound a sensor_ids drone_ids t st
                 (conj (conj Ht Hlt) Hmod) Hs).
  intros st1 H1. apply IH; [unfold TIME_STEP; lia | | exact H1].
  unfold TIME_STEP in *. rewrite Z.add_mod, Hmod by lia. reflexivity.
Qed.

(** **** Loads *)

Lemma load_head (k : Z) (l : list node) (a : assignment) :
  load ((k, l) :: a) k = length l.
Proof. unfold load, get_default. simpl. now rewrite Z.eqb_refl. Qed.

Lemma load_tail (k k' : Z) (l : list node) (a : assignment) :
  k <> k' -> load ((k, l) :: a) k' = load a k'.
Proof.
  intros Hne. unfold load, get_default. simpl.
  destruct (Z.eqb_spec k k'); [contradiction | reflexivity].
Qed.

Lemma load_sum (a : assignment) :
  NoDup (keys a) ->
  list_sum (map (load a) (keys a)) = length (all_sensors a).
Proof.
  unfold all_sensors.
  induction a as [|[k l] a IH]; intros Hnd; [reflexivity|].
  inversion Hnd as [|? ? Hk Hnd']; subst.
  cbn [keys map fst snd concat list_sum fold_right] in *.
  rewrite length_app, load_head. f_equal.
  rewrite <- IH by assumption. unfold list_sum. f_equal.
  apply map_ext_in. intros k' Hk'. apply load_tail. intros ->. contradiction.
Qed.

Lemma sum_indicator (f : Z -> nat) (j : Z) (l : list Z) :
  NoDup l ->
  list_sum (map (fun i => if (j =? i)%Z then f i else O) l)
  = if in_dec Z.eq_dec j l then f j else O.
Proof.
  induction l as [|x l IH]; intros Hnd; [reflexivity|].
  inversion Hnd as [|? ? Hx Hnd']; subst.
  cbn [map list_sum fold_right].
  change (fold_right Nat.add O
            (map (fun i => if (j =? i)%Z then f i else O) l))
    with (list_sum (map (fun i => if (j =? i)%Z then f i else O) l)).
  rewrite (IH Hnd').
  destruct (Z.eqb_spec j x) as [->|Hne].
  - destruct (in_dec Z.eq_dec x l) as [Hin|_]; [contradiction|].
    destruct (in_dec Z.eq_dec x (x :: l)) as [_|Hout];
      [lia | exfalso; apply Hout; now left].
  - destruct (in_dec Z.eq_dec j l) as [Hin|Hout];
      destruct (in_dec Z.eq_dec j (x :: l)) as [Hin'|Hout']; try lia.
    + exfalso. apply Hout'. now right.
    + destruct Hin' as [Heq|Hin']; [congruence | contradiction].
Qed.

Lemma heaviest (f : Z -> nat) (l : list Z) :
  l <> [] ->
  exists i, In i l /\ (list_sum (map f l) <= length l * f i)%nat.
Proof.
  induction l as [|x l IH]; intros Hne; [congruence|].
  destruct l as [|y l].
  - exists x. split; [now left|]. simpl. lia.
  - destruct IH as (i & Hi & Hle); [discriminate|].
    cbn [map list_sum fold_right length] in *.
    destruct (Nat.le_gt_cases (f x) (f i)).
    + exists i. split; [now right|]. nia.
    + exists x. split; [now left|]. nia.
Qed.

Lemma get_const (v : R) (l : list Z) (i : Z) :
  In i l -> get (map (fun i => (i, v)) l) i = Some v.
Proof.
  induction l as [|x l IH]; simpl; [contradiction|].
  intros Hin. destruct (Z.eqb_spec x i); [reflexivity|].
  apply IH. destruct Hin; [contradiction | assumption].
Qed.

Lemma keys_const (v : R) (l : list Z) :
  keys (map (fun i => (i, v)) l) = l.
Proof. unfold keys. rewrite map_map. apply map_id. Qed.

Lemma log_tasks_spec (tasks : list entry) :
  forall l,
    task_assignments (log_tasks tasks l)
    = task_assignments l ++ map task_row tasks /\
    messages (log_tasks tasks l) = messages l /\
    node_metrics (log_tasks tasks l) = node_metrics l /\
    energy_consumption (log_tasks tasks l) = energy_consumption l /\
    network_performance (log_tasks tasks l) = network_performance l /\
    latency_analysis (log_tasks tasks l) = latency_analysis l.
Proof.
  unfold log_tasks. induction tasks as [|task tasks IH]; intros l.
  - simpl. rewrite app_nil_r. auto 6.
  - cbn [fold_left]. destruct (IH (log_task_assignment
                                     l (drone_id task) (sensor_id task)
                                     (distance task) (collection_time task)
                                     (energy_cost task)))
      as (H1 & H2 & H3 & H4 & H5 & H6).
    rewrite H1, H2, H3, H4, H5, H6.
    cbn [task_assignments messages node_metrics energy_consumption
                          network_performance latency_analysis
                          log_task_assignment].
    rewrite <- app_assoc. auto 6.
Qed.

Lemma len_map_range {A} (f : Z -> A) (n : Z) :
  (0 <= n)%Z -> len (map f (range n)) = n.
Proof.
  intros Hn. unfold len. rewrite length_map, range_length. lia.
Qed.

Lemma genetic_schedule (drone_positions sensor_positions : list node)
      (g : Random.rng) :
  generate_schedule drone_positions sensor_positions "genetic" g
  = match genetic_algorithm_optimization drone_positions sensor_positions g
    with
    | Ok (a, g') =>
        match schedule_of drone_positions a with
        | Ok schedule => Ok ((schedule, a), g')
        | Raise e => Raise e
        end
    | Raise e => Raise e
    end.
Proof.
  unfold generate_schedule, Random.bind. cbn [String.eqb Ascii.eqb Bool.eqb].
  destruct (genetic_algorithm_optimization drone_positions
                                           sensor_positions g)
    as [[a g']|e]; [|reflexivity].
  unfold Random.lift, Random.ret.
  destruct (schedule_of drone_positions a); reflexivity.
Qed.

(** Everything the run establishes, in one place. *)
Lemma simulation_spec (n d : Z) (g : Random.rng) :
  (1 <= n)%Z -> (1 <= d)%Z ->
  exists topo a sch st g',
    simulation n d g
    = Ok ({| topo_builder := topo; schedule := sch; assignments := a;
             final_logger := logger st; final_energy := drone_energy st;
             final_time := SIMULATION_TIME |}, g') /\
    Topology.sensor_positions topo
    = map (sensor_at (Z.sqrt n)) (range n) /\
    len (Topology.drone_positions topo) = d /\
    partitions d (Topology.sensor_positions topo) a /\
    schedule_of (Topology.drone_positions topo) a = Ok sch /\
    advanced (fun j => turns * step_drain a d j)%nat
             (turns * (2 * total_load a d + 1))
             (turns * (3 + Z.to_nat d + Z.to_nat n))
             (turns * total_load a d) (turns * 4) (turns * total_load a d)
             (initial_state sch d) st /\
    sound (logger st).
Proof.
  intros Hn Hd.
  destruct (create_topology_spec n d g) as
    (topo & g1 & Hrun & _ & _ & Hsp & Hdp & _); [lia|].
  assert (Hlen : len (Topology.drone_positions topo) = d).
  { unfold len. rewrite <- (length_map node_id), Hdp.
    rewrite length_map, range_length. lia. }
  assert (Hdne : Topology.drone_positions topo <> []).
  { intros Heq. rewrite Heq in Hlen. unfold len in Hlen. simpl in Hlen. lia. }
  assert (Hsne : Topology.sensor_positions topo <> []).
  { intros Heq. apply (f_equal (@length node)) in Heq.
    rewrite Hsp, length_map, range_length in Heq. simpl in Heq. lia. }
  pose proof (NoSensors.genetic_post (Topology.drone_positions topo)
                                     (Topology.sensor_positions topo) g1)
    as Hga.
  destruct (genetic_algorithm_optimization
              (Topology.drone_positions topo)
              (Topology.sensor_positions topo) g1)
    as [[a g2]|e] eqn:Hrun2;
    [|now apply genetic_error_excluded in Hga].
  simpl in Hga. rewrite Hlen in Hga.
  destruct (schedule_of_total (Topology.drone_positions topo) a)
    as [sch Hsch].
  { intros k Hk. destruct Hga as [Hkeys _]. rewrite Hkeys in Hk.
    apply in_range in Hk. lia. }
  set (sensor_ids := map sensor_name (range n)) in *.
  set (drone_ids := map drone_name (range d)) in *.
  assert (Hdl : len drone_ids = d) by (apply len_map_range; lia).
  pose proof (simulate_spec a sensor_ids drone_ids (fun _ => False)
                            turns O (initial_state sch d)
                            (Nat.le_0_l _) (Nat.le_refl _)) as Hsim.
  rewrite Hdl in Hsim.
  specialize (Hsim ltac:(intros i Hi; unfold initial_state;
                         cbn [drone_energy]; now rewrite keys_const) g2).
  change (TIME_STEP * Z.of_nat 0)%Z with 0%Z in Hsim.
  change (turns - 0)%nat with turns in Hsim.
  pose proof (simulate_sound a sensor_ids drone_ids turns 0
                             (initial_state sch d) (Z.le_refl 0) eq_refl)
    as Hsound.
  specialize (Hsound ltac:(unfold initial_state; cbn [logger];
                           destruct (log_tasks_spec sch new_logger)
                             as (_ & T2 & T3 & T4 & T5 & T6);
                           unfold sound; rewrite T2, T3, T4, T5, T6;
                           repeat split; constructor) g2).
  destruct (simulate turns a sensor_ids drone_ids 0 (initial_state sch d) g2)
    as [[[t st] g3]|e] eqn:Hrun3; [|contradiction].
  cbn [post fst snd] in Hsound.
  cbn [post fst snd] in Hsim. destruct Hsim as [Ht Hadv]. subst t.
  exists topo, a, sch, st, g3.
  split.
  - unfold simulation. unfold Random.bind at 1. rewrite Hrun.
    cbv beta iota. unfold Random.bind at 1.
    rewrite genetic_schedule, Hrun2, Hsch. cbv beta iota.
    change (Z.to_nat (SIMULATION_TIME / TIME_STEP)) with turns.
    fold (initial_state sch d). unfold Random.bind.
    fold sensor_ids drone_ids. rewrite Hrun3. reflexivity.
  - split; [exact Hsp|]. split; [exact Hlen|]. split; [exact Hga|].
    split; [exact Hsch|]. split; [|exact Hsound].
    apply advanced_weaken with (1 := Hadv); try reflexivity.
    unfold sensor_ids, drone_ids. rewrite !length_map, !range_length.
    reflexivity.
Qed.

Lemma total_load_partition (n d : Z) (sp : list node) (a : assignment) :
  partitions d sp a -> total_load a d = length sp.
Proof.
  intros [Hkeys Hperm]. unfold total_load. rewrite <- Hkeys.
  rewrite load_sum by (rewrite Hkeys; apply NoDup_range).
  now apply Permutation_length.
Qed.

(** X15. The planning phase of [run_simulation], for any number of at
    least one sensor and one drone: on every oracle the run reaches the
    end of the simulation loop without an exception, with the clock at
    [SIMULATION_TIME]; the genetic assignment is a partition of the
    sensors of the topology over the drones; the schedule has one entry
    per (drone, sensor) pair, so that every sensor [soil_sensor_i] is
    scheduled exactly once; and the task log holds the rows of the
    schedule, in order, which the loop leaves alone. *)
Theorem simulation_plan (n d : Z) (g : Random.rng) :
  (1 <= n)%Z -> (1 <= d)%Z ->
  exists out g',
    simulation n d g = Ok (out, g') /\
    final_time out = SIMULATION_TIME /\
    partitions d (Topology.sensor_positions (topo_builder out))
               (assignments out) /\
    Forall2 (entry_for (Topology.drone_positions (topo_builder out)))
            (schedule out) (pairs (assignments out)) /\
    Permutation (map sensor_id (schedule out))
                (map sensor_name (range n)) /\
    NoDup (map sensor_id (schedule out)) /\
    task_assignments (final_logger out) = map task_row (schedule out).
Proof.
  intros Hn Hd.
  destruct (simulation_spec n d g Hn Hd)
    as (topo & a & sch & st & g' & Hrun & Hsp & Hlen & Hpart & Hsch & Hadv
        & Hsound).
  eexists _, g'. split; [exact Hrun|].
  cbn [final_time topo_builder assignments schedule final_logger].
  split; [reflexivity|]. split; [exact Hpart|].
  pose proof (schedule_of_pairs _ _ _ Hsch) as Hpairs.
  split; [exact Hpairs|].
  destruct (entries_sensor_ids _ _ _ Hpairs) as [Hids _].
  rewrite pairs_sensors in Hids.
  assert (Hperm : Permutation (map sensor_id sch)
                              (map sensor_name (range n))).
  { rewrite Hids.
    replace (map sensor_name (range n))
      with (map node_id (Topology.sensor_positions topo))
      by (rewrite Hsp, map_map; reflexivity).
    apply Permutation_map. apply Hpart. }
  split; [exact Hperm|]. split.
  - apply Permutation_NoDup with (l := map sensor_name (range n));
      [now symmetry|].
    apply Injective_map_NoDup; [|apply NoDup_range].
    intros i j. apply sensor_name_inj.
  - destruct Hadv as [(_ & _ & Htasks & _) _]. rewrite Htasks.
    unfold initial_state. cbn [logger].
    destruct (log_tasks_spec sch new_logger) as [-> _]. reflexivity.
Qed.

Lemma simulation_plan_witness :
  exists out g',
    run_simulation zero_draws = Ok (out, g') /\
    final_time out = SIMULATION_TIME /\
    NoDup (map sensor_id (schedule out)).
Proof.
  destruct (simulation_plan NUM_SENSORS NUM_DRONES zero_draws)
    as (out & g' & Hrun & Ht & _ & _ & _ & Hnd & _);
    [unfold NUM_SENSORS; lia | unfold NUM_DRONES; lia|].
  exists out, g'. split; [exact Hrun|]. split; [exact Ht | exact Hnd].
Defined.

(** X16. The volume of the logs when the simulation loop is over, for at
    least one sensor and one drone and on every oracle: the loop runs
    [SIMULATION_TIME / TIME_STEP = 100] turns, and each turn logs two
    messages, one latency row and one energy row per sensor, one more
    message for the cloud, one metrics row per node (three fixed nodes,
    the drones, the sensors) and four network rows. *)
Theorem simulation_log_volume (n d : Z) (g : Random.rng) :
  (1 <= n)%Z -> (1 <= d)%Z ->
  exists out g',
    simulation n d g = Ok (out, g') /\
    length (task_assignments (final_logger out)) = Z.to_nat n /\
    length (messages (final_logger out))
    = (100 * (2 * Z.to_nat n + 1))%nat /\
    length (node_metrics (final_logger out))
    = (100 * (3 + Z.to_nat d + Z.to_nat n))%nat /\
    length (energy_consumption (final_logger out)) = (100 * Z.to_nat n)%nat /\
    length (network_performance (final_logger out)) = 400%nat /\
    length (latency_analysis (final_logger out)) = (100 * Z.to_nat n)%nat.
Proof.
  intros Hn Hd.
  destruct (simulation_spec n d g Hn Hd)
    as (topo & a & sch & st & g' & Hrun & Hsp & Hlen & Hpart & Hsch & Hadv
        & Hsound).
  eexists _, g'. split; [exact Hrun|]. cbn [final_logger].
  assert (Hload : total_load a d = Z.to_nat n).
  { rewrite (total_load_partition n d _ a Hpart), Hsp.
    now rewrite length_map, range_length. }
  assert (Hsl : length sch = Z.to_nat n).
  { apply schedule_of_pairs in Hsch. apply Forall2_length in Hsch.
    rewrite Hsch, <- (length_map snd), pairs_sensors.
    destruct Hpart as [_ Hperm]. rewrite (Permutation_length Hperm), Hsp.
    now rewrite length_map, range_length. }
  destruct Hadv as [(Hm & Hnm & Hta & He & Hnp & Hla) _].
  unfold initial_state in *. cbn [logger] in *.
  destruct (log_tasks_spec sch new_logger)
    as (T1 & T2 & T3 & T4 & T5 & T6).
  rewrite T2 in Hm. rewrite T3 in Hnm. rewrite T1 in Hta.
  rewrite T4 in He. rewrite T5 in Hnp. rewrite T6 in Hla.
  rewrite Hload in *. unfold turns in *. simpl length in *.
  rewrite Hm, Hnm, Hta, He, Hnp, Hla.
  rewrite length_app, length_map, Hsl. simpl length. repeat split; lia.
Qed.

Lemma simulation_log_volume_witness :
  exists out g',
    run_simulation zero_draws = Ok (out, g') /\
    length (messages (final_logger out)) = 2500%nat /\
    length (node_metrics (final_logger out)) = 1800%nat /\
    length (energy_consumption (final_logger out)) = 1200%nat.
Proof.
  destruct (simulation_log_volume NUM_SENSORS NUM_DRONES zero_draws)
    as (out & g' & Hrun & _ & Hm & Hnm & He & _);
    [unfold NUM_SENSORS; lia | unfold NUM_DRONES; lia|].
  exists out, g'. split; [exact Hrun|].
  split; [exact Hm|]. split; [exact Hnm | exact He].
Defined.

(** X17. The batteries when the simulation loop is over, for at least
    one sensor and one drone and on every oracle: [drone_energy] still
    has the keys [0 .. num_drones - 1]; a drone with [m] sensors has
    paid between 5 and 15 units per sensor in each of the 100 turns, so
    its energy lies between [1000 - 1500 * m] and [1000 - 500 * m]; the
    loop never checks a battery, and the drone with the most sensors
    ends at [1000 - 500 * num_sensors / num_drones] or below (at -1000
    or below for the 12 sensors and 3 drones of [run_simulation]). *)
Theorem simulation_energy (n d : Z) (g : Random.rng) :
  (1 <= n)%Z -> (1 <= d)%Z ->
  exists out g',
    simulation n d g = Ok (out, g') /\
    keys (final_energy out) = range d /\
    (forall i, (0 <= i < d)%Z ->
               exists e,
                 get (final_energy out) i = Some e /\
                 (1000 - 1500 * INR (load (assignments out) i) <= e
                  <= 1000 - 500 * INR (load (assignments out) i))%R) /\
    exists i e,
      (0 <= i < d)%Z /\ get (final_energy out) i = Some e /\
      (500 * IZR n <= IZR d * (1000 - e))%R.
Proof.
  intros Hn Hd.
  destruct (simulation_spec n d g Hn Hd)
    as (topo & a & sch & st & g' & Hrun & Hsp & Hlen & Hpart & Hsch & Hadv
        & Hsound).
  eexists _, g'. split; [exact Hrun|]. cbn [final_energy assignments].
  destruct Hadv as [_ [Hkeys Hdrain]].
  unfold initial_state in Hkeys, Hdrain. cbn [drone_energy] in Hkeys, Hdrain.
  rewrite keys_const in Hkeys.
  assert (Hbounds : forall i, (0 <= i < d)%Z ->
             exists e,
               get (drone_energy st) i = Some e /\
               (1000 - 1500 * INR (load a i) <= e
                <= 1000 - 500 * INR (load a i))%R).
  { intros i Hi. apply in_range in Hi.
    destruct (Hdrain i 1000%R (get_const _ _ _ Hi)) as (e & He & Hb).
    exists e. split; [exact He|].
    unfold step_drain in Hb. rewrite sum_indicator in Hb by apply NoDup_range.
    destruct (in_dec Z.eq_dec i (range d)) as [_|Hout]; [|contradiction].
    rewrite mult_INR in Hb. unfold turns in Hb.
    replace (INR 100) with 100%R in Hb
      by (rewrite INR_IZR_INZ; reflexivity).
    lra. }
  split; [exact Hkeys|]. split; [exact Hbounds|].
  destruct (heaviest (load a) (range d)) as (i & Hi & Hmax).
  { intros Heq. apply (f_equal (@length Z)) in Heq.
    rewrite range_length in Heq. simpl in Heq. lia. }
  fold (total_load a d) in Hmax.
  rewrite (total_load_partition n d _ a Hpart), Hsp in Hmax.
  rewrite length_map, !range_length in Hmax.
  apply in_range in Hi. destruct (Hbounds i Hi) as (e & He & Hb).
  exists i, e. split; [exact Hi|]. split; [exact He|].
  assert (Hreal : (IZR n <= IZR d * INR (load a i))%R).
  { apply le_INR in Hmax. rewrite mult_INR, !INR_IZR_INZ in Hmax.
    rewrite !Z2Nat.id in Hmax by lia. rewrite INR_IZR_INZ. exact Hmax. }
  assert (Hdpos : (1 <= IZR d)%R) by (apply IZR_le; lia).
  nra.
Qed.

Lemma simulation_energy_witness :
  exists out g' i e,
    run_simulation zero_draws = Ok (out, g') /\
    get (final_energy out) i = Some e /\ (e <= -1000)%R.
Proof.
  destruct (simulation_energy NUM_SENSORS NUM_DRONES zero_draws)
    as (out & g' & Hrun & _ & _ & i & e & _ & He & Hlow);
    [unfold NUM_SENSORS; lia | unfold NUM_DRONES; lia|].
  exists out, g', i, e. split; [exact Hrun|]. split; [exact He|].
  unfold NUM_SENSORS, NUM_DRONES in Hlow. lra.
Defined.

(** X18. The rows of the logs when the simulation loop is over, for at
    least one sensor and one drone and on every oracle. Every row
    written by the loop carries the time of a turn (a multiple of
    [TIME_STEP] from 0 up to, not including, [SIMULATION_TIME]). A
    message has a size from 50 to 8200 and a latency from 10 to 150; a
    latency row has a processing time from 2 to 8, a transmission time
    from 30 to 130 and an end-to-end latency from 32 to 138 that is at
    least each of the two; an energy row has a consumption from 5 to 15
    and its battery level is the logged total energy divided by 1000
    and multiplied by 100 (no bound keeps it from being negative);
    metrics and network rows have their figures in the closed ranges of
    the draws. *)
Theorem simulation_rows (n d : Z) (g : Random.rng) :
  (1 <= n)%Z -> (1 <= d)%Z ->
  exists out g',
    simulation n d g = Ok (out, g') /\
    Forall message_ok (messages (final_logger out)) /\
    Forall metric_ok (node_metrics (final_logger out)) /\
    Forall energy_ok (energy_consumption (final_logger out)) /\
    Forall network_ok (network_performance (final_logger out)) /\
    Forall latency_ok (latency_analysis (final_logger out)).
Proof.
  intros Hn Hd.
  destruct (simulation_spec n d g Hn Hd)
    as (topo & a & sch & st & g' & Hrun & _ & _ & _ & _ & _ & Hsound).
  eexists _, g'. split; [exact Hrun|]. exact Hsound.
Qed.

Lemma simulation_rows_witness :
  exists out g',
    run_simulation zero_draws = Ok (out, g') /\
    Forall energy_ok (energy_consumption (final_logger out)) /\
    Forall latency_ok (latency_analysis (final_logger out)).
Proof.
  destruct (simulation_rows NUM_SENSORS NUM_DRONES zero_draws)
    as (out & g' & Hrun & _ & _ & He & _ & Hla);
    [unfold NUM_SENSORS; lia | unfold NUM_DRONES; lia|].
  exists out, g'. split; [exact Hrun|]. split; [exact He | exact Hla].
Defined.

End SimulationFacts.
